(** * NeoBin: the authenticated command protocol, the device state and the
      proximity loop of [main.py], embedded in Rocq.

    The service object of [main.py] ([NeoService] together with its three
    characteristics [AuthChrc], [WriteChrc] and [InformChrc]) is a record of
    mutable attributes.  Every method is a computation in a small monad that
    threads this record, may raise a Python exception, and appends to a trace
    of the calls that leave the process (servo pulses, D-Bus signals,
    subprocesses, sleeps).  Logging is not part of the trace. *)

From Stdlib Require Import ZArith QArith List String Ascii Bool Lia DecimalString.
From Stdlib Require DecimalZ DecimalPos.
Import ListNotations.

Set Warnings "-register-all".

Open Scope string_scope.
Open Scope list_scope.
Open Scope Z_scope.

(* ================================================================== *)
(** ** Python values that [json.load] / [json.loads] produce *)

(** Keys of a Python [dict].  JSON text only yields [str] keys; the other
    hashable values can enter through [settings[type][key] = value]. *)
Inductive pykey :=
| KStr (s : string)
| KInt (z : Z)
| KBool (b : bool)
| KNone.

(** [None], [bool], [int], [str], [list] and [dict].  Numbers with a fraction
    or an exponent are not represented. *)
Inductive json :=
| JNull
| JBool (b : bool)
| JInt (z : Z)
| JStr (s : string)
| JList (items : list json)
| JDict (fields : list (pykey * json)).

Definition key_int (k : pykey) : option Z :=
  match k with
  | KInt z => Some z
  | KBool b => Some (Z.b2z b)
  | _ => None
  end.

(** Python's key equality: [True == 1] and [False == 0] name the same slot. *)
Definition key_eqb (a b : pykey) : bool :=
  match a, b with
  | KStr s, KStr t => String.eqb s t
  | KNone, KNone => true
  | _, _ =>
      match key_int a, key_int b with
      | Some x, Some y => Z.eqb x y
      | _, _ => false
      end
  end.

Fixpoint dict_get (k : pykey) (d : list (pykey * json)) : option json :=
  match d with
  | [] => None
  | (k', v) :: rest => if key_eqb k k' then Some v else dict_get k rest
  end.

(** [d[k] = v]: an existing slot keeps its place and its key object, a new
    key goes to the end. *)
Fixpoint dict_set (k : pykey) (v : json) (d : list (pykey * json))
  : list (pykey * json) :=
  match d with
  | [] => [(k, v)]
  | (k', v') :: rest =>
      if key_eqb k k' then (k', v) :: rest else (k', v') :: dict_set k v rest
  end.

(** The hashable values, as keys; [list] and [dict] are unhashable. *)
Definition as_key (j : json) : option pykey :=
  match j with
  | JStr s => Some (KStr s)
  | JInt z => Some (KInt z)
  | JBool b => Some (KBool b)
  | JNull => Some KNone
  | JList _ | JDict _ => None
  end.

(** Values usable as a sequence index ([int] and its subclass [bool]). *)
Definition as_index (j : json) : option Z :=
  match j with
  | JInt z => Some z
  | JBool b => Some (Z.b2z b)
  | _ => None
  end.

(* ================================================================== *)
(** ** Exceptions *)

(** The exception classes that occur.  The text of a [FailedException] is
    kept symbolic: [Str e] stands for [str(e)], [Fmt p e] for the f-string
    [f"{p}{e}"]. *)
Inductive exn :=
| FailedException (msg : message)
| InvalidValueLengthException
| KeyError
| TypeError
| ValueError
| IndexError
| JSONDecodeError
| UnicodeDecodeError
| FileNotFoundError
with message :=
| Text (s : string)
| Str (e : exn)
| Fmt (p : string) (e : exn).

Inductive outcome (A : Type) :=
| Return (a : A)
| Raise (e : exn).
Arguments Return {A} a.
Arguments Raise {A} e.

(** Normalised Python index into a sequence of length [n]. *)
Definition norm_index (n : nat) (i : Z) : option nat :=
  let len := Z.of_nat n in
  if (0 <=? i) && (i <? len) then Some (Z.to_nat i)
  else if (i <? 0) && (- len <=? i) then Some (Z.to_nat (len + i))
  else None.

Fixpoint list_set {A} (n : nat) (x : A) (l : list A) : list A :=
  match l, n with
  | [], _ => []
  | _ :: r, O => x :: r
  | y :: r, S n' => y :: list_set n' x r
  end.

(** Text is kept as the bytes of its UTF-8 encoding; a character is a
    leading byte with the continuation bytes (128 to 191) that follow it. *)
Definition is_continuation (c : ascii) : bool :=
  let n := N_of_ascii c in ((128 <=? n) && (n <=? 191))%N.

Fixpoint code_points (s : string) : list string :=
  match s with
  | EmptyString => []
  | String c r =>
      let follows :=
        match r with
        | String d _ => is_continuation d
        | EmptyString => false
        end in
      match code_points r with
      | h :: t =>
          if follows then String c h :: t else String c EmptyString :: h :: t
      | [] => [String c EmptyString]
      end
  end.

(** [c[k]] *)
Definition getitem (c k : json) : outcome json :=
  match c with
  | JDict d =>
      match as_key k with
      | None => Raise TypeError
      | Some key =>
          match dict_get key d with
          | Some v => Return v
          | None => Raise KeyError
          end
      end
  | JList l =>
      match as_index k with
      | None => Raise TypeError
      | Some i =>
          match norm_index (List.length l) i with
          | None => Raise IndexError
          | Some n =>
              match nth_error l n with
              | Some v => Return v
              | None => Raise IndexError
              end
          end
      end
  | JStr s =>
      match as_index k with
      | None => Raise TypeError
      | Some i =>
          match norm_index (List.length (code_points s)) i with
          | None => Raise IndexError
          | Some n =>
              match nth_error (code_points s) n with
              | Some ch => Return (JStr ch)
              | None => Raise IndexError
              end
          end
      end
  | JNull | JBool _ | JInt _ => Raise TypeError
  end.

(** [c[k] = v], returning the mutated container. *)
Definition setitem (c k v : json) : outcome json :=
  match c with
  | JDict d =>
      match as_key k with
      | None => Raise TypeError
      | Some key => Return (JDict (dict_set key v d))
      end
  | JList l =>
      match as_index k with
      | None => Raise TypeError
      | Some i =>
          match norm_index (List.length l) i with
          | None => Raise IndexError
          | Some n => Return (JList (list_set n v l))
          end
      end
  | JStr _ | JNull | JBool _ | JInt _ => Raise TypeError
  end.

(** [c[k1][k2] = v]: the inner container is mutated in place, so the outer
    one sees the change at the slot it came from. *)
Definition setitem2 (c k1 k2 v : json) : outcome json :=
  match getitem c k1 with
  | Raise e => Raise e
  | Return inner =>
      match setitem inner k2 v with
      | Raise e => Raise e
      | Return inner' =>
          setitem c k1 inner'
      end
  end.

(** [int(x)] on a decoded value, given [int] on text. *)
Definition int_of (int_str : string -> option Z) (j : json) : outcome Z :=
  match j with
  | JInt z => Return z
  | JBool b => Return (Z.b2z b)
  | JStr s =>
      match int_str s with
      | Some z => Return z
      | None => Raise ValueError
      end
  | JNull | JList _ | JDict _ => Raise TypeError
  end.

(* ================================================================== *)
(** ** What lies outside the repository *)

(** The library functions and the host commands the handlers call.
    [json_loads] is [json.loads] ([None] for [JSONDecodeError]), [int_str] is
    [int] on a [str] ([None] for [ValueError]), [nmcli_connect ssid password]
    tells whether [nmcli device wifi connect] exits with status 0, and
    [capture argv] is what
    [subprocess.run(argv, capture_output=True, text=True, check=False)]
    gives for the commands [get_wifi_status] runs: the text of the standard
    output, or the exception raised (a program that is not installed,
    output that does not decode).  [sudo] is taken to be installed.  A
    command gives the same answer each time it is run. *)
Class Platform := {
  json_loads : string -> option json;
  int_str : string -> option Z;
  nmcli_connect : string -> string -> bool;
  capture : list string -> outcome string
}.

(** A settings file: absent; text that is not a JSON document, an empty
    file included ([json.load] raises [JSONDecodeError]); bytes that are
    not text in the encoding of the locale ([json.load] raises
    [UnicodeDecodeError] when it reads the file); or a JSON document.  A
    file that is there can be opened: missing permissions and the like are
    not part of the model. *)
Inductive file :=
| Missing
| Corrupt
| Holds (content : json)
| NotText.

(** One reading attempt of the ultrasonic sensor: either an edge wait runs
    into its 0.1 s bound (or the driver raises), or the echo pulse gives a
    distance in centimetres, [pulse_duration * 34300 / 2]. *)
Inductive echo :=
| NoEcho
| Echo (distance : Q).

(** Calls that leave the process, in program order; [subprocess_run argv]
    is a call of [subprocess.run] that gets as far as starting the
    command. *)
Inductive event :=
| set_servo_pulsewidth (pin : Z) (pulse_width : Z)
| PropertiesChanged (data : json)
| subprocess_run (argv : list string)
| sleep (milliseconds : Z).

(* ================================================================== *)
(** ** The service object *)

(** The attributes of [NeoService], the [notifying] flag of its [InformChrc]
    (characteristic 2) and the file the settings are persisted in. *)
Record NeoService := {
  settings : json;
  is_auth : bool;
  status : bool;
  angle : Z;
  opened : bool;
  running : bool;
  notifying : bool;
  settings_json : file
}.

Definition with_settings (v : json) (s : NeoService) : NeoService :=
  {| settings := v; is_auth := is_auth s; status := status s;
     angle := angle s; opened := opened s; running := running s;
     notifying := notifying s; settings_json := settings_json s |}.

Definition with_is_auth (v : bool) (s : NeoService) : NeoService :=
  {| settings := settings s; is_auth := v; status := status s;
     angle := angle s; opened := opened s; running := running s;
     notifying := notifying s; settings_json := settings_json s |}.

Definition with_status (v : bool) (s : NeoService) : NeoService :=
  {| settings := settings s; is_auth := is_auth s; status := v;
     angle := angle s; opened := opened s; running := running s;
     notifying := notifying s; settings_json := settings_json s |}.

Definition with_angle (v : Z) (s : NeoService) : NeoService :=
  {| settings := settings s; is_auth := is_auth s; status := status s;
     angle := v; opened := opened s; running := running s;
     notifying := notifying s; settings_json := settings_json s |}.

Definition with_opened (v : bool) (s : NeoService) : NeoService :=
  {| settings := settings s; is_auth := is_auth s; status := status s;
     angle := angle s; opened := v; running := running s;
     notifying := notifying s; settings_json := settings_json s |}.

Definition with_running (v : bool) (s : NeoService) : NeoService :=
  {| settings := settings s; is_auth := is_auth s; status := status s;
     angle := angle s; opened := opened s; running := v;
     notifying := notifying s; settings_json := settings_json s |}.

Definition with_notifying (v : bool) (s : NeoService) : NeoService :=
  {| settings := settings s; is_auth := is_auth s; status := status s;
     angle := angle s; opened := opened s; running := running s;
     notifying := v; settings_json := settings_json s |}.

Definition with_settings_json (v : file) (s : NeoService) : NeoService :=
  {| settings := settings s; is_auth := is_auth s; status := status s;
     angle := angle s; opened := opened s; running := running s;
     notifying := notifying s; settings_json := v |}.

(* ================================================================== *)
(** ** Methods as computations *)

(** A method body: from the object before the call to its result or
    exception, the object after it, and the calls it made.  An exception
    keeps the attribute writes and the calls made before it. *)
Definition M (A : Type) : Type :=
  NeoService -> outcome A * NeoService * list event.

Definition ret {A} (a : A) : M A := fun s => (Return a, s, []).

Definition raise {A} (e : exn) : M A := fun s => (Raise e, s, []).

Definition bind {A B} (m : M A) (k : A -> M B) : M B :=
  fun s =>
    match m s with
    | (Return a, s1, t1) =>
        match k a s1 with
        | (r, s2, t2) => (r, s2, t1 ++ t2)
        end
    | (Raise e, s1, t1) => (Raise e, s1, t1)
    end.

(** [try: m  except Exception as e: h e] *)
Definition try_except {A} (m : M A) (h : exn -> M A) : M A :=
  fun s =>
    match m s with
    | (Return a, s1, t1) => (Return a, s1, t1)
    | (Raise e, s1, t1) =>
        match h e s1 with
        | (r, s2, t2) => (r, s2, t1 ++ t2)
        end
    end.

Definition get : M NeoService := fun s => (Return s, s, []).

Definition modify (f : NeoService -> NeoService) : M unit :=
  fun s => (Return tt, f s, []).

Definition call (e : event) : M unit := fun s => (Return tt, s, [e]).

Definition lift {A} (o : outcome A) : M A := fun s => (o, s, []).

Declare Scope py_scope.
Delimit Scope py_scope with py.
Notation "x <- m ;; k" := (bind m (fun x => k))
  (at level 61, m at next level, right associativity) : py_scope.
Notation "m ;; k" := (bind m (fun _ => k))
  (at level 61, right associativity) : py_scope.
Open Scope py_scope.

Definition result_of {A} (r : outcome A * NeoService * list event) : outcome A :=
  fst (fst r).
Definition state_of {A} (r : outcome A * NeoService * list event) : NeoService :=
  snd (fst r).
Definition trace_of {A} (r : outcome A * NeoService * list event) : list event :=
  snd r.

(* ================================================================== *)
(** ** Text *)

(** [s.startswith(p)] *)
Definition startswith (s p : string) : bool := String.prefix p s.

(** [s[n:]] *)
Fixpoint slice_from (n : nat) (s : string) : string :=
  match n, s with
  | O, _ => s
  | S n', String _ r => slice_from n' r
  | S _, EmptyString => EmptyString
  end.

(** [s.split(sep)] for a separator of one character. *)
Fixpoint split (sep : ascii) (s : string) : list string :=
  match s with
  | EmptyString => [EmptyString]
  | String c r =>
      if Ascii.eqb c sep then EmptyString :: split sep r
      else
        match split sep r with
        | [] => [String c EmptyString]
        | h :: t => String c h :: t
        end
  end.

(** [s.split(sep, 1)] for a separator of one character. *)
Fixpoint split_once (sep : ascii) (s : string) : list string :=
  match s with
  | EmptyString => [EmptyString]
  | String c r =>
      if Ascii.eqb c sep then [EmptyString; r]
      else
        match split_once sep r with
        | [] => [String c EmptyString]
        | h :: t => String c h :: t
        end
  end.

(** [s.split(sep)] for a separator [sep] of one or more characters: the
    text is cut at the leftmost occurrence, and the search goes on behind
    it.  [inside] counts the characters of an occurrence still to be
    passed over; [s.split(sep)] is [split_on sep 0 s]. *)
Fixpoint split_on (sep : string) (inside : nat) (s : string) : list string :=
  match s with
  | EmptyString => [EmptyString]
  | String c r =>
      match inside with
      | S n => split_on sep n r
      | O =>
          if String.prefix sep s
          then EmptyString :: split_on sep (String.length sep - 1) r
          else
            match split_on sep 0 r with
            | [] => [String c EmptyString]
            | h :: t => String c h :: t
            end
      end
  end.

(** [sub in s] *)
Fixpoint contains (sub s : string) : bool :=
  String.prefix sub s ||
  match s with
  | EmptyString => false
  | String _ r => contains sub r
  end.

(** Whether the text holds a NUL character. *)
Fixpoint has_nul (s : string) : bool :=
  match s with
  | EmptyString => false
  | String c r => Ascii.eqb c "000" || has_nul r
  end.

Definition bytes (l : list Z) : string :=
  fold_right (fun n s => String (ascii_of_N (Z.to_N n)) s) EmptyString l.

(** The characters [str.isspace] accepts, each as its UTF-8 encoding:
    U+0009 to U+000D, U+001C to U+0020, U+0085, U+00A0, U+1680, U+2000 to
    U+200A, U+2028, U+2029, U+202F, U+205F and U+3000. *)
Definition whitespace : list string :=
  map bytes
      [[9]; [10]; [11]; [12]; [13]; [28]; [29]; [30]; [31]; [32];
       [194; 133]; [194; 160]; [225; 154; 128];
       [226; 128; 128]; [226; 128; 129]; [226; 128; 130]; [226; 128; 131];
       [226; 128; 132]; [226; 128; 133]; [226; 128; 134]; [226; 128; 135];
       [226; 128; 136]; [226; 128; 137]; [226; 128; 138];
       [226; 128; 168]; [226; 128; 169]; [226; 128; 175];
       [226; 129; 159]; [227; 128; 128]].

Definition isspace (ch : string) : bool := existsb (String.eqb ch) whitespace.

Fixpoint lstrip (chars : list string) : list string :=
  match chars with
  | ch :: rest => if isspace ch then lstrip rest else chars
  | [] => []
  end.

(** [s.strip()] *)
Definition strip (s : string) : string :=
  String.concat EmptyString (rev (lstrip (rev (lstrip (code_points s))))).

(** [utf8_scan 0 128 191] accepts exactly the well-formed UTF-8 encodings
    (no overlong forms, no surrogates, nothing above U+10FFFF), which is
    when [bytes(value).decode('utf-8')] does not raise.  The prefixes and
    the separator the handlers look for are ASCII, so tests, slices and
    splits on the bytes agree with those on the characters. *)
Fixpoint utf8_scan (pending : nat) (lo hi : N) (s : string) : bool :=
  match s with
  | EmptyString => match pending with O => true | S _ => false end
  | String c r =>
      let b := N_of_ascii c in
      match pending with
      | S p =>
          if ((lo <=? b) && (b <=? hi))%N then utf8_scan p 128 191 r else false
      | O =>
          if (b <=? 127)%N then utf8_scan 0 128 191 r
          else if ((194 <=? b) && (b <=? 223))%N then utf8_scan 1 128 191 r
          else if (b =? 224)%N then utf8_scan 2 160 191 r
          else if (((225 <=? b) && (b <=? 236)) || (b =? 238) || (b =? 239))%N
               then utf8_scan 2 128 191 r
          else if (b =? 237)%N then utf8_scan 2 128 159 r
          else if (b =? 240)%N then utf8_scan 3 144 191 r
          else if ((241 <=? b) && (b <=? 243))%N then utf8_scan 3 128 191 r
          else if (b =? 244)%N then utf8_scan 3 128 143 r
          else false
      end
  end.

(** [bytes(value).decode('utf-8')] *)
Definition decode (value : string) : outcome string :=
  if utf8_scan 0 128 191 value then Return value else Raise UnicodeDecodeError.

(** [isinstance(e, ValueError)] *)
Definition is_ValueError (e : exn) : bool :=
  match e with
  | ValueError | JSONDecodeError | UnicodeDecodeError => true
  | _ => false
  end.

(** [str(k)] as [json.dump] writes a key that is not a [str]. *)
Definition dumped_key (k : pykey) : string :=
  match k with
  | KStr s => s
  | KInt z => DecimalString.NilZero.string_of_int (Z.to_int z)
  | KBool true => "true"
  | KBool false => "false"
  | KNone => "null"
  end.

(** What [json.load] reads back after [json.dump]: keys become text, and of
    two keys with the same text the later value stays at the earlier place. *)
Fixpoint reload (j : json) : json :=
  match j with
  | JList l => JList (map reload l)
  | JDict d =>
      JDict (fold_left
               (fun acc (kv : pykey * json) =>
                  dict_set (KStr (dumped_key (fst kv))) (snd kv) acc)
               (map (fun kv : pykey * json => let (k, v) := kv in (k, reload v)) d)
               [])
  | _ => j
  end.

(* ================================================================== *)
(** ** NeoService *)

Definition SERVO_PIN : Z := 18.

(** [cfg["settings"][name]] *)
Definition lookup_setting (cfg : json) (name : string) : outcome json :=
  match getitem cfg (JStr "settings") with
  | Return section => getitem section (JStr name)
  | Raise e => Raise e
  end.

(** [int(cfg["settings"][name])] *)
Definition int_lookup `{Platform} (cfg : json) (name : string) : outcome Z :=
  match lookup_setting cfg name with
  | Return v => int_of int_str v
  | Raise e => Raise e
  end.

(** [self.settings["settings"][name]] *)
Definition setting (name : string) : M json :=
  s <- get ;;
  lift (lookup_setting (settings s) name).

(** [int(self.settings["settings"][name])] *)
Definition int_setting `{Platform} (name : string) : M Z :=
  s <- get ;;
  lift (int_lookup (settings s) name).

(** [NeoService.is_authenticated] *)
Definition is_authenticated (s : NeoService) : bool := is_auth s.

(** [NeoService.set_servo_angle].  The refusal while the device is off is
    raised outside the [try]; what is raised inside it, the range error
    included, ends in its [except Exception], which logs and returns. *)
Definition set_servo_angle `{Platform} (a : Z) : M unit :=
  s <- get ;;
  if negb (status s) then raise (FailedException (Text "NeoBin is not on"))
  else
    try_except
      (mn <- int_setting "minAngle" ;;
       in_range <- (if mn <=? a
                    then mx <- int_setting "maxAngle" ;; ret (a <=? mx)
                    else ret false) ;;
       if negb in_range then raise InvalidValueLengthException
       else
         let pulse_width := 500 + ((180 - a) * 2000 / 180) in
         call (set_servo_pulsewidth SERVO_PIN pulse_width))
      (fun _ => ret tt).

(** [int(maxAngle) >= self.angle > int(minAngle)], a chained comparison: the
    right operand is only evaluated when the left comparison holds. *)
Definition angle_is_open `{Platform} : M bool :=
  mx <- int_setting "maxAngle" ;;
  s <- get ;;
  if mx >=? angle s
  then mn <- int_setting "minAngle" ;; ret (angle s >? mn)
  else ret false.

(** [NeoService.save_json] *)
Definition save_json `{Platform} (data_type data_key data_value : json)
  : M bool :=
  try_except
    (s <- get ;;
     loaded <- lift (match settings_json s with
                     | Missing => Raise FileNotFoundError
                     | Corrupt => Raise JSONDecodeError
                     | NotText => Raise UnicodeDecodeError
                     | Holds content => Return content
                     end) ;;
     updated <- lift (setitem2 loaded data_type data_key data_value) ;;
     modify (with_settings_json (Holds (reload updated))) ;;
     modify (with_settings updated) ;;
     ret true)
    (fun e => raise (FailedException (Fmt "Couldn't save file: " e))).

Definition Qltb (x y : Q) : bool := negb (Qle_bool y x).

(** [NeoService.measure_distance] *)
Definition measure_distance (s : NeoService) (e : echo) : Q :=
  if negb (status s) then 0%Q
  else
    match e with
    | NoEcho => 0%Q
    | Echo distance =>
        if Qltb 0 distance && Qltb distance 300 then distance else 0%Q
    end.

(** [distance < v] for a decoded value [v]. *)
Definition lt_json (distance : Q) (v : json) : outcome bool :=
  match v with
  | JInt z => Return (Qltb distance (inject_Z z))
  | JBool b => Return (Qltb distance (inject_Z (Z.b2z b)))
  | JNull | JStr _ | JList _ | JDict _ => Raise TypeError
  end.

(** A [dict] with text keys, as the handler tables are. *)
Fixpoint lookup {A} (k : string) (table : list (string * A)) : option A :=
  match table with
  | [] => None
  | (k', v) :: rest => if String.eqb k k' then Some v else lookup k rest
  end.

Definition not_authenticated {A} : M A :=
  raise (FailedException (Text "Not authenticated")).

(* ================================================================== *)
(** ** Commands run on the host *)

(** [subprocess.run(argv)] as far as the process is concerned: an
    argument that holds a NUL character raises [ValueError] before anything
    is started; otherwise the command is run. *)
Definition run_process (argv : list string) : M unit :=
  if existsb has_nul argv then raise ValueError
  else call (subprocess_run argv).

(** [subprocess.run(argv, capture_output=True, text=True, check=False).stdout] *)
Definition run_capturing `{Platform} (argv : list string) : M string :=
  run_process argv ;;
  lift (capture argv).

(** [text.strip().split('\n')] *)
Definition lines (text : string) : list string :=
  split (ascii_of_nat 10) (strip text).

(* ================================================================== *)
(** ** InformChrc (characteristic 2) *)

Module InformChrc.

Definition get_status : M json := s <- get ;; ret (JBool (status s)).
Definition get_angle : M json := s <- get ;; ret (JInt (angle s)).
Definition get_open : M json := s <- get ;; ret (JBool (opened s)).

(** The dictionary [wifi_info] of [get_wifi_status]; [None] is [None]. *)
Definition text_or_none (value : option string) : json :=
  match value with
  | Some text => JStr text
  | None => JNull
  end.

Definition wifi_info (connected : bool) (ssid ip_address : option string)
  : json :=
  JDict [(KStr "connected", JBool connected);
         (KStr "ssid", text_or_none ssid);
         (KStr "ip_address", text_or_none ip_address)].

(** The loop over the active connections: the device of the first line
    that starts with [802-11-wireless:] and has [activated] as its fourth
    field.  [None] when the loop ends without a [break], which leaves
    [connected] false and [wifi_device] [None]. *)
Fixpoint active_wifi_device (active : list string) : option string :=
  match active with
  | [] => None
  | line :: rest =>
      if startswith line "802-11-wireless:"
      then
        match split ":" line with
        | _ :: _ :: device :: state :: _ =>
            if String.eqb state "activated" then Some device
            else active_wifi_device rest
        | _ => active_wifi_device rest
        end
      else active_wifi_device rest
  end.

(** The loop over the output of [iw dev <device> link]:
    [line.split("SSID:")[1].strip()] for the first line with [SSID:]. *)
Fixpoint link_ssid (link : list string) : outcome (option string) :=
  match link with
  | [] => Return None
  | line :: rest =>
      if contains "SSID:" line
      then
        match nth_error (split_on "SSID:" 0 line) 1 with
        | Some part => Return (Some (strip part))
        | None => Raise IndexError
        end
      else link_ssid rest
  end.

(** The loop over the output of [nmcli -t -f active,ssid dev wifi]:
    [line.split(':', 1)[1]] for the first line that starts with [yes:]. *)
Fixpoint listed_ssid (networks : list string) : outcome (option string) :=
  match networks with
  | [] => Return None
  | line :: rest =>
      if startswith line "yes:"
      then
        match nth_error (split_once ":" line) 1 with
        | Some part => Return (Some part)
        | None => Raise IndexError
        end
      else listed_ssid rest
  end.

(** The loop over the output of [ip -f inet addr show <device>]:
    [line.split("inet ")[1].split("/")[0]] for the first line with
    [inet ]. *)
Fixpoint inet_address (addresses : list string) : outcome (option string) :=
  match addresses with
  | [] => Return None
  | line :: rest =>
      if contains "inet " line
      then
        match nth_error (split_on "inet " 0 line) 1 with
        | Some part =>
            match nth_error (split "/" part) 0 with
            | Some address => Return (Some address)
            | None => Raise IndexError
            end
        | None => Raise IndexError
        end
      else inet_address rest
  end.

(** [not wifi_info["ssid"]]: true for [None] and for the empty text. *)
Definition no_ssid (ssid : option string) : bool :=
  match ssid with
  | Some (String _ _) => false
  | _ => true
  end.

(** [InformChrc.get_wifi_status].  The two inner [try] blocks keep the
    [ssid] found so far when the command or the loop raises; anything
    raised elsewhere ends in the outer [except Exception], which answers
    the dictionary of a host without Wi-Fi. *)
Definition get_wifi_status `{Platform} : M json :=
  try_except
    (active <- run_capturing ["nmcli"; "-t"; "-f"; "TYPE,NAME,DEVICE,STATE";
                              "connection"; "show"; "--active"] ;;
     match active_wifi_device (lines active) with
     | None => ret (wifi_info false None None)
     | Some EmptyString => ret (wifi_info true None None)
     | Some wifi_device =>
         ssid <- try_except
                   (link <- run_capturing ["iw"; "dev"; wifi_device; "link"] ;;
                    lift (link_ssid (lines link)))
                   (fun _ => ret None) ;;
         ssid <- (if no_ssid ssid
                  then
                    try_except
                      (networks <- run_capturing
                                     ["nmcli"; "-t"; "-f"; "active,ssid";
                                      "dev"; "wifi"] ;;
                       found <- lift (listed_ssid (lines networks)) ;;
                       match found with
                       | Some name => ret (Some name)
                       | None => ret ssid
                       end)
                      (fun _ => ret ssid)
                  else ret ssid) ;;
         addresses <- run_capturing ["ip"; "-f"; "inet"; "addr"; "show";
                                     wifi_device] ;;
         ip_address <- lift (inet_address (lines addresses)) ;;
         ret (wifi_info true ssid ip_address)
     end)
    (fun _ =>
       ret (JDict [(KStr "connected", JBool false); (KStr "ssid", JNull);
                   (KStr "ip_address", JNull)])).

Definition command_handler : list (string * M json) :=
  [("STATUS", get_status); ("OPENED", get_open); ("ANGLE", get_angle)].

(** [InformChrc.ReadValue]; [options in self.command_handler] hashes
    [options], so a [list] or [dict] raises [TypeError]. *)
Definition ReadValue (options : json) : M json :=
  s <- get ;;
  if negb (is_authenticated s) then not_authenticated
  else
    match as_key options with
    | None => raise TypeError
    | Some (KStr name) =>
        match lookup name command_handler with
        | Some h => h
        | None => raise (FailedException (Text "Invalid command"))
        end
    | Some _ => raise (FailedException (Text "Invalid command"))
    end.

Definition StartNotify : M unit :=
  s <- get ;;
  if notifying s then ret tt
  else if negb (is_authenticated s) then not_authenticated
  else modify (with_notifying true).

Definition StopNotify : M unit :=
  s <- get ;;
  if negb (notifying s) then ret tt
  else modify (with_notifying false).

(** The signal carries [json.dumps(data)]; it is recorded by [data]. *)
Definition send_notification (data : json) : M unit :=
  s <- get ;;
  if negb (notifying s) then ret tt
  else call (PropertiesChanged data).

End InformChrc.

(* ================================================================== *)
(** ** WriteChrc (characteristic 1) *)

Module WriteChrc.

Import InformChrc.

(** A bound method stored in the handler table, by the number of
    arguments it takes besides [self]. *)
Inductive handler :=
| Nullary (body : M unit)
| Unary (body : string -> M unit).

(** [h()] *)
Definition invoke (h : handler) : M unit :=
  match h with
  | Nullary body => body
  | Unary _ => raise TypeError
  end.

Definition get_settings `{Platform} : M unit :=
  try_except
    (mx <- int_setting "maxAngle" ;;
     send_notification (JDict [(KStr "maxAngle", JInt mx)]) ;;
     dd <- int_setting "detectDistance" ;;
     send_notification (JDict [(KStr "detectDistance", JInt dd)]))
    (fun e => raise (FailedException (Str e))).

Definition get_wifi `{Platform} : M unit :=
  try_except
    (wifi_status <- get_wifi_status ;;
     send_notification (JDict [(KStr "WiFiConnectionData", wifi_status)]))
    (fun e => raise (FailedException (Str e))).

Definition update_settings `{Platform} (data : string) : M unit :=
  try_except
    (d <- lift (match json_loads data with
                | Some j => Return j
                | None => Raise JSONDecodeError
                end) ;;
     data_type <- lift (getitem d (JStr "type")) ;;
     data_key <- lift (getitem d (JStr "key")) ;;
     data_value <- lift (getitem d (JStr "value")) ;;
     result <- save_json data_type data_key data_value ;;
     if result
     then
       match as_key data_key with
       | Some k => send_notification (JDict [(k, data_value)])
       | None => raise TypeError
       end
     else ret tt)
    (fun e =>
       match e with
       | JSONDecodeError | KeyError => raise InvalidValueLengthException
       | _ => raise e
       end).

(** [subprocess.run] without [check=True] never raises
    [CalledProcessError], so the handler of that exception is dead. *)
Definition disconnect_from_wifi `{Platform} : M unit :=
  run_process ["sudo"; "nmcli"; "device"; "disconnect"; "wlan0"] ;;
  wifi_status <- get_wifi_status ;;
  send_notification (JDict [(KStr "WiFiConnectionData", wifi_status)]).

(** [WriteChrc.connect_to_wifi].  With [check=True] a command that exits
    with another status than 0 raises [CalledProcessError], which is
    caught; the [ValueError] for a name or password with a NUL character is
    not, and leaves the method. *)
Definition connect_to_wifi `{Platform} (command : string) : M unit :=
  ssid <- lift (match nth_error (split ":" command) 0 with
                | Some x => Return x
                | None => Raise IndexError
                end) ;;
  password <- lift (match nth_error (split ":" command) 1 with
                    | Some x => Return x
                    | None => Raise IndexError
                    end) ;;
  run_process ["sudo"; "nmcli"; "device"; "wifi"; "connect"; ssid;
               "password"; password] ;;
  if nmcli_connect ssid password
  then
    wifi_status <- get_wifi_status ;;
    send_notification (JDict [(KStr "WiFiConnectionData", wifi_status)])
  else
    wifi_status <- get_wifi_status ;;
    send_notification (JDict [(KStr "WiFiConnectionData", wifi_status)]).

(** The body shared by [set_open], [set_close] and the [ANGLE:] branch
    once [self.service.angle] is assigned. *)
Definition move_and_report `{Platform} : M unit :=
  s <- get ;;
  set_servo_angle (angle s) ;;
  o <- angle_is_open ;;
  modify (with_opened o) ;;
  s <- get ;;
  send_notification (JDict [(KStr "Angle", JInt (angle s))]) ;;
  s <- get ;;
  send_notification (JDict [(KStr "Opened", JBool (opened s))]).

Definition set_open `{Platform} : M unit :=
  mx <- int_setting "maxAngle" ;;
  modify (with_angle mx) ;;
  move_and_report.

Definition set_close `{Platform} : M unit :=
  mn <- int_setting "minAngle" ;;
  modify (with_angle mn) ;;
  move_and_report.

Definition set_status : M unit :=
  modify (fun s => with_status (negb (status s)) s) ;;
  s <- get ;;
  send_notification (JDict [(KStr "Status", JBool (status s))]).

Definition command_handler `{Platform} : list (string * handler) :=
  [("OPEN", Nullary set_open);
   ("CLOSE", Nullary set_close);
   ("STATUS", Nullary set_status);
   ("SETTINGS", Unary update_settings);
   ("GET_SETTINGS", Nullary get_settings);
   ("WIFI_DISCONNECT", Nullary disconnect_from_wifi);
   ("GET_WIFI", Nullary get_wifi)].

(** The [ANGLE:] branch with its own [except ValueError]. *)
Definition angle_command `{Platform} (command : string) : M unit :=
  try_except
    (a <- lift (match int_str (slice_from 6 command) with
                | Some z => Return z
                | None => Raise ValueError
                end) ;;
     modify (with_angle a) ;;
     move_and_report)
    (fun e =>
       if is_ValueError e then raise InvalidValueLengthException
       else raise e).

Definition WriteValue `{Platform} (value : string) : M unit :=
  s <- get ;;
  if negb (is_authenticated s) then not_authenticated
  else
    try_except
      (command <- lift (decode value) ;;
       if startswith command "ANGLE:" then angle_command command
       else if startswith command "CONNECT:"
            then connect_to_wifi (slice_from 8 command)
       else if startswith command "SETTINGS:"
            then update_settings (slice_from 9 command)
       else
         match lookup command command_handler with
         | Some h => invoke h
         | None => raise (FailedException (Text "Invalid command"))
         end)
      (fun e => raise (FailedException (Str e))).

End WriteChrc.

(* ================================================================== *)
(** ** AuthChrc (characteristic 0) *)

Module AuthChrc.

Definition PASS : string := "NeoBin".

Definition WriteValue (value : string) : M unit :=
  if negb (String.eqb value PASS)
  then
    modify (with_is_auth false) ;;
    raise (FailedException (Text "Authentication Failed"))
  else modify (with_is_auth true).

End AuthChrc.

(* ================================================================== *)
(** ** The proximity loop and start-up *)

(** One pass through the body of [while self.running:] in
    [NeoService.sensor_loop].  [e] is what the sensor hardware answers;
    [stopped_in_dwell] tells whether the signal handler clears
    [self.running] while the loop sleeps its 3 s. *)
Definition sensor_pass `{Platform} (e : echo) (stopped_in_dwell : bool)
  : M unit :=
  try_except
    (s <- get ;;
     let distance := measure_distance s e in
     detected <- (if Qltb 0 distance
                  then dd <- setting "detectDistance" ;;
                       lift (lt_json distance dd)
                  else ret false) ;;
     if detected
     then
       WriteChrc.set_open ;;
       call (sleep 3000) ;;
       (if stopped_in_dwell then modify (with_running false) else ret tt) ;;
       s <- get ;;
       (if running s then WriteChrc.set_close else ret tt) ;;
       call (sleep 500)
     else ret tt)
    (fun _ => call (sleep 1000)).

(** [NeoService.sensor_loop] on the sensor answers of its first passes.  It
    returns when [self.running] is found cleared or the answers end. *)
Fixpoint sensor_loop `{Platform} (inputs : list (echo * bool)) : M unit :=
  match inputs with
  | [] => ret tt
  | (e, stopped_in_dwell) :: rest =>
      s <- get ;;
      if running s
      then sensor_pass e stopped_in_dwell ;; sensor_loop rest
      else ret tt
  end.

(** The literal of [NeoService.return_default]. *)
Definition default_settings : json :=
  JDict [(KStr "settings",
          JDict [(KStr "minAngle", JInt 0);
                 (KStr "maxAngle", JInt 180);
                 (KStr "detectDistance", JInt 20)])].


(** The attributes [NeoService.__init__] assigns, for the settings
    [read_json] returned. *)
Definition fresh (content : json) (f : file) : NeoService :=
  {| settings := content; is_auth := false; status := true; angle := 0;
     opened := (180 >=? 0) && (0 >? 0); running := false;
     notifying := false; settings_json := f |}.


(* ================================================================== *)
(** ** The two threads

    [main] starts [sensor_loop] in a thread of its own while the D-Bus main
    loop runs the write handlers; the source takes no lock.  This section
    lists the accesses to the shared attributes that [set_open], [set_close]
    and the [ANGLE:] branch make, one instruction per attribute read,
    attribute write or outside call, for settings whose [minAngle] and
    [maxAngle] are the integers [mn] and [mx] and a device that is on, and
    runs two such instruction lists under a schedule. *)

(** [StoreAngle v] is [self.service.angle = v]; [LoadAngle] and
    [LoadOpened] read [self.service.angle] and [self.service.opened] into
    the thread's own operand; [Pulse] is [set_servo_angle] on the angle
    read; [StoreOpened] is
    [self.service.opened = maxAngle >= a > minAngle] for the angle [a]
    read; [NotifyAngle] and [NotifyOpened] are the two
    [send_notification] calls on the values read. *)
Inductive instr :=
| StoreAngle (v : Z)
| LoadAngle
| Pulse
| StoreOpened
| NotifyAngle
| LoadOpened
| NotifyOpened.

(** [self.service.angle = v] followed by the shared body. *)
Definition moves_to (v : Z) : list instr :=
  [StoreAngle v; LoadAngle; Pulse; LoadAngle; StoreOpened;
   LoadAngle; NotifyAngle; LoadOpened; NotifyOpened].

Record shared := {
  sh_angle : Z;
  sh_opened : bool;
  sh_trace : list event
}.

Record thread := {
  loaded_angle : Z;
  loaded_opened : bool;
  code : list instr
}.

Section Interleaving.

Variables mn mx : Z.
Variable subscribed : bool.

Definition signal (data : json) : list event :=
  if subscribed then [PropertiesChanged data] else [].

Definition exec (i : instr) (t : thread) (m : shared) : thread * shared :=
  match i with
  | StoreAngle v =>
      (t, {| sh_angle := v; sh_opened := sh_opened m; sh_trace := sh_trace m |})
  | LoadAngle =>
      ({| loaded_angle := sh_angle m; loaded_opened := loaded_opened t;
          code := code t |}, m)
  | Pulse =>
      let a := loaded_angle t in
      if (mn <=? a) && (a <=? mx)
      then (t, {| sh_angle := sh_angle m; sh_opened := sh_opened m;
                  sh_trace := sh_trace m ++
                    [set_servo_pulsewidth SERVO_PIN
                       (500 + ((180 - a) * 2000 / 180))] |})
      else (t, m)
  | StoreOpened =>
      let a := loaded_angle t in
      (t, {| sh_angle := sh_angle m;
             sh_opened := (mx >=? a) && (a >? mn);
             sh_trace := sh_trace m |})
  | NotifyAngle =>
      (t, {| sh_angle := sh_angle m; sh_opened := sh_opened m;
             sh_trace := sh_trace m ++
               signal (JDict [(KStr "Angle", JInt (loaded_angle t))]) |})
  | LoadOpened =>
      ({| loaded_angle := loaded_angle t; loaded_opened := sh_opened m;
          code := code t |}, m)
  | NotifyOpened =>
      (t, {| sh_angle := sh_angle m; sh_opened := sh_opened m;
             sh_trace := sh_trace m ++
               signal (JDict [(KStr "Opened", JBool (loaded_opened t))]) |})
  end.

(** The thread runs its next instruction, if it has one left. *)
Definition step (t : thread) (m : shared) : thread * shared :=
  match code t with
  | [] => (t, m)
  | i :: rest =>
      exec i {| loaded_angle := loaded_angle t;
                loaded_opened := loaded_opened t; code := rest |} m
  end.

(** A schedule names, turn by turn, the thread that runs: [true] for the
    write handler, [false] for the sensor loop. *)
Fixpoint run (schedule : list bool) (handler sensor : thread) (m : shared)
  : thread * thread * shared :=
  match schedule with
  | [] => (handler, sensor, m)
  | true :: rest =>
      let (handler', m') := step handler m in run rest handler' sensor m'
  | false :: rest =>
      let (sensor', m') := step sensor m in run rest handler sensor' m'
  end.

End Interleaving.

Definition begins (c : list instr) : thread :=
  {| loaded_angle := 0; loaded_opened := false; code := c |}.

(* ================================================================== *)
(** ** A platform to compute with

    The statements below that quantify over [Platform] hold for every
    decoder.  To run the handlers on concrete payloads, [int] and
    [json.loads] are written out for ASCII text: [int_ascii] follows
    [int(str)] in base 10 (surrounding blanks, tabs and line breaks, one
    optional sign, at most 4300 digits with single underscores between
    them); [loads_ascii] follows [json.loads] on documents without
    fractions, exponents, [\u] escapes and the constants [NaN] and
    [Infinity].  On text outside these fragments (characters that are not
    ASCII, documents with a fraction) the two answer that the text does not
    decode, which [int] and [json.loads] need not; they are only used on
    the payloads written out below, all inside the fragments. *)

(** The whitespace [int] skips in ASCII text; unlike [str.strip] it leaves
    the separators U+001C to U+001F in place. *)
Definition is_space (c : ascii) : bool :=
  let n := N_of_ascii c in
  ((n =? 32) || ((9 <=? n) && (n <=? 13)))%N.

Definition digit_of (c : ascii) : option Z :=
  let n := N_of_ascii c in
  if ((48 <=? n) && (n <=? 57))%N then Some (Z.of_N n - 48) else None.

Fixpoint skip_spaces (s : string) : string :=
  match s with
  | String c r => if is_space c then skip_spaces r else s
  | EmptyString => s
  end.

Fixpoint rev_string (acc s : string) : string :=
  match s with
  | EmptyString => acc
  | String c r => rev_string (String c acc) r
  end.

Definition trim (s : string) : string :=
  rev_string EmptyString
             (skip_spaces (rev_string EmptyString (skip_spaces s))).

(** The number of digits, which [int] bounds by 4300. *)
Fixpoint count_digits (s : string) : nat :=
  match s with
  | EmptyString => O
  | String c r =>
      match digit_of c with
      | Some _ => S (count_digits r)
      | None => count_digits r
      end
  end.

Fixpoint digits (acc : Z) (after_digit : bool) (s : string) : option Z :=
  match s with
  | EmptyString => if after_digit then Some acc else None
  | String c r =>
      match digit_of c with
      | Some d => digits (10 * acc + d) true r
      | None =>
          if Ascii.eqb c "_" && after_digit then digits acc false r else None
      end
  end.

Definition int_ascii (s : string) : option Z :=
  if (4300 <? count_digits s)%nat then None
  else
    match trim s with
    | String "-" r => option_map Z.opp (digits 0 false r)
    | String "+" r => digits 0 false r
    | r => digits 0 false r
    end.

Definition quote : ascii := ascii_of_nat 34.

(** Payloads are written with an apostrophe where the wire has a double
    quote. *)
Fixpoint wire (s : string) : string :=
  match s with
  | EmptyString => EmptyString
  | String c r => String (if Ascii.eqb c "'" then quote else c) (wire r)
  end.

Definition is_json_space (c : ascii) : bool :=
  let n := N_of_ascii c in ((n =? 32) || (n =? 9) || (n =? 10) || (n =? 13))%N.

Fixpoint skip_ws (s : string) : string :=
  match s with
  | String c r => if is_json_space c then skip_ws r else s
  | EmptyString => s
  end.

(** The rest of a string literal after its opening quote. *)
Fixpoint string_body (acc s : string) : option (string * string) :=
  match s with
  | EmptyString => None
  | String c r =>
      if Ascii.eqb c quote then Some (rev_string EmptyString acc, r)
      else if (N_of_ascii c <? 32)%N then None
      else if Ascii.eqb c "\" then
        match r with
        | String e r' =>
            let unescaped :=
              if Ascii.eqb e quote then Some e
              else if Ascii.eqb e "\" then Some e
              else if Ascii.eqb e "/" then Some e
              else if Ascii.eqb e "b" then Some (ascii_of_nat 8)
              else if Ascii.eqb e "f" then Some (ascii_of_nat 12)
              else if Ascii.eqb e "n" then Some (ascii_of_nat 10)
              else if Ascii.eqb e "r" then Some (ascii_of_nat 13)
              else if Ascii.eqb e "t" then Some (ascii_of_nat 9)
              else None in
            match unescaped with
            | Some ch => string_body (String ch acc) r'
            | None => None
            end
        | EmptyString => None
        end
      else string_body (String c acc) r
  end.

(** The digits of an integer literal and the text after them. *)
Fixpoint number_digits (acc : Z) (s : string) : Z * string :=
  match s with
  | String c r =>
      match digit_of c with
      | Some d => number_digits (10 * acc + d) r
      | None => (acc, s)
      end
  | EmptyString => (acc, s)
  end.

Definition ends_number (s : string) : bool :=
  match s with
  | String c _ =>
      negb (Ascii.eqb c "." || Ascii.eqb c "e" || Ascii.eqb c "E")
  | EmptyString => true
  end.

(** An optional minus sign, then [0] or a digit from 1 to 9 followed by any
    digits; nothing if a fraction or an exponent follows. *)
Definition number (s : string) : option (json * string) :=
  let (negative, body) :=
    match s with
    | String "-" r => (true, r)
    | _ => (false, s)
    end in
  match body with
  | String c r =>
      match digit_of c with
      | None => None
      | Some d =>
          let (z, rest) :=
            if d =? 0 then (0, r) else number_digits d r in
          if ends_number rest
          then Some (JInt (if negative then - z else z), rest)
          else None
      end
  | EmptyString => None
  end.

Fixpoint value (fuel : nat) (s : string) : option (json * string) :=
  match fuel with
  | O => None
  | S fuel' =>
      let s := skip_ws s in
      if startswith s "null" then Some (JNull, slice_from 4 s)
      else if startswith s "true" then Some (JBool true, slice_from 4 s)
      else if startswith s "false" then Some (JBool false, slice_from 5 s)
      else
        match s with
        | String c r =>
            if Ascii.eqb c quote then
              match string_body EmptyString r with
              | Some (text, rest) => Some (JStr text, rest)
              | None => None
              end
            else if Ascii.eqb c "[" then
              match skip_ws r with
              | String "]" rest => Some (JList [], rest)
              | r' =>
                  match elements fuel' [] r' with
                  | Some (items, rest) => Some (JList items, rest)
                  | None => None
                  end
              end
            else if Ascii.eqb c "{" then
              match skip_ws r with
              | String "}" rest => Some (JDict [], rest)
              | r' =>
                  match members fuel' [] r' with
                  | Some (fields, rest) => Some (JDict fields, rest)
                  | None => None
                  end
              end
            else number s
        | EmptyString => None
        end
  end
with elements (fuel : nat) (acc : list json) (s : string)
  : option (list json * string) :=
  match fuel with
  | O => None
  | S fuel' =>
      match value fuel' s with
      | None => None
      | Some (v, rest) =>
          match skip_ws rest with
          | String "," rest' => elements fuel' (acc ++ [v]) rest'
          | String "]" rest' => Some (acc ++ [v], rest')
          | _ => None
          end
      end
  end
with members (fuel : nat) (acc : list (pykey * json)) (s : string)
  : option (list (pykey * json) * string) :=
  match fuel with
  | O => None
  | S fuel' =>
      match skip_ws s with
      | String c r =>
          if negb (Ascii.eqb c quote) then None else
          match string_body EmptyString r with
          | None => None
          | Some (name, rest) =>
              match skip_ws rest with
              | String ":" rest' =>
                  match value fuel' rest' with
                  | None => None
                  | Some (v, rest'') =>
                      let acc' := dict_set (KStr name) v acc in
                      match skip_ws rest'' with
                      | String "," more => members fuel' acc' more
                      | String "}" more => Some (acc', more)
                      | _ => None
                      end
                  end
              | _ => None
              end
          end
      | EmptyString => None
      end
  end.

Definition loads_ascii (s : string) : option json :=
  match value (2 * String.length s + 2) s with
  | Some (v, rest) =>
      match skip_ws rest with
      | EmptyString => Some v
      | _ => None
      end
  | None => None
  end.

(** A host on which [nmcli] connects and no network is up yet: the
    commands that ask for the state of the network print nothing. *)
#[export] Instance host : Platform := {|
  json_loads := loads_ascii;
  int_str := int_ascii;
  nmcli_connect := fun _ _ => true;
  capture := fun _ => Return EmptyString
|}.

(** The service after start-up on the default settings, with the
    [running = True] of [main]. *)
Definition started : NeoService :=
  with_running true (fresh default_settings (Holds default_settings)).

Definition logged_in (s : NeoService) : NeoService := with_is_auth true s.


(* ================================================================== *)
(** ** Vocabulary of the statements *)

(** The settings hold integers [mn] and [mx] for the two angles. *)
Definition configured `{Platform} (s : NeoService) (mn mx : Z) : Prop :=
  int_lookup (settings s) "minAngle" = Return mn /\
  int_lookup (settings s) "maxAngle" = Return mx.

(** The servo call [set_servo_angle a] makes when [a] is in range. *)
Definition pulse_for (mn mx a : Z) : list event :=
  if (mn <=? a) && (a <=? mx)
  then [set_servo_pulsewidth SERVO_PIN (500 + ((180 - a) * 2000 / 180))]
  else [].

(** What [send_notification data] sends. *)
Definition sent (subscribed : bool) (data : json) : list event :=
  if subscribed then [PropertiesChanged data] else [].

(** The [Angle] notification followed by the [Opened] notification. *)
Definition reports (subscribed : bool) (a : Z) (o : bool) : list event :=
  sent subscribed (JDict [(KStr "Angle", JInt a)]) ++
  sent subscribed (JDict [(KStr "Opened", JBool o)]).

(** The service with [angle] set to [a] and [opened] recomputed. *)
Definition moved (mn mx a : Z) (s : NeoService) : NeoService :=
  with_opened ((mx >=? a) && (a >? mn)) (with_angle a s).


(** What [get_wifi_status] answers, and the commands it runs to find
    out. *)
Definition wifi_report `{Platform} (s : NeoService) : json :=
  match result_of (InformChrc.get_wifi_status s) with
  | Return wifi_status => wifi_status
  | Raise _ => JNull
  end.

Definition wifi_calls `{Platform} (s : NeoService) : list event :=
  trace_of (InformChrc.get_wifi_status s).

(** The two services agree on what the invariant reads. *)
Definition steady (s s' : NeoService) : Prop :=
  settings s' = settings s /\ angle s' = angle s /\ opened s' = opened s.

(** The outer [try] of [WriteChrc.WriteValue]. *)
Definition guarded (m : M unit) : M unit :=
  try_except m (fun e => raise (FailedException (Str e))).

(** The test [distance > 0 and distance < detectDistance] of the loop. *)
Definition detects (s : NeoService) (e : echo) : M bool :=
  if Qltb 0 (measure_distance s e)
  then dd <- setting "detectDistance" ;;
       lift (lt_json (measure_distance s e) dd)
  else ret false.

(** Its value: whether the reading triggers the lid, or the exception the
    comparison raises. *)
Definition detection (s : NeoService) (e : echo) : outcome bool :=
  if Qltb 0 (measure_distance s e)
  then
    match lookup_setting (settings s) "detectDistance" with
    | Return v => lt_json (measure_distance s e) v
    | Raise x => Raise x
    end
  else Return false.

(** The commands the write characteristic carries. *)
Inductive Command :=
| SetAngle (a : Z)
| Open
| Close
| ToggleStatus
| UpdateSettings (data_type data_key data_value : json)
| GetSettings
| GetWifiStatus
| WifiDisconnect
| WifiConnect (ssid password : string).

(** What the handler does for a command once the payload is taken apart. *)
Definition execute `{Platform} (c : Command) : M unit :=
  match c with
  | SetAngle a =>
      try_except
        (modify (with_angle a) ;; WriteChrc.move_and_report)
        (fun e =>
           if is_ValueError e then raise InvalidValueLengthException
           else raise e)
  | Open => WriteChrc.set_open
  | Close => WriteChrc.set_close
  | ToggleStatus => WriteChrc.set_status
  | UpdateSettings data_type data_key data_value =>
      try_except
        (result <- save_json data_type data_key data_value ;;
         if result
         then
           match as_key data_key with
           | Some k =>
               InformChrc.send_notification (JDict [(k, data_value)])
           | None => raise TypeError
           end
         else ret tt)
        (fun e =>
           match e with
           | JSONDecodeError | KeyError => raise InvalidValueLengthException
           | _ => raise e
           end)
  | GetSettings => WriteChrc.get_settings
  | GetWifiStatus => WriteChrc.get_wifi
  | WifiDisconnect => WriteChrc.disconnect_from_wifi
  | WifiConnect ssid password =>
      run_process ["sudo"; "nmcli"; "device"; "wifi"; "connect";
                   ssid; "password"; password] ;;
      wifi_status <- InformChrc.get_wifi_status ;;
      InformChrc.send_notification
        (JDict [(KStr "WiFiConnectionData", wifi_status)])
  end.

(** The keywords that name a command without arguments. *)
Definition keywords : list (string * Command) :=
  [("OPEN", Open); ("CLOSE", Close); ("STATUS", ToggleStatus);
   ("GET_SETTINGS", GetSettings); ("WIFI_DISCONNECT", WifiDisconnect);
   ("GET_WIFI", GetWifiStatus)].

(** The keys of [WriteChrc.command_handler]. *)
Definition table_keys : list string :=
  ["OPEN"; "CLOSE"; "STATUS"; "SETTINGS"; "GET_SETTINGS"; "WIFI_DISCONNECT";
   "GET_WIFI"].

(** [a] is one of the two end positions. *)
Definition at_limit (mn mx a : Z) : Prop := a = mn \/ a = mx.

(** The instructions of [set_open] and [set_close] calls, one call after
    the other; each target is an end position. *)
Definition calls (targets : list Z) : thread :=
  begins (List.concat (map moves_to targets)).

(** The attributes the two threads share, as a service holds them. *)
Definition view (s : NeoService) : shared :=
  {| sh_angle := angle s; sh_opened := opened s; sh_trace := [] |}.

Definition memory (r : thread * thread * shared) : shared := snd r.

(** The sensor loop runs [set_open] up to the point where it has read
    [angle] for the comparison, the write handler then runs a whole
    [set_close], and the sensor loop finishes. *)
Definition overtaking : list bool :=
  repeat false 4 ++ repeat true 9 ++ repeat false 5.

Definition well_formed (text : string) : Prop :=
  utf8_scan 0 128 191 text = true.

(** A client authenticates, subscribes, then sends a wrong password. *)
Definition revoked : NeoService :=
  state_of (AuthChrc.WriteValue "letmein"
    (state_of (InformChrc.StartNotify
      (state_of (AuthChrc.WriteValue "NeoBin" started))))).



(** The device switched off by an authenticated [STATUS]. *)
Definition switched_off : NeoService :=
  state_of (WriteChrc.WriteValue "STATUS" (logged_in started)).

(* ================================================================== *)
(** ** The settings files at start-up *)

(** [settings.json] and [default.json]. *)
Record disk := {
  settings_file : file;
  default_file : file
}.

(** [NeoService.return_default]: the content of [default.json]; when the
    file is missing it is created with the built-in defaults, which are
    returned. *)
Definition return_default (d : disk) : outcome json * disk :=
  match default_file d with
  | Holds content => (Return content, d)
  | Corrupt => (Raise JSONDecodeError, d)
  | NotText => (Raise UnicodeDecodeError, d)
  | Missing =>
      (Return default_settings,
       {| settings_file := settings_file d;
          default_file := Holds (reload default_settings) |})
  end.

(** [NeoService.read_json].  When [settings.json] is missing it is opened
    for writing, which leaves it empty until [json.dump] has run;
    [return_default] is called once for the dump and once more for the
    value returned. *)
Definition read_json (d : disk) : outcome json * disk :=
  match settings_file d with
  | Holds content => (Return content, d)
  | Corrupt => (Raise JSONDecodeError, d)
  | NotText => (Raise UnicodeDecodeError, d)
  | Missing =>
      match return_default {| settings_file := Corrupt;
                              default_file := default_file d |} with
      | (Raise e, d') => (Raise e, d')
      | (Return v, d') =>
          return_default {| settings_file := Holds (reload v);
                            default_file := default_file d' |}
      end
  end.

(** The exception [json.load] raises on a file that is there, if any. *)
Definition decode_error (f : file) : option exn :=
  match f with
  | Corrupt => Some JSONDecodeError
  | NotText => Some UnicodeDecodeError
  | Missing | Holds _ => None
  end.

(** What [read_json] answers. *)
Definition result_of_read (r : outcome json * disk) : outcome json := fst r.

(* ================================================================== *)
(** ** The GATT object tree ([BluetoothManager.py]) *)

Module BluetoothManager.

Definition GATT_SERVICE_IFACE : string := "org.bluez.GattService1".
Definition GATT_CHRC_IFACE : string := "org.bluez.GattCharacteristic1".
Definition GATT_DESC_IFACE : string := "org.bluez.GattDescriptor1".

(** [str(index)] *)
Definition str (index : Z) : string :=
  DecimalString.NilZero.string_of_int (Z.to_int index).

(** The attributes of the three kinds of object.  [path] is assigned in
    the constructors only, so the path a descriptor reads through
    [self.chrc], and a characteristic through [self.service], is the one
    its constructor saw; it is kept in [chrc] and [service]. *)
Record Descriptor := {
  desc_path : string;
  desc_uuid : string;
  desc_flags : list string;
  chrc : string
}.

Record Characteristic := {
  chrc_path : string;
  chrc_uuid : string;
  chrc_flags : list string;
  service : string;
  descriptors : list Descriptor
}.

Record Service := {
  path : string;
  uuid : string;
  primary : bool;
  characteristics : list Characteristic
}.

Record Application := {
  services : list Service
}.

Module Descriptor.

(** [Descriptor.__init__] *)
Definition new (index : Z) (uuid : string) (flags : list string)
           (characteristic : Characteristic) : Descriptor :=
  {| desc_path := chrc_path characteristic ++ "/desc" ++ str index;
     desc_uuid := uuid;
     desc_flags := flags;
     chrc := chrc_path characteristic |}.

Definition get_path (d : Descriptor) : string := desc_path d.

Definition get_properties (d : Descriptor) : json :=
  JDict [(KStr GATT_DESC_IFACE,
          JDict [(KStr "Characteristic", JStr (chrc d));
                 (KStr "UUID", JStr (desc_uuid d));
                 (KStr "Flags", JList (map JStr (desc_flags d)))])].

End Descriptor.

Module Characteristic.

(** [Characteristic.__init__] *)
Definition new (index : Z) (uuid : string) (flags : list string)
           (s : Service) : Characteristic :=
  {| chrc_path := path s ++ "/char" ++ str index;
     chrc_uuid := uuid;
     chrc_flags := flags;
     service := path s;
     descriptors := [] |}.

Definition get_path (c : Characteristic) : string := chrc_path c.

Definition add_descriptor (descriptor : Descriptor) (c : Characteristic)
  : Characteristic :=
  {| chrc_path := chrc_path c; chrc_uuid := chrc_uuid c;
     chrc_flags := chrc_flags c; service := service c;
     descriptors := descriptors c ++ [descriptor] |}.

Definition get_descriptor_paths (c : Characteristic) : list string :=
  fold_left (fun result desc => result ++ [Descriptor.get_path desc])
            (descriptors c) [].

Definition get_descriptors (c : Characteristic) : list Descriptor :=
  descriptors c.

Definition get_properties (c : Characteristic) : json :=
  JDict [(KStr GATT_CHRC_IFACE,
          JDict [(KStr "Service", JStr (service c));
                 (KStr "UUID", JStr (chrc_uuid c));
                 (KStr "Flags", JList (map JStr (chrc_flags c)));
                 (KStr "Descriptors",
                  JList (map JStr (get_descriptor_paths c)))])].

End Characteristic.

Module Service.

Definition PATH_BASE : string := "/com/example/neobin".

(** [Service.__init__] *)
Definition new (index : Z) (uuid : string) (primary : bool) : Service :=
  {| path := PATH_BASE ++ str index;
     uuid := uuid;
     primary := primary;
     characteristics := [] |}.

Definition get_path (s : Service) : string := path s.

Definition add_characteristic (characteristic : Characteristic) (s : Service)
  : Service :=
  {| path := path s; uuid := uuid s; primary := primary s;
     characteristics := characteristics s ++ [characteristic] |}.

Definition get_characteristic_paths (s : Service) : list string :=
  fold_left (fun result chrc => result ++ [Characteristic.get_path chrc])
            (characteristics s) [].

Definition get_characteristics (s : Service) : list Characteristic :=
  characteristics s.

Definition get_properties (s : Service) : json :=
  JDict [(KStr GATT_SERVICE_IFACE,
          JDict [(KStr "UUID", JStr (uuid s));
                 (KStr "Primary", JBool (primary s));
                 (KStr "Characteristics",
                  JList (map JStr (get_characteristic_paths s)))])].

End Service.

Module Application.

Definition add_service (s : Service) (app : Application) : Application :=
  {| services := services app ++ [s] |}.

(** [Application.__init__], for the service [service_class(bus, 0)]
    constructs. *)
Definition new (constructed : Service) : Application :=
  add_service constructed {| services := [] |}.

(** [Application.GetManagedObjects]: the reply, a dictionary from object
    paths to properties. *)
Definition GetManagedObjects (app : Application) : list (pykey * json) :=
  fold_left
    (fun response s =>
       let response :=
         dict_set (KStr (Service.get_path s)) (Service.get_properties s)
                  response in
       fold_left
         (fun response c =>
            let response :=
              dict_set (KStr (Characteristic.get_path c))
                       (Characteristic.get_properties c) response in
            fold_left
              (fun response desc =>
                 dict_set (KStr (Descriptor.get_path desc))
                          (Descriptor.get_properties desc) response)
              (Characteristic.get_descriptors c) response)
         (Service.get_characteristics s) response)
    (services app) [].

End Application.

End BluetoothManager.

(** The part of [NeoService.__init__] that builds the tree: the service
    with index [index] and its three characteristics. *)
Definition neo_tree (index : Z) : BluetoothManager.Service :=
  let s := BluetoothManager.Service.new
             index "0000180d-0000-1000-8000-00805f9b34fb" true in
  let s := BluetoothManager.Service.add_characteristic
             (BluetoothManager.Characteristic.new
                0 "00002a37-0000-1000-8000-00805f9b34fb" ["write"] s) s in
  let s := BluetoothManager.Service.add_characteristic
             (BluetoothManager.Characteristic.new
                1 "00002a38-0000-1000-8000-00805f9b34fb" ["write"] s) s in
  BluetoothManager.Service.add_characteristic
    (BluetoothManager.Characteristic.new
       2 "00002a39-0000-1000-8000-00805f9b34fb" ["notify"; "read"] s) s.

(* ================================================================== *)
(** ** Vocabulary of the further properties *)

(** The pulse width [set_servo_angle] computes for an angle. *)
Definition pulse_width (a : Z) : Z := 500 + ((180 - a) * 2000 / 180).

Definition is_signal (e : event) : bool :=
  match e with
  | PropertiesChanged _ => true
  | _ => false
  end.

Definition is_pulse (e : event) : bool :=
  match e with
  | set_servo_pulsewidth _ _ => true
  | _ => false
  end.

(** A servo call, if it is one, is on the servo pin with a width from 500
    to 2500, the widths a servo is driven with. *)
Definition in_servo_range (e : event) : Prop :=
  match e with
  | set_servo_pulsewidth pin w => pin = SERVO_PIN /\ 500 <= w <= 2500
  | _ => True
  end.

(** Started where [I] holds, the computation ends (normally or by an
    exception) where [I] holds, and every call it makes satisfies [T]. *)
Definition keeps {A} (I : NeoService -> Prop) (T : event -> Prop) (m : M A)
  : Prop :=
  forall s, I s -> I (state_of (m s)) /\ Forall T (trace_of (m s)).

(** What the proximity loop never touches. *)
Definition session (a st n : bool) (cfg : json) (f : file) (s : NeoService)
  : Prop :=
  is_auth s = a /\ status s = st /\ notifying s = n /\
  settings s = cfg /\ settings_json s = f.

(** What a write to the command characteristic never touches. *)
Definition connection (a n r : bool) (s : NeoService) : Prop :=
  is_auth s = a /\ notifying s = n /\ running s = r.

(** The stored settings and their cached copy. *)
Definition stored (cfg : json) (f : file) (s : NeoService) : Prop :=
  settings s = cfg /\ settings_json s = f.

(** The character [c] does not occur in [s]. *)
Fixpoint lacks (c : ascii) (s : string) : bool :=
  match s with
  | EmptyString => true
  | String c' r => negb (Ascii.eqb c' c) && lacks c r
  end.

(** What a key hashes and compares by: two keys name the same slot of a
    [dict] exactly when they agree on it. *)
Definition key_class (k : pykey) : option (string + Z) :=
  match k with
  | KStr s => Some (inl s)
  | KInt z => Some (inr z)
  | KBool b => Some (inr (Z.b2z b))
  | KNone => None
  end.

(** No key of the dictionary names the slot of [k]. *)
Fixpoint absent (k : pykey) (d : list (pykey * json)) : bool :=
  match d with
  | [] => true
  | (k', _) :: rest => negb (key_eqb k k') && absent k rest
  end.

(** No two keys of the dictionary name the same slot. *)
Fixpoint distinct (d : list (pykey * json)) : bool :=
  match d with
  | [] => true
  | (k, _) :: rest => absent k rest && distinct rest
  end.

Definition is_text (k : pykey) : bool :=
  match k with
  | KStr _ => true
  | _ => false
  end.

(** A document as [json.load] returns it: every key is text and no
    dictionary has two keys with the same text. *)
Fixpoint plain (j : json) : bool :=
  match j with
  | JList l => forallb plain l
  | JDict d =>
      forallb (fun kv : pykey * json => let (k, v) := kv in
                                        is_text k && plain v) d
      && distinct d
  | _ => true
  end.

(** The service [s'] differs from [s] at most in [angle] and [opened]. *)
Definition apart_from_lid (s s' : NeoService) : Prop :=
  forall a o, with_opened o (with_angle a s') = with_opened o (with_angle a s).

(** What a client can ask of the command and the inform characteristic. *)
Inductive request :=
| Write (value : string)
| Read (options : json)
| Subscribe
| Unsubscribe.

(** One request served: the service afterwards and the calls made.  An
    exception goes back to the client as the D-Bus error reply. *)
Definition serve `{Platform} (r : request) (s : NeoService)
  : NeoService * list event :=
  match r with
  | Write value =>
      (state_of (WriteChrc.WriteValue value s),
       trace_of (WriteChrc.WriteValue value s))
  | Read options =>
      (state_of (InformChrc.ReadValue options s),
       trace_of (InformChrc.ReadValue options s))
  | Subscribe =>
      (state_of (InformChrc.StartNotify s), trace_of (InformChrc.StartNotify s))
  | Unsubscribe =>
      (state_of (InformChrc.StopNotify s), trace_of (InformChrc.StopNotify s))
  end.

(** The requests served one after the other. *)
Fixpoint serve_all `{Platform} (requests : list request) (s : NeoService)
  : NeoService * list event :=
  match requests with
  | [] => (s, [])
  | r :: rest =>
      let (s1, t1) := serve r s in
      let (s2, t2) := serve_all rest s1 in
      (s2, t1 ++ t2)
  end.

(** The objects [GetManagedObjects] visits, in the order it visits them,
    each with its path and its properties. *)
Definition chrc_objects (c : BluetoothManager.Characteristic)
  : list (string * json) :=
  (BluetoothManager.Characteristic.get_path c,
   BluetoothManager.Characteristic.get_properties c) ::
  map (fun d => (BluetoothManager.Descriptor.get_path d,
                 BluetoothManager.Descriptor.get_properties d))
      (BluetoothManager.descriptors c).

Definition service_objects (s : BluetoothManager.Service)
  : list (string * json) :=
  (BluetoothManager.Service.get_path s,
   BluetoothManager.Service.get_properties s) ::
  flat_map chrc_objects (BluetoothManager.characteristics s).

Definition objects (app : BluetoothManager.Application)
  : list (string * json) :=
  flat_map service_objects (BluetoothManager.services app).

(** The paths a dictionary of properties lists under [name] of the
    interface [iface]; none when it has no such array. *)
Definition listed (iface name : string) (properties : json) : list json :=
  match getitem properties (JStr iface) with
  | Return members =>
      match getitem members (JStr name) with
      | Return (JList paths) => paths
      | _ => []
      end
  | Raise _ => []
  end.

(** [self.add_characteristic(C(bus, index, self))] for one class after the
    other, as [NeoService.__init__] does for its three; a class is given by
    the index, the UUID and the flags it hands to
    [Characteristic.__init__]. *)
Definition populate (classes : list (Z * string * list string))
           (s : BluetoothManager.Service) : BluetoothManager.Service :=
  fold_left
    (fun s (spec : Z * string * list string) =>
       let '(index, uuid, flags) := spec in
       BluetoothManager.Service.add_characteristic
         (BluetoothManager.Characteristic.new index uuid flags s) s)
    classes s.

(* ================================================================== *)
(** * Properties *)

(** ** Running the building blocks *)

#[local] Arguments int_setting : simpl never.
#[local] Arguments setting : simpl never.
#[local] Arguments set_servo_angle : simpl never.
#[local] Arguments angle_is_open : simpl never.
#[local] Arguments save_json : simpl never.
#[local] Arguments InformChrc.send_notification : simpl never.
#[local] Arguments WriteChrc.move_and_report : simpl never.
#[local] Arguments WriteChrc.set_open : simpl never.
#[local] Arguments WriteChrc.set_close : simpl never.
#[local] Arguments WriteChrc.update_settings : simpl never.
#[local] Arguments WriteChrc.connect_to_wifi : simpl never.
#[local] Arguments InformChrc.get_wifi_status : simpl never.
#[local] Arguments run_process : simpl never.
#[local] Arguments run_capturing : simpl never.
#[local] Arguments WriteChrc.angle_command : simpl never.

Ltac run_monad :=
  unfold bind, ret, raise, get, modify, call, lift, try_except,
         not_authenticated, is_authenticated; cbn.

Lemma bind_get {B} (k : NeoService -> M B) (s : NeoService) :
  bind get k s = k s s.
Proof. unfold bind, get. destruct (k s s) as [[r s2] t2]. reflexivity. Qed.

Lemma bind_modify {B} (f : NeoService -> NeoService) (k : unit -> M B)
      (s : NeoService) :
  bind (modify f) k s = k tt (f s).
Proof. unfold bind, modify. destruct (k tt (f s)) as [[r s2] t2]. reflexivity. Qed.

Lemma bind_return {A B} (a : A) (k : A -> M B) (s : NeoService) :
  bind (lift (Return a)) k s = k a s.
Proof. unfold bind, lift. destruct (k a s) as [[r s2] t2]. reflexivity. Qed.

Lemma bind_raise {A B} (e : exn) (k : A -> M B) (s : NeoService) :
  bind (lift (Raise e)) k s = (Raise e, s, []).
Proof. reflexivity. Qed.

Lemma bind_ret {A B} (a : A) (k : A -> M B) (s : NeoService) :
  bind (ret a) k s = k a s.
Proof. unfold bind, ret. destruct (k a s) as [[r s2] t2]. reflexivity. Qed.

Lemma int_setting_run `{Platform} (name : string) (s : NeoService) :
  int_setting name s = (int_lookup (settings s) name, s, []).
Proof.
  unfold int_setting. run_monad.
  destruct (int_lookup (settings s) name); reflexivity.
Qed.

Lemma send_notification_run (data : json) (s : NeoService) :
  InformChrc.send_notification data s = (Return tt, s, sent (notifying s) data).
Proof.
  unfold InformChrc.send_notification, sent. run_monad.
  destruct (notifying s); reflexivity.
Qed.

Lemma with_notifying_same (s : NeoService) :
  with_notifying (notifying s) s = s.
Proof. destruct s; reflexivity. Qed.

(** ** What a computation keeps *)

Section Keeps.

Variable I : NeoService -> Prop.
Variable T : event -> Prop.

Lemma keeps_ret {A} (a : A) : keeps I T (ret a).
Proof. intros s Hs. split; [exact Hs | constructor]. Qed.

Lemma keeps_raise {A} (e : exn) : keeps I T (@raise A e).
Proof. intros s Hs. split; [exact Hs | constructor]. Qed.

Lemma keeps_lift {A} (o : outcome A) : keeps I T (lift o).
Proof. intros s Hs. split; [exact Hs | constructor]. Qed.

Lemma keeps_get : keeps I T get.
Proof. intros s Hs. split; [exact Hs | constructor]. Qed.

Lemma keeps_modify (f : NeoService -> NeoService) :
  (forall s, I s -> I (f s)) -> keeps I T (modify f).
Proof. intros Hf s Hs. split; [exact (Hf s Hs) | constructor]. Qed.

Lemma keeps_call (e : event) : T e -> keeps I T (call e).
Proof. intros He s Hs. split; [exact Hs | repeat constructor; exact He]. Qed.

Lemma keeps_bind {A B} (m : M A) (k : A -> M B) :
  keeps I T m -> (forall a, keeps I T (k a)) -> keeps I T (bind m k).
Proof.
  intros Hm Hk s Hs. unfold bind, state_of, trace_of.
  destruct (Hm s Hs) as [Hs1 Ht1]. unfold state_of, trace_of in Hs1, Ht1.
  destruct (m s) as [[[a | e] s1] t1]; cbn in *.
  - destruct (Hk a s1 Hs1) as [Hs2 Ht2]. unfold state_of, trace_of in Hs2, Ht2.
    destruct (k a s1) as [[r s2] t2]; cbn in *.
    split; [exact Hs2 | apply Forall_app; split; assumption].
  - split; assumption.
Qed.

Lemma keeps_try_except {A} (m : M A) (h : exn -> M A) :
  keeps I T m -> (forall e, keeps I T (h e)) -> keeps I T (try_except m h).
Proof.
  intros Hm Hh s Hs. unfold try_except, state_of, trace_of.
  destruct (Hm s Hs) as [Hs1 Ht1]. unfold state_of, trace_of in Hs1, Ht1.
  destruct (m s) as [[[a | e] s1] t1]; cbn in *.
  - split; assumption.
  - destruct (Hh e s1 Hs1) as [Hs2 Ht2]. unfold state_of, trace_of in Hs2, Ht2.
    destruct (h e s1) as [[r s2] t2]; cbn in *.
    split; [exact Hs2 | apply Forall_app; split; assumption].
Qed.

Lemma keeps_int_setting `{Platform} (name : string) :
  keeps I T (int_setting name).
Proof.
  unfold int_setting. apply keeps_bind; [apply keeps_get |].
  intros s. apply keeps_lift.
Qed.

Lemma keeps_setting (name : string) : keeps I T (setting name).
Proof.
  unfold setting. apply keeps_bind; [apply keeps_get |].
  intros s. apply keeps_lift.
Qed.

End Keeps.

(** Takes a computation apart along a bind, a handler or a branch. *)
Ltac keeps_step :=
  first
    [ apply keeps_ret | apply keeps_raise | apply keeps_lift
    | apply keeps_get | apply keeps_int_setting | apply keeps_setting
    | apply keeps_bind; [| intros ?]
    | apply keeps_try_except; [| intros ?]
    | match goal with
      | |- keeps _ _ (if ?b then _ else _) => destruct b
      | |- keeps _ _ (match ?x with _ => _ end) => destruct x
      end ].

Ltac keeps_leaf :=
  first
    [ apply keeps_modify; solve [auto]
    | apply keeps_call; solve [auto] ].

(** ** The state of the network *)

Lemma keeps_run_process (I : NeoService -> Prop) (T : event -> Prop)
      (argv : list string) :
  (forall argv, T (subprocess_run argv)) -> keeps I T (run_process argv).
Proof.
  intros HT. unfold run_process.
  repeat first [keeps_leaf | keeps_step].
Qed.

Lemma keeps_run_capturing `{Platform} (I : NeoService -> Prop)
      (T : event -> Prop) (argv : list string) :
  (forall argv, T (subprocess_run argv)) -> keeps I T (run_capturing argv).
Proof.
  intros HT. unfold run_capturing.
  apply keeps_bind; [apply keeps_run_process; exact HT |].
  intros _. apply keeps_lift.
Qed.

Lemma keeps_get_wifi_status `{Platform} (I : NeoService -> Prop)
      (T : event -> Prop) :
  (forall argv, T (subprocess_run argv)) ->
  keeps I T InformChrc.get_wifi_status.
Proof.
  intros HT. unfold InformChrc.get_wifi_status.
  repeat first [apply keeps_run_capturing; exact HT | keeps_step].
Qed.

(** [get_wifi_status] never raises and never writes an attribute. *)
Lemma get_wifi_status_run `{Platform} (s : NeoService) :
  InformChrc.get_wifi_status s = (Return (wifi_report s), s, wifi_calls s).
Proof.
  destruct (keeps_get_wifi_status (fun s' => s' = s) (fun _ => True)
              (fun _ => I) s eq_refl) as [Hstate _].
  assert (Hreturns : exists v,
             result_of (InformChrc.get_wifi_status s) = Return v).
  { unfold InformChrc.get_wifi_status, try_except, result_of.
    match goal with
    | |- context [match ?body s with _ => _ end] =>
        destruct (body s) as [[[v | x] s1] t1]
    end; eexists; reflexivity. }
  destruct Hreturns as [v Hv].
  unfold wifi_report, wifi_calls. rewrite Hv.
  destruct (InformChrc.get_wifi_status s) as [[r s'] t].
  cbn in *. subst. reflexivity.
Qed.

Lemma run_process_clean (argv : list string) (s : NeoService) :
  existsb has_nul argv = false ->
  run_process argv s = (Return tt, s, [subprocess_run argv]).
Proof. intros Hclean. unfold run_process. rewrite Hclean. reflexivity. Qed.

Lemma run_process_nul (argv : list string) (s : NeoService) :
  existsb has_nul argv = true ->
  run_process argv s = (Raise ValueError, s, []).
Proof. intros Hnul. unfold run_process. rewrite Hnul. reflexivity. Qed.

Lemma report_wifi_run `{Platform} (s : NeoService) :
  (wifi_status <- InformChrc.get_wifi_status ;;
   InformChrc.send_notification
     (JDict [(KStr "WiFiConnectionData", wifi_status)])) s =
    (Return tt, s,
     wifi_calls s ++
     sent (notifying s) (JDict [(KStr "WiFiConnectionData", wifi_report s)])).
Proof.
  unfold bind. rewrite get_wifi_status_run, send_notification_run.
  reflexivity.
Qed.

(** ** Authentication *)

(** C7.  Whatever the flag was, [AuthChrc.WriteValue] with the credential
    bytes returns and leaves [is_auth] set; with any other bytes it raises
    [FailedException("Authentication Failed")] and leaves [is_auth] cleared,
    so a failed attempt ends an authenticated session.  Nothing else
    changes and nothing is sent. *)
Theorem authenticate_sets_flag (s : NeoService) (value : string) :
  (value = AuthChrc.PASS ->
     AuthChrc.WriteValue value s = (Return tt, with_is_auth true s, [])) /\
  (value <> AuthChrc.PASS ->
     AuthChrc.WriteValue value s =
       (Raise (FailedException (Text "Authentication Failed")),
        with_is_auth false s, [])).
Proof.
  unfold AuthChrc.WriteValue. split; intros Hv.
  - subst value. rewrite String.eqb_refl. reflexivity.
  - apply String.eqb_neq in Hv. rewrite Hv. reflexivity.
Qed.

Lemma authenticate_sets_flag_witness :
  is_auth (state_of (AuthChrc.WriteValue "NeoBin" started)) = true /\
  is_auth (state_of (AuthChrc.WriteValue "neobin" (logged_in started))) = false.
Proof.
  split.
  - rewrite (proj1 (authenticate_sets_flag started "NeoBin")); reflexivity.
  - rewrite (proj2 (authenticate_sets_flag (logged_in started) "neobin"));
      [reflexivity | discriminate].
Defined.

(** ** Reads *)




(** ** Moving the lid *)

Lemma configured_settings `{Platform} (s s' : NeoService) (mn mx : Z) :
  settings s' = settings s -> configured s mn mx -> configured s' mn mx.
Proof. unfold configured. intros ->. trivial. Qed.

Lemma set_servo_angle_on `{Platform} (s : NeoService) (mn mx a : Z) :
  status s = true -> configured s mn mx ->
  set_servo_angle a s = (Return tt, s, pulse_for mn mx a).
Proof.
  intros Hon [Hmn Hmx].
  unfold set_servo_angle, pulse_for. run_monad. rewrite Hon. cbn.
  rewrite !int_setting_run, Hmn. cbn.
  destruct (mn <=? a); cbn.
  - rewrite int_setting_run, Hmx. cbn. destruct (a <=? mx); reflexivity.
  - reflexivity.
Qed.

Lemma set_servo_angle_off `{Platform} (s : NeoService) (a : Z) :
  status s = false ->
  set_servo_angle a s =
    (Raise (FailedException (Text "NeoBin is not on")), s, []).
Proof.
  intros Hoff. unfold set_servo_angle. run_monad. rewrite Hoff. reflexivity.
Qed.

Lemma angle_is_open_run `{Platform} (s : NeoService) (mn mx : Z) :
  configured s mn mx ->
  angle_is_open s = (Return ((mx >=? angle s) && (angle s >? mn)), s, []).
Proof.
  intros [Hmn Hmx]. unfold angle_is_open. run_monad.
  rewrite int_setting_run, Hmx. cbn.
  destruct (mx >=? angle s); cbn; [| reflexivity].
  rewrite int_setting_run, Hmn. reflexivity.
Qed.

Lemma move_and_report_on `{Platform} (s : NeoService) (mn mx : Z) :
  status s = true -> configured s mn mx ->
  WriteChrc.move_and_report s =
    (Return tt,
     with_opened ((mx >=? angle s) && (angle s >? mn)) s,
     pulse_for mn mx (angle s) ++
     reports (notifying s) (angle s) ((mx >=? angle s) && (angle s >? mn))).
Proof.
  intros Hon Hc.
  unfold WriteChrc.move_and_report.
  unfold bind at 1. unfold get at 1.
  unfold bind at 1. rewrite (set_servo_angle_on s mn mx _ Hon Hc).
  unfold bind at 1. rewrite (angle_is_open_run s mn mx Hc).
  run_monad. rewrite !send_notification_run. cbn.
  reflexivity.
Qed.

Lemma move_and_report_off `{Platform} (s : NeoService) :
  status s = false ->
  WriteChrc.move_and_report s =
    (Raise (FailedException (Text "NeoBin is not on")), s, []).
Proof.
  intros Hoff. unfold WriteChrc.move_and_report.
  unfold bind at 1. unfold get at 1.
  unfold bind at 1. rewrite (set_servo_angle_off s _ Hoff). reflexivity.
Qed.

Lemma set_open_on `{Platform} (s : NeoService) (mn mx : Z) :
  status s = true -> configured s mn mx ->
  WriteChrc.set_open s =
    (Return tt, moved mn mx mx s,
     pulse_for mn mx mx ++
     reports (notifying s) mx ((mx >=? mx) && (mx >? mn))).
Proof.
  intros Hon Hc. unfold WriteChrc.set_open.
  unfold bind at 1. rewrite int_setting_run, (proj2 Hc).
  unfold bind at 1. unfold modify at 1.
  rewrite (move_and_report_on (with_angle mx s) mn mx Hon
             (configured_settings s _ mn mx eq_refl Hc)).
  reflexivity.
Qed.

Lemma set_close_on `{Platform} (s : NeoService) (mn mx : Z) :
  status s = true -> configured s mn mx ->
  WriteChrc.set_close s =
    (Return tt, moved mn mx mn s,
     pulse_for mn mx mn ++
     reports (notifying s) mn ((mx >=? mn) && (mn >? mn))).
Proof.
  intros Hon Hc. unfold WriteChrc.set_close.
  unfold bind at 1. rewrite int_setting_run, (proj1 Hc).
  unfold bind at 1. unfold modify at 1.
  rewrite (move_and_report_on (with_angle mn s) mn mx Hon
             (configured_settings s _ mn mx eq_refl Hc)).
  reflexivity.
Qed.

(** ** SetAngle *)

Lemma write_value_authenticated `{Platform} (s : NeoService) (value : string) :
  is_auth s = true -> well_formed value ->
  WriteChrc.WriteValue value s =
    guarded
      (if startswith value "ANGLE:" then WriteChrc.angle_command value
       else if startswith value "CONNECT:"
            then WriteChrc.connect_to_wifi (slice_from 8 value)
       else if startswith value "SETTINGS:"
            then WriteChrc.update_settings (slice_from 9 value)
       else
         match lookup value WriteChrc.command_handler with
         | Some h => WriteChrc.invoke h
         | None => raise (FailedException (Text "Invalid command"))
         end) s.
Proof.
  intros Hauth Hwf. unfold WriteChrc.WriteValue.
  rewrite bind_get. unfold is_authenticated. rewrite Hauth. cbn [negb].
  unfold guarded, try_except, decode. rewrite Hwf, bind_return.
  reflexivity.
Qed.

Lemma angle_command_on `{Platform} (s : NeoService) (mn mx a : Z)
      (command : string) :
  status s = true -> configured s mn mx ->
  int_str (slice_from 6 command) = Some a ->
  WriteChrc.angle_command command s =
    (Return tt, moved mn mx a s,
     pulse_for mn mx a ++
     reports (notifying s) a ((mx >=? a) && (a >? mn))).
Proof.
  intros Hon Hc Hint. unfold WriteChrc.angle_command, try_except.
  rewrite Hint, bind_return, bind_modify.
  rewrite (move_and_report_on (with_angle a s) mn mx Hon
             (configured_settings s _ mn mx eq_refl Hc)).
  reflexivity.
Qed.

Lemma angle_command_off `{Platform} (s : NeoService) (a : Z)
      (command : string) :
  status s = false -> int_str (slice_from 6 command) = Some a ->
  WriteChrc.angle_command command s =
    (Raise (FailedException (Text "NeoBin is not on")), with_angle a s, []).
Proof.
  intros Hoff Hint. unfold WriteChrc.angle_command, try_except.
  rewrite Hint, bind_return, bind_modify.
  rewrite (move_and_report_off (with_angle a s) Hoff). reflexivity.
Qed.

Lemma angle_command_malformed `{Platform} (s : NeoService)
      (command : string) :
  int_str (slice_from 6 command) = None ->
  WriteChrc.angle_command command s =
    (Raise InvalidValueLengthException, s, []).
Proof.
  intros Hint. unfold WriteChrc.angle_command, try_except.
  rewrite Hint, bind_raise. reflexivity.
Qed.

Lemma startswith_angle (text : string) :
  startswith ("ANGLE:" ++ text) "ANGLE:" = true.
Proof. destruct text; reflexivity. Qed.

Lemma well_formed_angle (text : string) :
  well_formed text -> well_formed ("ANGLE:" ++ text).
Proof. unfold well_formed. intros Hwf. cbn. exact Hwf. Qed.

(** C1, as the code has it.  For an authenticated service whose settings
    hold the integers [mn] and [mx], and [a] with [mn <= a <= mx] written
    as [ANGLE:<a>]: while the device is on the command returns, [angle] is
    [a], [opened] is recomputed as [mx >= a > mn], the servo is pulsed once
    and the [Angle] notification is followed by the [Opened] notification;
    while the device is off the command raises the refusal of
    [set_servo_angle], wrapped by the handler, after [angle] was assigned. *)
Theorem set_angle_in_range `{Platform} (s : NeoService) (mn mx a : Z)
        (text : string) :
  is_auth s = true -> configured s mn mx ->
  well_formed text -> int_str text = Some a ->
  mn <= a <= mx ->
  (status s = true ->
     WriteChrc.WriteValue ("ANGLE:" ++ text) s =
       (Return tt,
        with_opened ((mx >=? a) && (a >? mn)) (with_angle a s),
        [set_servo_pulsewidth SERVO_PIN (500 + ((180 - a) * 2000 / 180))] ++
        reports (notifying s) a ((mx >=? a) && (a >? mn)))) /\
  (status s = false ->
     WriteChrc.WriteValue ("ANGLE:" ++ text) s =
       (Raise (FailedException (Str (FailedException (Text "NeoBin is not on")))),
        with_angle a s, [])).
Proof.
  intros Hauth Hc Hwf Hint Hrange.
  rewrite (write_value_authenticated s _ Hauth (well_formed_angle text Hwf)).
  unfold guarded, try_except. rewrite startswith_angle.
  split; intros Hst.
  - rewrite (angle_command_on s mn mx a ("ANGLE:" ++ text) Hst Hc Hint).
    unfold pulse_for.
    replace ((mn <=? a) && (a <=? mx)) with true
      by (symmetry; apply andb_true_iff; split; apply Z.leb_le; lia).
    reflexivity.
  - rewrite (angle_command_off s a ("ANGLE:" ++ text) Hst Hint).
    reflexivity.
Qed.

Lemma set_angle_in_range_witness :
  WriteChrc.WriteValue "ANGLE:90" (with_notifying true (logged_in started)) =
    (Return tt,
     with_opened true (with_angle 90 (with_notifying true (logged_in started))),
     [set_servo_pulsewidth 18 1500;
      PropertiesChanged (JDict [(KStr "Angle", JInt 90)]);
      PropertiesChanged (JDict [(KStr "Opened", JBool true)])]).
Proof.
  refine (proj1 (@set_angle_in_range host
                   (with_notifying true (logged_in started)) 0 180 90 "90"
                   _ _ _ _ _) _);
    try reflexivity; [split; reflexivity | lia].
Defined.

(** C1 as stated fails twice.  On the default settings (angles 0 to 180)
    [ANGLE:500] returns normally, leaves [angle] at 500 and sends both
    notifications; and once the device is switched off, [ANGLE:90] raises
    although 90 is in range, with [angle] already 90. *)
Lemma set_angle_counterexample :
  configured (logged_in started) 0 180 /\
  WriteChrc.WriteValue "ANGLE:500" (with_notifying true (logged_in started)) =
    (Return tt,
     with_opened false (with_angle 500 (with_notifying true (logged_in started))),
     [PropertiesChanged (JDict [(KStr "Angle", JInt 500)]);
      PropertiesChanged (JDict [(KStr "Opened", JBool false)])]) /\
  is_auth switched_off = true /\
  configured switched_off 0 180 /\
  WriteChrc.WriteValue "ANGLE:90" switched_off =
    (Raise (FailedException (Str (FailedException (Text "NeoBin is not on")))),
     with_angle 90 switched_off, []).
Proof. repeat split. Qed.

(** ** The authentication gate *)

(** C2, as the code has it.  While [is_auth] is cleared, every write to
    the command characteristic and every read raises
    [FailedException("Not authenticated")] and leaves the service as it
    was, with no call made.  [StartNotify] raises the same exception only
    if the client is not yet subscribed: for a subscribed client it returns
    at once.  [StopNotify] has no gate and clears the subscription.  None
    of the four moves the servo or sends a notification. *)
Theorem unauthenticated_is_refused `{Platform} (s : NeoService) :
  is_auth s = false ->
  (forall value,
     WriteChrc.WriteValue value s =
       (Raise (FailedException (Text "Not authenticated")), s, [])) /\
  (forall options,
     InformChrc.ReadValue options s =
       (Raise (FailedException (Text "Not authenticated")), s, [])) /\
  InformChrc.StartNotify s =
    (if notifying s then Return tt
     else Raise (FailedException (Text "Not authenticated")), s, []) /\
  InformChrc.StopNotify s = (Return tt, with_notifying false s, []).
Proof.
  intros Hauth. repeat split.
  - intros value. unfold WriteChrc.WriteValue. rewrite bind_get.
    unfold is_authenticated. rewrite Hauth. reflexivity.
  - intros options. unfold InformChrc.ReadValue. rewrite bind_get.
    unfold is_authenticated. rewrite Hauth. reflexivity.
  - unfold InformChrc.StartNotify. rewrite bind_get.
    unfold is_authenticated. rewrite Hauth.
    destruct (notifying s); reflexivity.
  - unfold InformChrc.StopNotify. rewrite bind_get.
    destruct (notifying s) eqn:Hn; cbn.
    + reflexivity.
    + rewrite <- Hn, with_notifying_same. reflexivity.
Qed.

Lemma unauthenticated_is_refused_witness :
  WriteChrc.WriteValue "OPEN" started =
    (Raise (FailedException (Text "Not authenticated")), started, []) /\
  InformChrc.StartNotify started =
    (Raise (FailedException (Text "Not authenticated")), started, []).
Proof.
  destruct (@unauthenticated_is_refused host started eq_refl)
    as (Hwrite & _ & Hstart & _).
  split; [exact (Hwrite "OPEN") | exact Hstart].
Defined.

(** C2 as stated fails for the subscription calls.  After a client has
    authenticated, subscribed and then sent a wrong password, [is_auth] is
    cleared, yet [StartNotify] returns without an error, and [StopNotify]
    returns and changes the service. *)
Lemma unauthenticated_counterexample :
  is_auth revoked = false /\
  InformChrc.StartNotify revoked = (Return tt, revoked, []) /\
  InformChrc.StopNotify revoked = (Return tt, with_notifying false revoked, []) /\
  with_notifying false revoked <> revoked.
Proof. repeat split. discriminate. Qed.

(** ** UpdateSettings *)

Lemma save_json_stored `{Platform} (s : NeoService)
      (content data_type data_key data_value updated : json) :
  settings_json s = Holds content ->
  setitem2 content data_type data_key data_value = Return updated ->
  save_json data_type data_key data_value s =
    (Return true,
     with_settings updated (with_settings_json (Holds (reload updated)) s),
     []).
Proof.
  intros Hfile Hset. unfold save_json, try_except.
  rewrite bind_get, Hfile, bind_return, Hset, bind_return.
  rewrite !bind_modify. reflexivity.
Qed.

Lemma save_json_refused `{Platform} (s : NeoService)
      (content data_type data_key data_value : json) (e : exn) :
  settings_json s = Holds content ->
  setitem2 content data_type data_key data_value = Raise e ->
  save_json data_type data_key data_value s =
    (Raise (FailedException (Fmt "Couldn't save file: " e)), s, []).
Proof.
  intros Hfile Hset. unfold save_json, try_except.
  rewrite bind_get, Hfile, bind_return, Hset, bind_raise. reflexivity.
Qed.

Lemma startswith_settings (body : string) :
  startswith ("SETTINGS:" ++ body) "ANGLE:" = false /\
  startswith ("SETTINGS:" ++ body) "CONNECT:" = false /\
  startswith ("SETTINGS:" ++ body) "SETTINGS:" = true.
Proof. destruct body; repeat split. Qed.

Lemma write_settings `{Platform} (s : NeoService) (body : string) :
  is_auth s = true -> well_formed body ->
  WriteChrc.WriteValue ("SETTINGS:" ++ body) s =
    guarded (WriteChrc.update_settings body) s.
Proof.
  intros Hauth Hwf.
  rewrite (write_value_authenticated s _ Hauth) by exact Hwf.
  destruct (startswith_settings body) as (-> & -> & ->).
  reflexivity.
Qed.

(** C3, as the code has it.  [update_settings] has no list of accepted
    keys.  For an authenticated service, a payload [SETTINGS:<body>] whose
    body decodes to an object with text [type] and [key] and any [value],
    where [type] names a dictionary of the stored file, is accepted for
    every [key]: the file is rewritten, the cached settings are replaced by
    the updated content of the file, and one notification with that key and
    value is sent.  A body that does not decode, or that lacks [type],
    raises [InvalidValueLengthException] (wrapped by the handler) and
    leaves the service as it was. *)
Theorem update_settings_accepts_any_key `{Platform} (s : NeoService)
        (body tname kname : string) (d v : json)
        (top section : list (pykey * json)) :
  is_auth s = true -> well_formed body ->
  settings_json s = Holds (JDict top) ->
  dict_get (KStr tname) top = Some (JDict section) ->
  (json_loads body = Some d ->
   getitem d (JStr "type") = Return (JStr tname) ->
   getitem d (JStr "key") = Return (JStr kname) ->
   getitem d (JStr "value") = Return v ->
   WriteChrc.WriteValue ("SETTINGS:" ++ body) s =
     (Return tt,
      with_settings
        (JDict (dict_set (KStr tname)
                  (JDict (dict_set (KStr kname) v section)) top))
        (with_settings_json
           (Holds (reload
                     (JDict (dict_set (KStr tname)
                               (JDict (dict_set (KStr kname) v section)) top))))
           s),
      sent (notifying s) (JDict [(KStr kname, v)]))) /\
  (json_loads body = None \/
   (json_loads body = Some d /\ getitem d (JStr "type") = Raise KeyError) ->
   WriteChrc.WriteValue ("SETTINGS:" ++ body) s =
     (Raise (FailedException (Str InvalidValueLengthException)), s, [])).
Proof.
  intros Hauth Hwf Hfile Hsection.
  rewrite (write_settings s body Hauth Hwf).
  unfold guarded, WriteChrc.update_settings, try_except.
  split.
  - intros Hd Htype Hkey Hvalue.
    rewrite Hd, bind_return, Htype, bind_return, Hkey, bind_return,
            Hvalue, bind_return.
    unfold bind at 1.
    rewrite (save_json_stored s (JDict top) (JStr tname) (JStr kname) v
               (JDict (dict_set (KStr tname)
                         (JDict (dict_set (KStr kname) v section)) top))
               Hfile).
    + cbn [as_key]. rewrite send_notification_run. reflexivity.
    + unfold setitem2. cbn. rewrite Hsection. reflexivity.
  - intros [Hd | [Hd Htype]].
    + rewrite Hd, bind_raise. reflexivity.
    + rewrite Hd, bind_return, Htype, bind_raise. reflexivity.
Qed.

Lemma update_settings_accepts_any_key_witness :
  WriteChrc.WriteValue
    (wire "SETTINGS:{'type':'settings','key':'maxAngle','value':90}")
    (with_notifying true (logged_in started)) =
    (Return tt,
     with_settings
       (JDict [(KStr "settings",
                JDict [(KStr "minAngle", JInt 0); (KStr "maxAngle", JInt 90);
                       (KStr "detectDistance", JInt 20)])])
       (with_settings_json
          (Holds (JDict [(KStr "settings",
                          JDict [(KStr "minAngle", JInt 0);
                                 (KStr "maxAngle", JInt 90);
                                 (KStr "detectDistance", JInt 20)])]))
          (with_notifying true (logged_in started))),
     [PropertiesChanged (JDict [(KStr "maxAngle", JInt 90)])]).
Proof.
  refine (proj1 (@update_settings_accepts_any_key host
                   (with_notifying true (logged_in started))
                   (wire "{'type':'settings','key':'maxAngle','value':90}")
                   "settings" "maxAngle"
                   (JDict [(KStr "type", JStr "settings");
                           (KStr "key", JStr "maxAngle");
                           (KStr "value", JInt 90)])
                   (JInt 90)
                   [(KStr "settings",
                     JDict [(KStr "minAngle", JInt 0);
                            (KStr "maxAngle", JInt 180);
                            (KStr "detectDistance", JInt 20)])]
                   [(KStr "minAngle", JInt 0); (KStr "maxAngle", JInt 180);
                    (KStr "detectDistance", JInt 20)]
                   _ _ _ _) _ _ _ _);
    reflexivity.
Defined.

(** C3 as stated fails: the key [colour] is none of [minAngle], [maxAngle]
    and [detectDistance], yet the update returns normally, the cached
    settings and the file hold the new key, and its notification is sent. *)
Lemma update_settings_counterexample :
  WriteChrc.WriteValue
    (wire "SETTINGS:{'type':'settings','key':'colour','value':5}")
    (with_notifying true (logged_in started)) =
    (Return tt,
     with_settings
       (JDict [(KStr "settings",
                JDict [(KStr "minAngle", JInt 0); (KStr "maxAngle", JInt 180);
                       (KStr "detectDistance", JInt 20);
                       (KStr "colour", JInt 5)])])
       (with_settings_json
          (Holds (JDict [(KStr "settings",
                          JDict [(KStr "minAngle", JInt 0);
                                 (KStr "maxAngle", JInt 180);
                                 (KStr "detectDistance", JInt 20);
                                 (KStr "colour", JInt 5)])]))
          (with_notifying true (logged_in started))),
     [PropertiesChanged (JDict [(KStr "colour", JInt 5)])]).
Proof. vm_compute. reflexivity. Qed.

(** ** The invariant on [opened] *)

Lemma steady_refl (s : NeoService) : steady s s.
Proof. repeat split. Qed.










Lemma write_not_authenticated `{Platform} (s : NeoService) (value : string) :
  is_auth s = false ->
  WriteChrc.WriteValue value s =
    (Raise (FailedException (Text "Not authenticated")), s, []).
Proof.
  intros Hauth. unfold WriteChrc.WriteValue. rewrite bind_get.
  unfold is_authenticated. rewrite Hauth. reflexivity.
Qed.

Lemma write_undecodable `{Platform} (s : NeoService) (value : string) :
  is_auth s = true -> utf8_scan 0 128 191 value = false ->
  WriteChrc.WriteValue value s =
    (Raise (FailedException (Str UnicodeDecodeError)), s, []).
Proof.
  intros Hauth Hbad. unfold WriteChrc.WriteValue. rewrite bind_get.
  unfold is_authenticated. rewrite Hauth. cbn [negb].
  unfold try_except, decode. rewrite Hbad, bind_raise. reflexivity.
Qed.


(** ** The proximity loop *)

Lemma Qltb_lt (x y : Q) : Qltb x y = true <-> (x < y)%Q.
Proof.
  unfold Qltb. rewrite negb_true_iff. split.
  - intros Hb. apply Qnot_le_lt. intros Hle.
    apply Qle_bool_iff in Hle. congruence.
  - intros Hlt. destruct (Qle_bool y x) eqn:Hb; [| reflexivity].
    apply Qle_bool_iff in Hb. exfalso. exact (Qlt_not_le _ _ Hlt Hb).
Qed.

Lemma measure_distance_on (s : NeoService) (e : echo) :
  Qltb 0 (measure_distance s e) = true -> status s = true.
Proof.
  unfold measure_distance. destruct (status s); cbn; [trivial | discriminate].
Qed.

Lemma detects_run (s : NeoService) (e : echo) :
  detects s e s = (detection s e, s, []).
Proof.
  unfold detects, detection.
  destruct (Qltb 0 (measure_distance s e)); [| reflexivity].
  unfold setting, bind, get, lift.
  destruct (lookup_setting (settings s) "detectDistance") as [v | x];
    [| reflexivity].
  destruct (lt_json (measure_distance s e) v); reflexivity.
Qed.

Lemma detection_int (s : NeoService) (e : echo) (dd : Z) :
  lookup_setting (settings s) "detectDistance" = Return (JInt dd) ->
  detection s e =
    Return (Qltb 0 (measure_distance s e) &&
            Qltb (measure_distance s e) (inject_Z dd)).
Proof.
  intros Hdd. unfold detection. rewrite Hdd.
  destruct (Qltb 0 (measure_distance s e)); reflexivity.
Qed.

Lemma detection_on (s : NeoService) (e : echo) :
  detection s e = Return true -> status s = true.
Proof.
  unfold detection. intros Hyes. apply (measure_distance_on s e).
  destruct (Qltb 0 (measure_distance s e)); [reflexivity | discriminate].
Qed.

Lemma sensor_pass_quiet `{Platform} (s : NeoService) (e : echo) (stop : bool) :
  detection s e = Return false ->
  sensor_pass e stop s = (Return tt, s, []).
Proof.
  intros Hno. unfold sensor_pass, try_except.
  rewrite bind_get. cbv zeta. fold (detects s e).
  unfold bind at 1. rewrite (detects_run s e), Hno. reflexivity.
Qed.


Lemma sensor_pass_detected `{Platform} (s : NeoService) (e : echo)
      (stop : bool) (mn mx : Z) :
  configured s mn mx ->
  detection s e = Return true ->
  sensor_pass e stop s =
    (Return tt,
     (if negb stop && running s
      then moved mn mx mn (moved mn mx mx s)
      else if stop then with_running false (moved mn mx mx s)
           else moved mn mx mx s),
     (pulse_for mn mx mx ++
      reports (notifying s) mx ((mx >=? mx) && (mx >? mn))) ++
     [sleep 3000] ++
     (if negb stop && running s
      then pulse_for mn mx mn ++
           reports (notifying s) mn ((mx >=? mn) && (mn >? mn))
      else []) ++
     [sleep 500]).
Proof.
  intros Hc Hyes.
  assert (Hon : status s = true) by exact (detection_on s e Hyes).
  unfold sensor_pass, try_except.
  rewrite bind_get. cbv zeta. fold (detects s e).
  unfold bind at 1. rewrite (detects_run s e), Hyes.
  unfold bind at 1. rewrite (set_open_on s mn mx Hon Hc).
  unfold bind at 1. unfold call at 1.
  destruct stop.
  - rewrite bind_modify, bind_get. cbn [running with_running].
    rewrite bind_ret. reflexivity.
  - rewrite bind_ret, bind_get. cbn [negb andb].
    change (running (moved mn mx mx s)) with (running s).
    destruct (running s).
    + unfold bind at 1.
      rewrite (set_close_on (moved mn mx mx s) mn mx Hon
                 (configured_settings s _ mn mx eq_refl Hc)).
      reflexivity.
    + rewrite bind_ret. reflexivity.
Qed.








Lemma opened_at_max (mn mx : Z) : (mx >=? mx) && (mx >? mn) = (mx >? mn).
Proof. rewrite Z.geb_leb, Z.leb_refl. reflexivity. Qed.

Lemma opened_at_min (mn mx : Z) : (mx >=? mn) && (mn >? mn) = false.
Proof. rewrite Z.gtb_ltb, Z.ltb_irrefl. apply andb_false_r. Qed.

Lemma detection_triggers (s : NeoService) (e : echo) (dd : Z) :
  lookup_setting (settings s) "detectDistance" = Return (JInt dd) ->
  (0 < measure_distance s e)%Q ->
  (measure_distance s e < inject_Z dd)%Q ->
  detection s e = Return true.
Proof.
  intros Hdd Hpos Hnear. rewrite (detection_int s e dd Hdd).
  apply Qltb_lt in Hpos. apply Qltb_lt in Hnear.
  rewrite Hpos, Hnear. reflexivity.
Qed.

Lemma detection_passes (s : NeoService) (e : echo) (dd : Z) :
  lookup_setting (settings s) "detectDistance" = Return (JInt dd) ->
  (measure_distance s e == 0)%Q \/
  (inject_Z dd <= measure_distance s e)%Q ->
  detection s e = Return false.
Proof.
  intros Hdd Hfar. rewrite (detection_int s e dd Hdd). f_equal.
  apply andb_false_iff. destruct Hfar as [Hzero | Hfar].
  - left. destruct (Qltb 0 (measure_distance s e)) eqn:Hb; [| reflexivity].
    apply Qltb_lt in Hb. rewrite Hzero in Hb.
    exfalso. exact (Qlt_irrefl 0 Hb).
  - right. destruct (Qltb (measure_distance s e) (inject_Z dd)) eqn:Hb;
      [| reflexivity].
    apply Qltb_lt in Hb. exfalso. exact (Qlt_not_le _ _ Hb Hfar).
Qed.

Lemma open_dwell_close `{Platform} (s : NeoService) (stop : bool)
      (mn mx : Z) :
  status s = true -> configured s mn mx ->
  (WriteChrc.set_open ;;
   call (sleep 3000) ;;
   (if stop then modify (with_running false) else WriteChrc.set_close) ;;
   call (sleep 500)) s =
    (Return tt,
     (if stop then with_running false (moved mn mx mx s)
      else moved mn mx mn (moved mn mx mx s)),
     (pulse_for mn mx mx ++ reports (notifying s) mx (mx >? mn)) ++
     [sleep 3000] ++
     (if stop then []
      else pulse_for mn mx mn ++ reports (notifying s) mn false) ++
     [sleep 500]).
Proof.
  intros Hon Hc.
  unfold bind at 1. rewrite (set_open_on s mn mx Hon Hc).
  unfold bind at 1. unfold call at 1.
  rewrite opened_at_max.
  destruct stop.
  - rewrite bind_modify. reflexivity.
  - unfold bind at 1.
    rewrite (set_close_on (moved mn mx mx s) mn mx Hon
               (configured_settings s _ mn mx eq_refl Hc)).
    rewrite opened_at_min. reflexivity.
Qed.

(** C8.  In a pass of the loop with [running] set and integer settings,
    let [d] be what [measure_distance] returns.  If [0 < d < detectDistance]
    the pass opens the lid once (servo pulse in range, [Angle] then
    [Opened]), sleeps 3 s, and then, unless [running] was cleared during
    that sleep, closes it once, and sleeps 0.5 s; if [running] was cleared
    it only sleeps the 0.5 s.  That is one [set_open] and at most one
    [set_close], and both return.  If [d] is 0 or at least [detectDistance] the
    pass does nothing.  For the answers 25, 15, 25 with [detectDistance]
    20 the loop does exactly what one [set_open], the 3 s sleep, one
    [set_close] and the 0.5 s sleep do. *)
Theorem sensor_pass_opens_then_closes `{Platform} (s : NeoService) (e : echo)
        (stop : bool) (mn mx dd : Z) :
  running s = true ->
  configured s mn mx ->
  lookup_setting (settings s) "detectDistance" = Return (JInt dd) ->
  ((0 < measure_distance s e)%Q /\ (measure_distance s e < inject_Z dd)%Q ->
   sensor_pass e stop s =
     (WriteChrc.set_open ;;
      call (sleep 3000) ;;
      (if stop then modify (with_running false) else WriteChrc.set_close) ;;
      call (sleep 500)) s /\
   sensor_pass e stop s =
     (Return tt,
      (if stop then with_running false (moved mn mx mx s)
       else moved mn mx mn (moved mn mx mx s)),
      (pulse_for mn mx mx ++ reports (notifying s) mx (mx >? mn)) ++
      [sleep 3000] ++
      (if stop then []
       else pulse_for mn mx mn ++ reports (notifying s) mn false) ++
      [sleep 500])) /\
  ((measure_distance s e == 0)%Q \/
   (inject_Z dd <= measure_distance s e)%Q ->
   sensor_pass e stop s = (Return tt, s, [])) /\
  @sensor_loop host [(Echo 25, false); (Echo 15, false); (Echo 25, false)]
    (with_notifying true started) =
    (@WriteChrc.set_open host ;; call (sleep 3000) ;;
     @WriteChrc.set_close host ;; call (sleep 500))
      (with_notifying true started) /\
  trace_of
    (@sensor_loop host [(Echo 25, false); (Echo 15, false); (Echo 25, false)]
       (with_notifying true started)) =
    [set_servo_pulsewidth 18 500;
     PropertiesChanged (JDict [(KStr "Angle", JInt 180)]);
     PropertiesChanged (JDict [(KStr "Opened", JBool true)]);
     sleep 3000;
     set_servo_pulsewidth 18 2500;
     PropertiesChanged (JDict [(KStr "Angle", JInt 0)]);
     PropertiesChanged (JDict [(KStr "Opened", JBool false)]);
     sleep 500].
Proof.
  intros Hrun Hc Hdd. split; [| split; [| split]].
  - intros [Hpos Hnear].
    assert (Hon : status s = true)
      by exact (detection_on s e (detection_triggers s e dd Hdd Hpos Hnear)).
    rewrite (open_dwell_close s stop mn mx Hon Hc).
    rewrite (sensor_pass_detected s e stop mn mx Hc
               (detection_triggers s e dd Hdd Hpos Hnear)).
    rewrite Hrun, opened_at_max, opened_at_min.
    destruct stop; split; reflexivity.
  - intros Hfar.
    exact (sensor_pass_quiet s e stop (detection_passes s e dd Hdd Hfar)).
  - vm_compute. reflexivity.
  - vm_compute. reflexivity.
Qed.

Lemma sensor_pass_opens_then_closes_witness :
  sensor_pass (Echo 15) false (with_notifying true started) =
    (Return tt,
     moved 0 180 0 (moved 0 180 180 (with_notifying true started)),
     [set_servo_pulsewidth 18 500;
      PropertiesChanged (JDict [(KStr "Angle", JInt 180)]);
      PropertiesChanged (JDict [(KStr "Opened", JBool true)]);
      sleep 3000;
      set_servo_pulsewidth 18 2500;
      PropertiesChanged (JDict [(KStr "Angle", JInt 0)]);
      PropertiesChanged (JDict [(KStr "Opened", JBool false)]);
      sleep 500]) /\
  sensor_pass (Echo 25) false (with_notifying true started) =
    (Return tt, with_notifying true started, []).
Proof.
  destruct (@sensor_pass_opens_then_closes host
              (with_notifying true started) (Echo 15) false 0 180 20
              eq_refl (conj eq_refl eq_refl) eq_refl) as (Hnear & _).
  assert (Hnear' := fun Hd => proj2 (Hnear Hd)).
  destruct (@sensor_pass_opens_then_closes host
              (with_notifying true started) (Echo 25) false 0 180 20
              eq_refl (conj eq_refl eq_refl) eq_refl) as (_ & Hfar & _).
  split.
  - apply Hnear'. split; reflexivity.
  - apply Hfar. right. discriminate.
Defined.

(** ** The command grammar *)

Lemma startswith_connect (rest : string) :
  startswith ("CONNECT:" ++ rest) "ANGLE:" = false /\
  startswith ("CONNECT:" ++ rest) "CONNECT:" = true.
Proof. destruct rest; repeat split. Qed.

Lemma eqb_other (value key : string) :
  value <> key -> String.eqb value key = false.
Proof. intros Hne. apply String.eqb_neq. exact Hne. Qed.

(** C6, as the code has it.  For an authenticated service and well-formed
    UTF-8 text, [WriteChrc.WriteValue] takes the payload apart as follows.
    [ANGLE:<text>] is [SetAngle a] when [int] reads [text] as [a], and
    fails with [InvalidValueLengthException] (wrapped) when [int] refuses
    it.  [CONNECT:<ssid>:<password>], with no further colon, is
    [WifiConnect ssid password].  [SETTINGS:<body>], where the body decodes
    to an object with [type], [key] and [value], is [UpdateSettings].  The
    keywords [OPEN], [CLOSE], [STATUS], [GET_SETTINGS], [WIFI_DISCONNECT]
    and [GET_WIFI] run their handlers.  Text with none of the three
    prefixes that is no key of the handler table fails with
    [FailedException("Invalid command")] (wrapped) and changes nothing. *)
Theorem write_value_grammar `{Platform} (s : NeoService) :
  is_auth s = true ->
  (forall text a,
     well_formed text -> int_str text = Some a ->
     WriteChrc.WriteValue ("ANGLE:" ++ text) s =
       guarded (execute (SetAngle a)) s) /\
  (forall text,
     well_formed text -> int_str text = None ->
     WriteChrc.WriteValue ("ANGLE:" ++ text) s =
       (Raise (FailedException (Str InvalidValueLengthException)), s, [])) /\
  (forall rest ssid password,
     well_formed rest -> split ":" rest = [ssid; password] ->
     WriteChrc.WriteValue ("CONNECT:" ++ rest) s =
       guarded (execute (WifiConnect ssid password)) s) /\
  (forall body d data_type data_key data_value,
     well_formed body -> json_loads body = Some d ->
     getitem d (JStr "type") = Return data_type ->
     getitem d (JStr "key") = Return data_key ->
     getitem d (JStr "value") = Return data_value ->
     WriteChrc.WriteValue ("SETTINGS:" ++ body) s =
       guarded (execute (UpdateSettings data_type data_key data_value)) s) /\
  (forall keyword c,
     In (keyword, c) keywords ->
     WriteChrc.WriteValue keyword s = guarded (execute c) s) /\
  (forall value,
     well_formed value ->
     startswith value "ANGLE:" = false ->
     startswith value "CONNECT:" = false ->
     startswith value "SETTINGS:" = false ->
     ~ In value table_keys ->
     WriteChrc.WriteValue value s =
       (Raise (FailedException (Str (FailedException (Text "Invalid command")))),
        s, [])).
Proof.
  intros Hauth. repeat apply conj.
  - intros text a Hwf Hint.
    rewrite (write_value_authenticated s _ Hauth (well_formed_angle text Hwf)).
    rewrite startswith_angle.
    unfold guarded, execute, WriteChrc.angle_command, try_except.
    change (slice_from 6 ("ANGLE:" ++ text)) with text.
    rewrite Hint, bind_return. reflexivity.
  - intros text Hwf Hint.
    rewrite (write_value_authenticated s _ Hauth (well_formed_angle text Hwf)).
    rewrite startswith_angle. unfold guarded, try_except.
    rewrite (angle_command_malformed s ("ANGLE:" ++ text) Hint).
    reflexivity.
  - intros rest ssid password Hwf Hsplit.
    rewrite (write_value_authenticated s _ Hauth) by exact Hwf.
    destruct (startswith_connect rest) as (-> & ->).
    change (slice_from 8 ("CONNECT:" ++ rest)) with rest.
    unfold guarded, execute, WriteChrc.connect_to_wifi, try_except.
    rewrite Hsplit. cbn [nth_error]. rewrite !bind_return.
    destruct (nmcli_connect ssid password); reflexivity.
  - intros body d data_type data_key data_value Hwf Hd Ht Hk Hv.
    rewrite (write_settings s body Hauth Hwf).
    unfold guarded, execute, WriteChrc.update_settings, try_except.
    rewrite Hd, bind_return, Ht, bind_return, Hk, bind_return, Hv,
            bind_return.
    reflexivity.
  - intros keyword c Hin.
    repeat (destruct Hin as [Heq | Hin];
            [injection Heq as <- <-;
             rewrite (write_value_authenticated s _ Hauth) by reflexivity;
             reflexivity |]).
    destruct Hin.
  - intros value Hwf Ha Hc Hs Hkey.
    rewrite (write_value_authenticated s value Hauth Hwf).
    rewrite Ha, Hc, Hs.
    cbn [lookup WriteChrc.command_handler].
    unfold table_keys in Hkey. cbn [In] in Hkey.
    rewrite !eqb_other by (intros ->; apply Hkey; tauto).
    reflexivity.
Qed.

Lemma write_value_grammar_witness :
  WriteChrc.WriteValue "ANGLE: -1_0 " (logged_in started) =
    guarded (execute (SetAngle (-10))) (logged_in started) /\
  WriteChrc.WriteValue "ANGLE:ninety" (logged_in started) =
    (Raise (FailedException (Str InvalidValueLengthException)),
     logged_in started, []) /\
  WriteChrc.WriteValue "CONNECT:home:secret" (logged_in started) =
    guarded (execute (WifiConnect "home" "secret")) (logged_in started) /\
  WriteChrc.WriteValue "GET_SETTINGS" (logged_in started) =
    guarded (execute GetSettings) (logged_in started) /\
  WriteChrc.WriteValue "OPEN " (logged_in started) =
    (Raise (FailedException (Str (FailedException (Text "Invalid command")))),
     logged_in started, []).
Proof.
  destruct (@write_value_grammar host (logged_in started) eq_refl)
    as (Hangle & Hbad & Hconnect & _ & Hkeyword & Hother).
  repeat apply conj.
  - apply (Hangle " -1_0 " (-10)); reflexivity.
  - apply (Hbad "ninety"); reflexivity.
  - apply (Hconnect "home:secret" "home" "secret"); reflexivity.
  - apply (Hkeyword "GET_SETTINGS" GetSettings). cbn. tauto.
  - apply (Hother "OPEN "); try reflexivity.
    cbn. intros Hin.
    repeat (destruct Hin as [Heq | Hin]; [discriminate Heq |]).
    exact Hin.
Defined.

(** C6 as stated fails in three places.  In [CONNECT:home:pa:ss] the
    password handed to [nmcli] is [pa], not [pa:ss] (the second command is
    the first one [get_wifi_status] runs).  The bare keyword
    [SETTINGS] does not run a command: its table entry is
    [update_settings], which needs an argument.  And [GET_SETTINGS], which
    is none of the keywords the claim lists, does not fail: it runs
    [get_settings]. *)
Lemma write_value_grammar_counterexample :
  WriteChrc.WriteValue "CONNECT:home:pa:ss" (logged_in started) =
    (Return tt, logged_in started,
     [subprocess_run ["sudo"; "nmcli"; "device"; "wifi"; "connect"; "home";
                      "password"; "pa"];
      subprocess_run ["nmcli"; "-t"; "-f"; "TYPE,NAME,DEVICE,STATE";
                      "connection"; "show"; "--active"]]) /\
  WriteChrc.WriteValue "SETTINGS" (logged_in started) =
    (Raise (FailedException (Str TypeError)), logged_in started, []) /\
  WriteChrc.WriteValue "GET_SETTINGS" (with_notifying true (logged_in started)) =
    (Return tt, with_notifying true (logged_in started),
     [PropertiesChanged (JDict [(KStr "maxAngle", JInt 180)]);
      PropertiesChanged (JDict [(KStr "detectDistance", JInt 20)])]).
Proof. repeat split. Qed.

(** ** The two threads *)

(** Run alone, the instructions of [moves_to v] do what the code after
    [self.service.angle = v] does. *)
Lemma moves_to_alone `{Platform} (s : NeoService) (mn mx v : Z) :
  status s = true -> configured s mn mx ->
  (modify (with_angle v) ;; WriteChrc.move_and_report) s =
    (Return tt,
     moved mn mx v s,
     sh_trace (memory (run mn mx (notifying s) (repeat true 9)
                           (begins (moves_to v)) (begins []) (view s)))) /\
  view (moved mn mx v s) =
    {| sh_angle := sh_angle (memory (run mn mx (notifying s) (repeat true 9)
                                         (begins (moves_to v)) (begins [])
                                         (view s)));
       sh_opened := sh_opened (memory (run mn mx (notifying s) (repeat true 9)
                                           (begins (moves_to v)) (begins [])
                                           (view s)));
       sh_trace := [] |}.
Proof.
  intros Hon Hc.
  rewrite bind_modify.
  rewrite (move_and_report_on (with_angle v s) mn mx Hon
             (configured_settings s _ mn mx eq_refl Hc)).
  unfold pulse_for, reports, sent, signal, memory, view.
  cbn. destruct ((mn <=? v) && (v <=? mx)); destruct (notifying s);
    split; reflexivity.
Qed.

Lemma exec_keeps_limit (mn mx : Z) (subscribed : bool) (i : instr)
      (t : thread) (m : shared) :
  (forall v, i = StoreAngle v -> at_limit mn mx v) ->
  at_limit mn mx (sh_angle m) ->
  code (fst (exec mn mx subscribed i t m)) = code t /\
  at_limit mn mx (sh_angle (snd (exec mn mx subscribed i t m))).
Proof.
  intros Hstore Hm. destruct i; cbn; try (split; [reflexivity | exact Hm]).
  - split; [reflexivity | apply (Hstore v); reflexivity].
  - destruct ((mn <=? loaded_angle t) && (loaded_angle t <=? mx));
      split; try reflexivity; exact Hm.
Qed.

Lemma step_keeps_limit (mn mx : Z) (subscribed : bool) (t : thread)
      (m : shared) :
  (forall v, In (StoreAngle v) (code t) -> at_limit mn mx v) ->
  at_limit mn mx (sh_angle m) ->
  (forall v, In (StoreAngle v) (code (fst (step mn mx subscribed t m))) ->
             at_limit mn mx v) /\
  at_limit mn mx (sh_angle (snd (step mn mx subscribed t m))).
Proof.
  intros Hcode Hm. unfold step.
  destruct (code t) as [| i rest] eqn:Hrest.
  - cbn. rewrite Hrest. split; [intros v [] | exact Hm].
  - destruct (exec_keeps_limit mn mx subscribed i
                {| loaded_angle := loaded_angle t;
                   loaded_opened := loaded_opened t; code := rest |} m)
      as [Hsame Hlimit].
    + intros v ->. apply Hcode. left. reflexivity.
    + exact Hm.
    + split; [| exact Hlimit].
      rewrite Hsame. cbn. intros v Hin. apply Hcode. right. exact Hin.
Qed.

Lemma run_keeps_limit (mn mx : Z) (subscribed : bool) (schedule : list bool) :
  forall (handler sensor : thread) (m : shared),
    (forall v, In (StoreAngle v) (code handler) -> at_limit mn mx v) ->
    (forall v, In (StoreAngle v) (code sensor) -> at_limit mn mx v) ->
    at_limit mn mx (sh_angle m) ->
    at_limit mn mx
      (sh_angle (memory (run mn mx subscribed schedule handler sensor m))).
Proof.
  induction schedule as [| who rest IH]; intros handler sensor m Hh Hs Hm.
  - exact Hm.
  - destruct who; cbn [run].
    + destruct (step_keeps_limit mn mx subscribed handler m Hh Hm)
        as [Hh' Hm'].
      destruct (step mn mx subscribed handler m) as [handler' m'].
      exact (IH handler' sensor m' Hh' Hs Hm').
    + destruct (step_keeps_limit mn mx subscribed sensor m Hs Hm)
        as [Hs' Hm'].
      destruct (step mn mx subscribed sensor m) as [sensor' m'].
      exact (IH handler sensor' m' Hh Hs' Hm').
Qed.

Lemma calls_store_targets (mn mx : Z) (targets : list Z) :
  Forall (at_limit mn mx) targets ->
  forall v, In (StoreAngle v) (code (calls targets)) -> at_limit mn mx v.
Proof.
  unfold calls, begins. cbn [code].
  induction 1 as [| w rest Hw Hrest IH]; intros v Hin.
  - destruct Hin.
  - cbn [map List.concat] in Hin. apply in_app_or in Hin.
    destruct Hin as [Hin | Hin]; [| exact (IH v Hin)].
    cbn in Hin.
    repeat (destruct Hin as [Heq | Hin]; [try discriminate Heq |]);
      [injection Heq as <-; exact Hw | destruct Hin].
Qed.

(** C9, as the code has it.  The source takes no lock.  What holds under
    every interleaving of the attribute accesses of the write handler's
    [set_open] and [set_close] calls with those of the sensor loop's is
    that [angle], once at [minAngle] or [maxAngle], is at one of the two
    after every step: both threads only ever store one of them. *)
Theorem interleaved_moves_stay_at_limits (mn mx : Z) (subscribed : bool)
        (schedule : list bool) (handler_targets sensor_targets : list Z)
        (m : shared) :
  Forall (at_limit mn mx) handler_targets ->
  Forall (at_limit mn mx) sensor_targets ->
  at_limit mn mx (sh_angle m) ->
  at_limit mn mx
    (sh_angle (memory (run mn mx subscribed schedule
                           (calls handler_targets) (calls sensor_targets) m))).
Proof.
  intros Hh Hs Hm.
  apply run_keeps_limit;
    [exact (calls_store_targets mn mx handler_targets Hh)
    | exact (calls_store_targets mn mx sensor_targets Hs)
    | exact Hm].
Qed.

Lemma interleaved_moves_stay_at_limits_witness :
  at_limit 0 180
    (sh_angle (memory (run 0 180 true overtaking
                           (calls [0]) (calls [180]) (view started)))).
Proof.
  apply interleaved_moves_stay_at_limits.
  - constructor; [left; reflexivity | constructor].
  - constructor; [right; reflexivity | constructor].
  - left. reflexivity.
Defined.

(** C9 as stated fails.  [ANGLE:90] alone leaves [angle] at 90, which is
    neither 0 nor 180.  And nothing serialises the two threads: when a
    whole [set_close] of the write handler runs between the sensor loop's
    read of [angle] and its write of [opened], the service ends with
    [angle] 0 and [opened] set, and the last notifications say so, while
    either operation run alone leaves [opened] equal to
    [0 < angle <= 180]. *)
Lemma interleaving_counterexample :
  angle (state_of (WriteChrc.WriteValue "ANGLE:90" (logged_in started))) = 90 /\
  ~ at_limit 0 180 90 /\
  memory (run 0 180 true overtaking (calls [0]) (calls [180]) (view started)) =
    {| sh_angle := 0;
       sh_opened := true;
       sh_trace :=
         [set_servo_pulsewidth 18 500;
          set_servo_pulsewidth 18 2500;
          PropertiesChanged (JDict [(KStr "Angle", JInt 0)]);
          PropertiesChanged (JDict [(KStr "Opened", JBool false)]);
          PropertiesChanged (JDict [(KStr "Angle", JInt 0)]);
          PropertiesChanged (JDict [(KStr "Opened", JBool true)])] |} /\
  sh_opened (memory (run 0 180 true (repeat false 9 ++ repeat true 9)
                         (calls [0]) (calls [180]) (view started))) = false /\
  sh_opened (memory (run 0 180 true (repeat true 9 ++ repeat false 9)
                         (calls [0]) (calls [180]) (view started))) = true /\
  sh_angle (memory (run 0 180 true (repeat true 9 ++ repeat false 9)
                        (calls [0]) (calls [180]) (view started))) = 180.
Proof.
  split; [reflexivity |].
  split; [intros [Heq | Heq]; discriminate Heq |].
  repeat split.
Qed.

(* ================================================================== *)
(** * Further properties of the code *)

(** ** What the handlers keep *)

(** The handlers, for an [I] that the writes to [angle] and [opened]
    respect and a [T] that sleeps and subprocesses satisfy, given that
    [send_notification] and [set_servo_angle] keep them. *)
Section Handlers.

Context `{P : Platform}.
Variable I : NeoService -> Prop.
Variable T : event -> Prop.

Hypothesis I_angle : forall a s, I s -> I (with_angle a s).
Hypothesis I_opened : forall o s, I s -> I (with_opened o s).
Hypothesis T_sleep : forall ms, T (sleep ms).
Hypothesis T_run : forall argv, T (subprocess_run argv).
Hypothesis send_ok :
  forall data, keeps I T (InformChrc.send_notification data).
Hypothesis servo_ok : forall a, keeps I T (set_servo_angle a).

Lemma keeps_move_and_report : keeps I T WriteChrc.move_and_report.
Proof.
  unfold WriteChrc.move_and_report, angle_is_open.
  repeat first [apply send_ok | apply servo_ok | keeps_leaf | keeps_step].
Qed.

Lemma keeps_set_open : keeps I T WriteChrc.set_open.
Proof.
  unfold WriteChrc.set_open.
  repeat first [apply keeps_move_and_report | keeps_leaf | keeps_step].
Qed.

Lemma keeps_set_close : keeps I T WriteChrc.set_close.
Proof.
  unfold WriteChrc.set_close.
  repeat first [apply keeps_move_and_report | keeps_leaf | keeps_step].
Qed.

Lemma keeps_angle_command (command : string) :
  keeps I T (WriteChrc.angle_command command).
Proof.
  unfold WriteChrc.angle_command.
  repeat first [apply keeps_move_and_report | keeps_leaf | keeps_step].
Qed.

Lemma keeps_get_settings : keeps I T WriteChrc.get_settings.
Proof.
  unfold WriteChrc.get_settings.
  repeat first [apply send_ok | keeps_step].
Qed.

Lemma keeps_get_wifi : keeps I T WriteChrc.get_wifi.
Proof.
  unfold WriteChrc.get_wifi.
  repeat first [apply send_ok | apply keeps_get_wifi_status; exact T_run
               | keeps_step].
Qed.

Lemma keeps_disconnect_from_wifi : keeps I T WriteChrc.disconnect_from_wifi.
Proof.
  unfold WriteChrc.disconnect_from_wifi.
  repeat first [apply send_ok | apply keeps_get_wifi_status; exact T_run
               | apply keeps_run_process; exact T_run | keeps_step].
Qed.

Lemma keeps_connect_to_wifi (command : string) :
  keeps I T (WriteChrc.connect_to_wifi command).
Proof.
  unfold WriteChrc.connect_to_wifi.
  repeat first [apply send_ok | apply keeps_get_wifi_status; exact T_run
               | apply keeps_run_process; exact T_run | keeps_step].
Qed.

Hypothesis I_running : forall r s, I s -> I (with_running r s).

Lemma keeps_sensor_pass (e : echo) (stop : bool) :
  keeps I T (sensor_pass e stop).
Proof.
  unfold sensor_pass.
  repeat first [apply keeps_set_open | apply keeps_set_close
               | keeps_leaf | keeps_step].
Qed.

Lemma keeps_sensor_loop (inputs : list (echo * bool)) :
  keeps I T (sensor_loop inputs).
Proof.
  induction inputs as [| [e stop] rest IH]; cbn [sensor_loop].
  - apply keeps_ret.
  - apply keeps_bind; [apply keeps_get | intros s].
    destruct (running s); [| apply keeps_ret].
    apply keeps_bind; [apply keeps_sensor_pass | intros _; exact IH].
Qed.

Lemma keeps_bind_return {A B} (a : A) (k : A -> M B) :
  keeps I T (k a) -> keeps I T (bind (lift (Return a)) k).
Proof. intros Hk s Hs. rewrite bind_return. exact (Hk s Hs). Qed.

Lemma keeps_bind_raise {A B} (e : exn) (k : A -> M B) :
  keeps I T (bind (lift (Raise e)) k).
Proof. intros s Hs. rewrite bind_raise. split; [exact Hs | constructor]. Qed.

Lemma keeps_set_status :
  (forall st s, I s -> I (with_status st s)) ->
  keeps I T WriteChrc.set_status.
Proof.
  intros I_status. unfold WriteChrc.set_status.
  repeat first [apply send_ok | keeps_leaf | keeps_step].
Qed.

Lemma keeps_update_settings (data : string) :
  (forall v s, I s -> I (with_settings v s)) ->
  (forall v s, I s -> I (with_settings_json v s)) ->
  keeps I T (WriteChrc.update_settings data).
Proof.
  intros I_settings I_file. unfold WriteChrc.update_settings, save_json.
  repeat first [apply send_ok | keeps_leaf | keeps_step].
Qed.

(** A handler found in the table keeps [I] and [T]; [set_status], which
    writes [status], only matters for the keyword that reaches it. *)
Lemma keeps_table (value : string) (h : WriteChrc.handler) :
  lookup value WriteChrc.command_handler = Some h ->
  (String.eqb value "STATUS" = true -> keeps I T WriteChrc.set_status) ->
  keeps I T (WriteChrc.invoke h).
Proof.
  intros Hfound Hstatus. cbn [lookup WriteChrc.command_handler] in Hfound.
  destruct (String.eqb value "OPEN");
    [injection Hfound as <-; apply keeps_set_open |].
  destruct (String.eqb value "CLOSE");
    [injection Hfound as <-; apply keeps_set_close |].
  destruct (String.eqb value "STATUS");
    [injection Hfound as <-; apply Hstatus; reflexivity |].
  destruct (String.eqb value "SETTINGS");
    [injection Hfound as <-; apply keeps_raise |].
  destruct (String.eqb value "GET_SETTINGS");
    [injection Hfound as <-; apply keeps_get_settings |].
  destruct (String.eqb value "WIFI_DISCONNECT");
    [injection Hfound as <-; apply keeps_disconnect_from_wifi |].
  destruct (String.eqb value "GET_WIFI");
    [injection Hfound as <-; apply keeps_get_wifi |].
  discriminate Hfound.
Qed.

End Handlers.

(** [WriteValue] keeps what the one branch its payload reaches keeps. *)
Lemma keeps_write_dispatch `{Platform} (I : NeoService -> Prop)
      (T : event -> Prop) (value : string) :
  (startswith value "ANGLE:" = true ->
   keeps I T (WriteChrc.angle_command value)) ->
  (startswith value "ANGLE:" = false ->
   startswith value "CONNECT:" = true ->
   keeps I T (WriteChrc.connect_to_wifi (slice_from 8 value))) ->
  (startswith value "ANGLE:" = false ->
   startswith value "CONNECT:" = false ->
   startswith value "SETTINGS:" = true ->
   keeps I T (WriteChrc.update_settings (slice_from 9 value))) ->
  (startswith value "ANGLE:" = false ->
   startswith value "CONNECT:" = false ->
   startswith value "SETTINGS:" = false ->
   forall h, lookup value WriteChrc.command_handler = Some h ->
             keeps I T (WriteChrc.invoke h)) ->
  keeps I T (WriteChrc.WriteValue value).
Proof.
  intros Hangle Hconnect Hsettings Htable. unfold WriteChrc.WriteValue.
  apply keeps_bind; [apply keeps_get | intros s].
  destruct (negb (is_authenticated s)); [apply keeps_raise |].
  apply keeps_try_except; [| intros e; apply keeps_raise].
  unfold decode. destruct (utf8_scan 0 128 191 value);
    [apply keeps_bind_return | apply keeps_bind_raise].
  destruct (startswith value "ANGLE:"); [apply Hangle; reflexivity |].
  destruct (startswith value "CONNECT:");
    [apply Hconnect; reflexivity |].
  destruct (startswith value "SETTINGS:");
    [apply Hsettings; reflexivity |].
  destruct (lookup value WriteChrc.command_handler) as [h |] eqn:Hfound;
    [apply (Htable eq_refl eq_refl eq_refl h); reflexivity |].
  apply keeps_raise.
Qed.

(** The leaves: neither [send_notification] nor [set_servo_angle] writes an
    attribute. *)
Lemma keeps_send_notification (I : NeoService -> Prop) (T : event -> Prop)
      (data : json) :
  (forall d, T (PropertiesChanged d)) ->
  keeps I T (InformChrc.send_notification data).
Proof.
  intros HT. unfold InformChrc.send_notification.
  repeat first [keeps_leaf | keeps_step].
Qed.

Lemma keeps_set_servo_angle `{Platform} (I : NeoService -> Prop)
      (T : event -> Prop) (a : Z) :
  (forall w, T (set_servo_pulsewidth SERVO_PIN w)) ->
  keeps I T (set_servo_angle a).
Proof.
  intros HT. unfold set_servo_angle.
  repeat first [keeps_leaf | keeps_step].
Qed.

Lemma settings_prefix_alone (value : string) :
  startswith value "SETTINGS:" = true ->
  startswith value "ANGLE:" = false /\ startswith value "CONNECT:" = false.
Proof.
  unfold startswith. destruct value as [| c r]; [discriminate |].
  cbn [prefix]. destruct (ascii_dec "S" c) as [<- | _]; [| discriminate].
  intros _. split; reflexivity.
Qed.

Lemma keeps_write_value `{Platform} (I : NeoService -> Prop)
      (T : event -> Prop) (value : string) :
  (forall a s, I s -> I (with_angle a s)) ->
  (forall o s, I s -> I (with_opened o s)) ->
  (forall argv, T (subprocess_run argv)) ->
  (forall data, keeps I T (InformChrc.send_notification data)) ->
  (forall a, keeps I T (set_servo_angle a)) ->
  (startswith value "SETTINGS:" = true ->
   forall data, keeps I T (WriteChrc.update_settings data)) ->
  (String.eqb value "STATUS" = true -> keeps I T WriteChrc.set_status) ->
  keeps I T (WriteChrc.WriteValue value).
Proof.
  intros Ia Io Tr Hsend Hservo Hsettings Hstatus.
  apply keeps_write_dispatch.
  - intros _. apply keeps_angle_command; assumption.
  - intros _ _. apply keeps_connect_to_wifi; assumption.
  - intros _ _ Hprefix. apply Hsettings. exact Hprefix.
  - intros _ _ _ h Hfound. apply (keeps_table I T Ia Io Tr Hsend Hservo value h);
      assumption.
Qed.

Lemma keeps_write_settings `{Platform} (I : NeoService -> Prop)
      (T : event -> Prop) (value : string) :
  startswith value "SETTINGS:" = true ->
  (forall data, keeps I T (WriteChrc.update_settings data)) ->
  keeps I T (WriteChrc.WriteValue value).
Proof.
  intros Hprefix Hupdate.
  destruct (settings_prefix_alone value Hprefix) as [Hangle Hconnect].
  apply keeps_write_dispatch.
  - intros Hyes. congruence.
  - intros _ Hyes. congruence.
  - intros _ _ _. apply Hupdate.
  - intros _ _ Hno. congruence.
Qed.

Lemma keeps_write_status `{Platform} (I : NeoService -> Prop)
      (T : event -> Prop) :
  keeps I T WriteChrc.set_status ->
  keeps I T (WriteChrc.WriteValue "STATUS").
Proof.
  intros Hstatus. apply keeps_write_dispatch.
  - discriminate.
  - discriminate.
  - discriminate.
  - intros _ _ _ h Hfound. injection Hfound as <-. exact Hstatus.
Qed.

Lemma Forall_anything {A} (l : list A) : Forall (fun _ => True) l.
Proof. induction l; constructor; trivial. Qed.

(** ** The proximity loop *)

Lemma sensor_pass_returns `{Platform} (e : echo) (stop : bool)
      (s : NeoService) :
  result_of (sensor_pass e stop s) = Return tt.
Proof.
  unfold sensor_pass, try_except, result_of.
  match goal with
  | |- context [match ?body s with _ => _ end] =>
      destruct (body s) as [[[[] | x] s1] t1]
  end; reflexivity.
Qed.

Lemma sensor_loop_returns `{Platform} (inputs : list (echo * bool)) :
  forall s, result_of (sensor_loop inputs s) = Return tt.
Proof.
  induction inputs as [| [e stop] rest IH]; intros s; cbn [sensor_loop].
  - reflexivity.
  - rewrite bind_get. destruct (running s); [| reflexivity].
    pose proof (sensor_pass_returns e stop s) as Hpass.
    unfold bind, result_of in *.
    destruct (sensor_pass e stop s) as [[[[] | x] s1] t1];
      [| discriminate Hpass].
    specialize (IH s1). unfold result_of in IH.
    destruct (sensor_loop rest s1) as [[r s2] t2]. exact IH.
Qed.



(** X1.  The proximity loop never ends by an exception, whatever the
    settings hold and whatever the sensor answers, and it never touches
    [is_auth], [status], the subscription, the cached settings or the
    settings file. *)
Theorem sensor_loop_survives `{Platform} (inputs : list (echo * bool))
        (s : NeoService) :
  result_of (sensor_loop inputs s) = Return tt /\
  session (is_auth s) (status s) (notifying s) (settings s) (settings_json s)
          (state_of (sensor_loop inputs s)).
Proof.
  split; [apply sensor_loop_returns |].
  apply (keeps_sensor_loop
           (session (is_auth s) (status s) (notifying s) (settings s)
                    (settings_json s))
           (fun _ => True)); try (intros; exact I).
  - intros a s' Hs. exact Hs.
  - intros o s' Hs. exact Hs.
  - intros data. apply keeps_send_notification. trivial.
  - intros a. apply keeps_set_servo_angle. trivial.
  - intros r s' Hs. exact Hs.
  - repeat split.
Qed.

Lemma sensor_loop_stopped `{Platform} (inputs : list (echo * bool))
      (s : NeoService) :
  running s = false -> sensor_loop inputs s = (Return tt, s, []).
Proof.
  intros Hstop. destruct inputs as [| [e stop] rest]; cbn [sensor_loop].
  - reflexivity.
  - rewrite bind_get, Hstop. reflexivity.
Qed.

Lemma detection_off (s : NeoService) (e : echo) :
  status s = false -> detection s e = Return false.
Proof.
  intros Hoff. unfold detection, measure_distance. rewrite Hoff. reflexivity.
Qed.

(** X2.  While the device is off the proximity loop does nothing: whatever
    the sensor would answer, and for any number of passes, no attribute
    changes and no call is made. *)
Theorem sensor_loop_idle_while_off `{Platform} (inputs : list (echo * bool))
        (s : NeoService) :
  status s = false ->
  sensor_loop inputs s = (Return tt, s, []).
Proof.
  intros Hoff. induction inputs as [| [e stop] rest IH]; cbn [sensor_loop].
  - reflexivity.
  - rewrite bind_get. destruct (running s); [| reflexivity].
    unfold bind.
    rewrite (sensor_pass_quiet s e stop (detection_off s e Hoff)), IH.
    reflexivity.
Qed.

Lemma sensor_loop_idle_while_off_witness :
  sensor_loop [(Echo 15, false); (Echo 3, false)] (with_status false started) =
    (Return tt, with_status false started, []).
Proof. apply (@sensor_loop_idle_while_off host). reflexivity. Defined.

(** X3.  When [running] is cleared during the 3 s the lid is held open,
    the loop ends with that pass: the lid is not closed, only the 0.5 s
    sleep follows, and the sensor is not read again. *)
Theorem stop_during_dwell_ends_loop `{Platform} (s : NeoService) (e : echo)
        (rest : list (echo * bool)) (mn mx dd : Z) :
  running s = true ->
  configured s mn mx ->
  lookup_setting (settings s) "detectDistance" = Return (JInt dd) ->
  (0 < measure_distance s e)%Q ->
  (measure_distance s e < inject_Z dd)%Q ->
  sensor_loop ((e, true) :: rest) s =
    (Return tt,
     with_running false (moved mn mx mx s),
     (pulse_for mn mx mx ++ reports (notifying s) mx (mx >? mn)) ++
     [sleep 3000; sleep 500]).
Proof.
  intros Hrun Hc Hdd Hpos Hnear. cbn [sensor_loop].
  rewrite bind_get, Hrun. unfold bind.
  rewrite (sensor_pass_detected s e true mn mx Hc
             (detection_triggers s e dd Hdd Hpos Hnear)).
  cbn [negb andb].
  rewrite (sensor_loop_stopped rest (with_running false (moved mn mx mx s)))
    by reflexivity.
  rewrite opened_at_max. cbn [app]. rewrite !app_nil_r. reflexivity.
Qed.

Lemma stop_during_dwell_ends_loop_witness :
  sensor_loop [(Echo 15, true); (Echo 15, false)] (with_notifying true started) =
    (Return tt,
     with_running false (moved 0 180 180 (with_notifying true started)),
     [set_servo_pulsewidth 18 500;
      PropertiesChanged (JDict [(KStr "Angle", JInt 180)]);
      PropertiesChanged (JDict [(KStr "Opened", JBool true)]);
      sleep 3000; sleep 500]).
Proof.
  apply (@stop_during_dwell_ends_loop host (with_notifying true started)
           (Echo 15) [(Echo 15, false)] 0 180 20);
    first [reflexivity | split; reflexivity].
Defined.

(** X4.  [measure_distance] answers a distance from 0 up to, but not
    including, 300, and answers 0 whenever the device is off or the sensor
    gives no echo. *)
Theorem measure_distance_bounds (s : NeoService) (e : echo) :
  (0 <= measure_distance s e)%Q /\
  (measure_distance s e < 300)%Q /\
  (status s = false \/ e = NoEcho -> measure_distance s e = 0%Q).
Proof.
  assert (Hzero : (0 <= 0)%Q /\ (0 < 300)%Q)
    by (split; [apply Qle_refl | reflexivity]).
  unfold measure_distance.
  destruct (status s); cbn [negb].
  - destruct e as [| d].
    + split; [apply Hzero | split; [apply Hzero | reflexivity]].
    + destruct (Qltb 0 d && Qltb d 300) eqn:Hin.
      * apply andb_true_iff in Hin. destruct Hin as [Hpos Hlt].
        apply Qltb_lt in Hpos. apply Qltb_lt in Hlt.
        split; [apply Qlt_le_weak; exact Hpos |].
        split; [exact Hlt |].
        intros [Hoff | Hecho]; discriminate.
      * split; [apply Hzero | split; [apply Hzero | reflexivity]].
  - split; [apply Hzero | split; [apply Hzero | reflexivity]].
Qed.

Lemma measure_distance_bounds_witness :
  measure_distance (with_status false started) (Echo 15) = 0%Q.
Proof.
  apply (proj2 (proj2 (measure_distance_bounds (with_status false started)
                         (Echo 15)))).
  left. reflexivity.
Defined.

(** X5.  On a device that is on, [set_servo_angle] never raises and never
    changes an attribute, whatever the settings hold: it either pulses the
    servo once, with the width computed for the angle, or makes no call at
    all. *)
Theorem set_servo_angle_swallows `{Platform} (s : NeoService) (a : Z) :
  status s = true ->
  set_servo_angle a s = (Return tt, s, []) \/
  set_servo_angle a s =
    (Return tt, s, [set_servo_pulsewidth SERVO_PIN (pulse_width a)]).
Proof.
  intros Hon. unfold set_servo_angle, try_except, pulse_width.
  rewrite bind_get, Hon. cbn [negb].
  unfold bind, ret, raise, call. rewrite !int_setting_run.
  destruct (int_lookup (settings s) "minAngle") as [mn | x];
    [| left; reflexivity].
  destruct (mn <=? a); [| left; reflexivity].
  rewrite int_setting_run.
  destruct (int_lookup (settings s) "maxAngle") as [mx | x];
    [| left; reflexivity].
  destruct (a <=? mx); [right | left]; reflexivity.
Qed.

Lemma set_servo_angle_swallows_witness :
  set_servo_angle 90 (with_settings JNull started) =
    (Return tt, with_settings JNull started, []) \/
  set_servo_angle 90 (with_settings JNull started) =
    (Return tt, with_settings JNull started,
     [set_servo_pulsewidth SERVO_PIN (pulse_width 90)]).
Proof. apply (@set_servo_angle_swallows host). reflexivity. Defined.

(** ** What the servo is driven with *)

Lemma pulse_width_bounds (a : Z) :
  0 <= a <= 180 -> 500 <= pulse_width a <= 2500.
Proof.
  intros [Hlo Hhi]. unfold pulse_width.
  assert (0 <= (180 - a) * 2000 / 180) by (apply Z.div_pos; lia).
  assert ((180 - a) * 2000 / 180 <= 2000)
    by (apply Z.div_le_upper_bound; lia).
  lia.
Qed.

Lemma servo_in_range `{Platform} (mn mx a : Z) :
  0 <= mn -> mx <= 180 ->
  keeps (fun s => configured s mn mx) in_servo_range (set_servo_angle a).
Proof.
  intros Hmn Hmx s Hc. destruct (status s) eqn:Hst.
  - rewrite (set_servo_angle_on s mn mx a Hst Hc).
    split; [exact Hc |]. unfold pulse_for, trace_of. cbn [snd].
    destruct ((mn <=? a) && (a <=? mx)) eqn:Hin; [| constructor].
    apply andb_true_iff in Hin. destruct Hin as [H1 H2].
    apply Z.leb_le in H1. apply Z.leb_le in H2.
    constructor; [| constructor].
    split; [reflexivity | apply (pulse_width_bounds a); lia].
  - rewrite (set_servo_angle_off s a Hst). split; [exact Hc | constructor].
Qed.

(** X6.  If the settings hold integer angles with [0 <= minAngle] and
    [maxAngle <= 180], every servo call made by a write to the command
    characteristic, whatever its payload, and by the proximity loop,
    whatever the sensor answers, is on the servo pin with a pulse width
    from 500 to 2500. *)
Theorem pulses_stay_in_range `{Platform} (s : NeoService) (mn mx : Z) :
  configured s mn mx -> 0 <= mn -> mx <= 180 ->
  (forall value,
     Forall in_servo_range (trace_of (WriteChrc.WriteValue value s))) /\
  (forall inputs,
     Forall in_servo_range (trace_of (sensor_loop inputs s))).
Proof.
  intros Hc Hmn Hmx. split.
  - intros value. destruct (startswith value "SETTINGS:") eqn:Hprefix.
    + apply (keeps_write_settings (fun _ => True) in_servo_range value Hprefix);
        [| exact I].
      intros data. apply keeps_update_settings; try (intros; exact I).
      intros d. apply keeps_send_notification. intros d'. exact I.
    + apply (keeps_write_value (fun s => configured s mn mx) in_servo_range
               value); try (intros; assumption); try exact Hc.
      * intros argv. exact I.
      * intros data. apply keeps_send_notification. intros d. exact I.
      * intros a. apply servo_in_range; assumption.
      * intros Hyes. congruence.
      * intros _. apply keeps_set_status; [| intros; assumption].
        intros data. apply keeps_send_notification. intros d. exact I.
  - intros inputs.
    apply (keeps_sensor_loop (fun s => configured s mn mx) in_servo_range);
      try (intros; assumption); try exact Hc.
    + intros ms. exact I.
    + intros data. apply keeps_send_notification. intros d. exact I.
    + intros a. apply servo_in_range; assumption.
Qed.

Lemma pulses_stay_in_range_witness :
  Forall in_servo_range
    (trace_of (WriteChrc.WriteValue "ANGLE:45" (logged_in started))) /\
  Forall in_servo_range
    (trace_of (sensor_loop [(Echo 15, false)] started)).
Proof.
  destruct (@pulses_stay_in_range host (logged_in started) 0 180
              (conj eq_refl eq_refl) (Z.le_refl 0) (Z.le_refl 180))
    as [Hwrite _].
  destruct (@pulses_stay_in_range host started 0 180
              (conj eq_refl eq_refl) (Z.le_refl 0) (Z.le_refl 180))
    as [_ Hloop].
  split; [apply Hwrite | apply Hloop].
Defined.

(** X7.  While the device is off no write to the command characteristic
    moves the servo, whatever its payload. *)
Theorem device_off_never_moves `{Platform} (s : NeoService) (value : string) :
  status s = false ->
  Forall (fun e => is_pulse e = false)
         (trace_of (WriteChrc.WriteValue value s)).
Proof.
  intros Hoff. destruct (String.eqb value "STATUS") eqn:Hkeyword.
  - apply String.eqb_eq in Hkeyword. subst value.
    apply (keeps_write_status (fun _ => True) (fun e => is_pulse e = false));
      [| exact I].
    apply keeps_set_status; [| intros; exact I].
    intros data. apply keeps_send_notification. reflexivity.
  - apply (keeps_write_value (fun s => status s = false)
             (fun e => is_pulse e = false) value);
      try (intros; assumption); try exact Hoff.
    + reflexivity.
    + intros data. apply keeps_send_notification. reflexivity.
    + intros a s' Hs'. rewrite (set_servo_angle_off s' a Hs').
      split; [exact Hs' | constructor].
    + intros _ data. apply keeps_update_settings; try (intros; assumption).
      intros d. apply keeps_send_notification. reflexivity.
    + intros Hyes. congruence.
Qed.

Lemma device_off_never_moves_witness :
  Forall (fun e => is_pulse e = false)
         (trace_of (WriteChrc.WriteValue "OPEN" switched_off)).
Proof. apply (@device_off_never_moves host). reflexivity. Defined.

(** ** Notifications *)

Lemma send_unsubscribed (data : json) :
  keeps (fun s => notifying s = false) (fun e => is_signal e = false)
        (InformChrc.send_notification data).
Proof.
  intros s Hs. rewrite send_notification_run, Hs.
  split; [exact Hs | constructor].
Qed.

(** X8.  A client that is not subscribed receives nothing: while
    [notifying] is cleared, no write to the command characteristic and no
    pass of the proximity loop emits a [PropertiesChanged] signal, and
    neither sets [notifying]. *)
Theorem unsubscribed_hears_nothing `{Platform} (s : NeoService) :
  notifying s = false ->
  (forall value,
     notifying (state_of (WriteChrc.WriteValue value s)) = false /\
     Forall (fun e => is_signal e = false)
            (trace_of (WriteChrc.WriteValue value s))) /\
  (forall inputs,
     notifying (state_of (sensor_loop inputs s)) = false /\
     Forall (fun e => is_signal e = false)
            (trace_of (sensor_loop inputs s))).
Proof.
  intros Hquiet. split.
  - intros value.
    apply (keeps_write_value (fun s => notifying s = false)
             (fun e => is_signal e = false) value);
      try (intros; assumption); try exact Hquiet.
    + reflexivity.
    + exact send_unsubscribed.
    + intros a. apply keeps_set_servo_angle. reflexivity.
    + intros _ data. apply keeps_update_settings; try (intros; assumption).
      exact send_unsubscribed.
    + intros _. apply keeps_set_status; [| intros; assumption].
      exact send_unsubscribed.
  - intros inputs.
    apply (keeps_sensor_loop (fun s => notifying s = false)
             (fun e => is_signal e = false));
      try (intros; assumption); try exact Hquiet.
    + reflexivity.
    + exact send_unsubscribed.
    + intros a. apply keeps_set_servo_angle. reflexivity.
Qed.

Lemma unsubscribed_hears_nothing_witness :
  Forall (fun e => is_signal e = false)
         (trace_of (WriteChrc.WriteValue "GET_SETTINGS" (logged_in started))) /\
  Forall (fun e => is_signal e = false)
         (trace_of (sensor_loop [(Echo 15, false)] started)).
Proof.
  destruct (@unsubscribed_hears_nothing host (logged_in started) eq_refl)
    as [Hwrite _].
  destruct (@unsubscribed_hears_nothing host started eq_refl) as [_ Hloop].
  split; [apply Hwrite | apply Hloop].
Defined.

(** ** What a write leaves alone *)

(** X9.  A write to the command characteristic, whatever its payload and
    whether it succeeds or fails, never changes [is_auth], the subscription
    or [running]; it changes the cached settings and the settings file only
    if the payload starts with [SETTINGS:], and [status] only if the
    payload is [STATUS]. *)
Theorem write_value_frame `{Platform} (s : NeoService) (value : string) :
  connection (is_auth s) (notifying s) (running s)
             (state_of (WriteChrc.WriteValue value s)) /\
  (startswith value "SETTINGS:" = false ->
   stored (settings s) (settings_json s)
          (state_of (WriteChrc.WriteValue value s))) /\
  (value <> "STATUS" ->
   status (state_of (WriteChrc.WriteValue value s)) = status s).
Proof.
  split; [| split].
  - apply (keeps_write_value
             (connection (is_auth s) (notifying s) (running s))
             (fun _ => True) value);
      try (intros; assumption); try (intros; exact I).
    + intros data. apply keeps_send_notification. trivial.
    + intros a. apply keeps_set_servo_angle. trivial.
    + intros _ data. apply keeps_update_settings; try (intros; assumption).
      intros d. apply keeps_send_notification. trivial.
    + intros _. apply keeps_set_status; [| intros; assumption].
      intros d. apply keeps_send_notification. trivial.
    + repeat split.
  - intros Hprefix.
    apply (keeps_write_value (stored (settings s) (settings_json s))
             (fun _ => True) value);
      try (intros; assumption); try (intros; exact I).
    + intros data. apply keeps_send_notification. trivial.
    + intros a. apply keeps_set_servo_angle. trivial.
    + intros Hyes. congruence.
    + intros _. apply keeps_set_status; [| intros; assumption].
      intros d. apply keeps_send_notification. trivial.
    + repeat split.
  - intros Hother. apply String.eqb_neq in Hother.
    apply (keeps_write_value (fun s' => status s' = status s)
             (fun _ => True) value);
      try (intros; assumption); try (intros; exact I).
    + intros data. apply keeps_send_notification. trivial.
    + intros a. apply keeps_set_servo_angle. trivial.
    + intros _ data. apply keeps_update_settings; try (intros; assumption).
      intros d. apply keeps_send_notification. trivial.
    + intros Hyes. congruence.
    + reflexivity.
Qed.

Lemma write_value_frame_witness :
  stored (settings (logged_in started)) (settings_json (logged_in started))
         (state_of (WriteChrc.WriteValue "SETTINGS" (logged_in started))) /\
  status (state_of (WriteChrc.WriteValue "STATUS " (logged_in started))) =
    status (logged_in started).
Proof.
  destruct (@write_value_frame host (logged_in started) "SETTINGS")
    as (_ & Hstored & _).
  destruct (@write_value_frame host (logged_in started) "STATUS ")
    as (_ & _ & Hstatus).
  split; [apply Hstored; reflexivity | apply Hstatus; discriminate].
Defined.

Lemma with_notifying_already (s : NeoService) (b : bool) :
  notifying s = b -> with_notifying b s = s.
Proof. intros <-. apply with_notifying_same. Qed.

(** X10.  The subscription flag decides what is delivered.  For an
    authenticated client, [StartNotify] followed by [send_notification x]
    delivers exactly the one signal for [x]; [StopNotify] followed by
    [send_notification x] delivers nothing, whatever was subscribed before;
    and [StartNotify] twice is [StartNotify] once. *)
Theorem subscription_decides_delivery (s : NeoService) (x : json) :
  is_auth s = true ->
  (InformChrc.StartNotify ;; InformChrc.send_notification x) s =
    (Return tt, with_notifying true s, [PropertiesChanged x]) /\
  (InformChrc.StopNotify ;; InformChrc.send_notification x) s =
    (Return tt, with_notifying false s, []) /\
  (InformChrc.StartNotify ;; InformChrc.StartNotify) s =
    InformChrc.StartNotify s.
Proof.
  intros Hauth.
  assert (Hstart : InformChrc.StartNotify s =
                   (Return tt, with_notifying true s, [])).
  { unfold InformChrc.StartNotify. rewrite bind_get.
    unfold is_authenticated. rewrite Hauth.
    destruct (notifying s) eqn:Hn; [| reflexivity].
    rewrite (with_notifying_already s true Hn). reflexivity. }
  assert (Hstop : InformChrc.StopNotify s =
                  (Return tt, with_notifying false s, [])).
  { unfold InformChrc.StopNotify. rewrite bind_get.
    destruct (notifying s) eqn:Hn; [reflexivity |].
    rewrite (with_notifying_already s false Hn). reflexivity. }
  split; [| split].
  - unfold bind. rewrite Hstart, send_notification_run. reflexivity.
  - unfold bind. rewrite Hstop, send_notification_run. reflexivity.
  - unfold bind at 1. rewrite Hstart.
    unfold InformChrc.StartNotify. rewrite bind_get. reflexivity.
Qed.

Lemma subscription_decides_delivery_witness :
  (InformChrc.StartNotify ;; InformChrc.send_notification (JInt 7))
    (logged_in started) =
    (Return tt, with_notifying true (logged_in started),
     [PropertiesChanged (JInt 7)]).
Proof.
  apply (proj1 (subscription_decides_delivery (logged_in started) (JInt 7)
                  eq_refl)).
Defined.

(** X11.  [STATUS] is a toggle: sent twice by an authenticated client it
    leaves the service exactly as it was, after notifying the new status
    and then the old one. *)
Theorem status_twice_restores `{Platform} (s : NeoService) :
  is_auth s = true ->
  (WriteChrc.WriteValue "STATUS" ;; WriteChrc.WriteValue "STATUS") s =
    (Return tt, s,
     sent (notifying s) (JDict [(KStr "Status", JBool (negb (status s)))]) ++
     sent (notifying s) (JDict [(KStr "Status", JBool (status s))])).
Proof.
  intros Hauth.
  assert (Hone : forall s', is_auth s' = true ->
            WriteChrc.WriteValue "STATUS" s' =
              (Return tt, with_status (negb (status s')) s',
               sent (notifying s')
                    (JDict [(KStr "Status", JBool (negb (status s')))]))).
  { intros s' Hauth'.
    rewrite (write_value_authenticated s' "STATUS" Hauth') by reflexivity.
    change (guarded WriteChrc.set_status s' =
            (Return tt, with_status (negb (status s')) s',
             sent (notifying s')
                  (JDict [(KStr "Status", JBool (negb (status s')))]))).
    unfold guarded, try_except, WriteChrc.set_status.
    rewrite bind_modify, bind_get, send_notification_run. reflexivity. }
  unfold bind. rewrite (Hone s Hauth).
  rewrite (Hone (with_status (negb (status s)) s)) by exact Hauth.
  cbn [status with_status notifying]. rewrite negb_involutive.
  destruct s; reflexivity.
Qed.

Lemma status_twice_restores_witness :
  (WriteChrc.WriteValue "STATUS" ;; WriteChrc.WriteValue "STATUS")
    (with_notifying true (logged_in started)) =
    (Return tt, with_notifying true (logged_in started),
     [PropertiesChanged (JDict [(KStr "Status", JBool false)]);
      PropertiesChanged (JDict [(KStr "Status", JBool true)])]).
Proof.
  apply (@status_twice_restores host (with_notifying true (logged_in started))).
  reflexivity.
Defined.

(** ** Settings *)

Lemma write_get_settings `{Platform} (s : NeoService) :
  is_auth s = true ->
  WriteChrc.WriteValue "GET_SETTINGS" s = guarded WriteChrc.get_settings s.
Proof.
  intros Hauth.
  rewrite (write_value_authenticated s "GET_SETTINGS" Hauth) by reflexivity.
  reflexivity.
Qed.

(** X12.  [GET_SETTINGS] reports [maxAngle] and then [detectDistance], and
    nothing else: [minAngle] is neither read nor reported.  If
    [detectDistance] cannot be read as an integer the command fails after
    the [maxAngle] notification has gone out; if [maxAngle] cannot, it
    fails before anything is sent.  The service is never changed. *)
Theorem get_settings_reports `{Platform} (s : NeoService) (mx : Z) :
  is_auth s = true ->
  (forall x,
     int_lookup (settings s) "maxAngle" = Raise x ->
     WriteChrc.WriteValue "GET_SETTINGS" s =
       (Raise (FailedException (Str (FailedException (Str x)))), s, [])) /\
  (int_lookup (settings s) "maxAngle" = Return mx ->
   (forall dd,
      int_lookup (settings s) "detectDistance" = Return dd ->
      WriteChrc.WriteValue "GET_SETTINGS" s =
        (Return tt, s,
         sent (notifying s) (JDict [(KStr "maxAngle", JInt mx)]) ++
         sent (notifying s) (JDict [(KStr "detectDistance", JInt dd)]))) /\
   (forall x,
      int_lookup (settings s) "detectDistance" = Raise x ->
      WriteChrc.WriteValue "GET_SETTINGS" s =
        (Raise (FailedException (Str (FailedException (Str x)))), s,
         sent (notifying s) (JDict [(KStr "maxAngle", JInt mx)])))).
Proof.
  intros Hauth. rewrite (write_get_settings s Hauth).
  unfold guarded, WriteChrc.get_settings, try_except.
  split; [| intros Hmx; split].
  - intros x Hmx. unfold bind at 1. rewrite int_setting_run, Hmx.
    reflexivity.
  - intros dd Hdd. unfold bind at 1. rewrite int_setting_run, Hmx.
    unfold bind at 1. rewrite send_notification_run.
    unfold bind at 1. rewrite int_setting_run, Hdd.
    rewrite send_notification_run. cbn [app]. rewrite ?app_nil_r.
    reflexivity.
  - intros x Hdd. unfold bind at 1. rewrite int_setting_run, Hmx.
    unfold bind at 1. rewrite send_notification_run.
    unfold bind at 1. rewrite int_setting_run, Hdd.
    unfold raise. rewrite !app_nil_r. reflexivity.
Qed.

Lemma get_settings_reports_witness :
  WriteChrc.WriteValue "GET_SETTINGS"
    (with_settings
       (JDict [(KStr "settings", JDict [(KStr "maxAngle", JInt 120)])])
       (with_notifying true (logged_in started))) =
    (Raise (FailedException (Str (FailedException (Str KeyError)))),
     with_settings
       (JDict [(KStr "settings", JDict [(KStr "maxAngle", JInt 120)])])
       (with_notifying true (logged_in started)),
     [PropertiesChanged (JDict [(KStr "maxAngle", JInt 120)])]).
Proof.
  destruct (@get_settings_reports host
              (with_settings
                 (JDict [(KStr "settings",
                          JDict [(KStr "maxAngle", JInt 120)])])
                 (with_notifying true (logged_in started)))
              120 eq_refl) as (_ & Hreported).
  destruct (Hreported eq_refl) as (_ & Hfails).
  apply (Hfails KeyError). reflexivity.
Defined.

Lemma key_eqb_class (a b : pykey) :
  key_eqb a b = true <-> key_class a = key_class b.
Proof.
  destruct a as [s | z | x |], b as [t | w | y |]; cbn;
    try (split; [discriminate | discriminate]);
    try (split; reflexivity).
  - rewrite String.eqb_eq. split; [intros -> | intros [=]]; congruence.
  - rewrite Z.eqb_eq. split; [intros -> | intros [=]]; congruence.
  - rewrite Z.eqb_eq. split; [intros -> | intros [=]]; congruence.
  - rewrite Z.eqb_eq. split; [intros -> | intros [=]]; congruence.
  - rewrite Z.eqb_eq. split; [intros -> | intros [=]]; congruence.
Qed.

Lemma key_eqb_refl (k : pykey) : key_eqb k k = true.
Proof. apply key_eqb_class. reflexivity. Qed.

Lemma key_eqb_same_slot (a b c : pykey) :
  key_eqb a b = true -> key_eqb c b = key_eqb c a.
Proof.
  intros Hab. apply key_eqb_class in Hab.
  destruct (key_eqb c b) eqn:Hcb, (key_eqb c a) eqn:Hca; try reflexivity.
  - apply key_eqb_class in Hcb.
    assert (key_eqb c a = true) by (apply key_eqb_class; congruence).
    congruence.
  - apply key_eqb_class in Hca.
    assert (key_eqb c b = true) by (apply key_eqb_class; congruence).
    congruence.
Qed.

Lemma dict_get_set_same (k : pykey) (v : json) (d : list (pykey * json)) :
  dict_get k (dict_set k v d) = Some v.
Proof.
  induction d as [| [k' v'] rest IH]; cbn.
  - rewrite key_eqb_refl. reflexivity.
  - destruct (key_eqb k k') eqn:Hk; cbn; rewrite Hk; [reflexivity | exact IH].
Qed.

Lemma dict_get_set_other (k k' : pykey) (v : json)
      (d : list (pykey * json)) :
  key_eqb k' k = false ->
  dict_get k' (dict_set k v d) = dict_get k' d.
Proof.
  intros Hother. induction d as [| [k0 v0] rest IH]; cbn.
  - rewrite Hother. reflexivity.
  - destruct (key_eqb k k0) eqn:Hk; cbn.
    + rewrite (key_eqb_same_slot k k0 k' Hk), Hother. reflexivity.
    + rewrite IH. reflexivity.
Qed.

Lemma update_accepted `{Platform} (s : NeoService) (body tname kname : string)
      (d v : json) (top section : list (pykey * json)) :
  is_auth s = true -> well_formed body ->
  settings_json s = Holds (JDict top) ->
  dict_get (KStr tname) top = Some (JDict section) ->
  json_loads body = Some d ->
  getitem d (JStr "type") = Return (JStr tname) ->
  getitem d (JStr "key") = Return (JStr kname) ->
  getitem d (JStr "value") = Return v ->
  WriteChrc.WriteValue ("SETTINGS:" ++ body) s =
    (Return tt,
     with_settings
       (JDict (dict_set (KStr tname)
                 (JDict (dict_set (KStr kname) v section)) top))
       (with_settings_json
          (Holds (reload
                    (JDict (dict_set (KStr tname)
                              (JDict (dict_set (KStr kname) v section)) top))))
          s),
     sent (notifying s) (JDict [(KStr kname, v)])).
Proof.
  intros Hauth Hwf Hfile Hsection Hd Htype Hkey Hvalue.
  rewrite (write_settings s body Hauth Hwf).
  unfold guarded, WriteChrc.update_settings, try_except.
  rewrite Hd, bind_return, Htype, bind_return, Hkey, bind_return,
          Hvalue, bind_return.
  unfold bind at 1.
  rewrite (save_json_stored s (JDict top) (JStr tname) (JStr kname) v
             (JDict (dict_set (KStr tname)
                       (JDict (dict_set (KStr kname) v section)) top))
             Hfile).
  - cbn [as_key]. rewrite send_notification_run. reflexivity.
  - unfold setitem2. cbn. rewrite Hsection. reflexivity.
Qed.

(** X13.  An accepted update of the [settings] section can be read back:
    afterwards the cached settings hold the new value under the key, and
    every other setting is what the settings file held before the update
    (not what the cache held). *)
Theorem update_then_lookup `{Platform} (s : NeoService) (body kname : string)
        (d v : json) (top section : list (pykey * json)) :
  is_auth s = true -> well_formed body ->
  settings_json s = Holds (JDict top) ->
  dict_get (KStr "settings") top = Some (JDict section) ->
  json_loads body = Some d ->
  getitem d (JStr "type") = Return (JStr "settings") ->
  getitem d (JStr "key") = Return (JStr kname) ->
  getitem d (JStr "value") = Return v ->
  lookup_setting
    (settings (state_of (WriteChrc.WriteValue ("SETTINGS:" ++ body) s)))
    kname = Return v /\
  (forall other,
     other <> kname ->
     lookup_setting
       (settings (state_of (WriteChrc.WriteValue ("SETTINGS:" ++ body) s)))
       other = lookup_setting (JDict top) other).
Proof.
  intros Hauth Hwf Hfile Hsection Hd Htype Hkey Hvalue.
  rewrite (update_accepted s body "settings" kname d v top section
             Hauth Hwf Hfile Hsection Hd Htype Hkey Hvalue).
  cbn [state_of fst snd settings with_settings].
  unfold lookup_setting, getitem. cbn [as_key].
  rewrite dict_get_set_same, Hsection. cbn [as_key]. split.
  - rewrite dict_get_set_same. reflexivity.
  - intros other Hother.
    rewrite dict_get_set_other; [reflexivity |].
    cbn. apply String.eqb_neq. exact Hother.
Qed.

Lemma update_then_lookup_witness :
  lookup_setting
    (settings (state_of (WriteChrc.WriteValue
       (wire "SETTINGS:{'type':'settings','key':'detectDistance','value':35}")
       (logged_in started))))
    "detectDistance" = Return (JInt 35).
Proof.
  refine (proj1 (@update_then_lookup host (logged_in started)
                   (wire "{'type':'settings','key':'detectDistance','value':35}")
                   "detectDistance"
                   (JDict [(KStr "type", JStr "settings");
                           (KStr "key", JStr "detectDistance");
                           (KStr "value", JInt 35)])
                   (JInt 35)
                   [(KStr "settings",
                     JDict [(KStr "minAngle", JInt 0);
                            (KStr "maxAngle", JInt 180);
                            (KStr "detectDistance", JInt 20)])]
                   [(KStr "minAngle", JInt 0); (KStr "maxAngle", JInt 180);
                    (KStr "detectDistance", JInt 20)]
                   _ _ _ _ _ _ _ _));
    reflexivity.
Defined.

Lemma setitem_hashable (c k v c' : json) :
  setitem c k v = Return c' -> exists key, as_key k = Some key.
Proof.
  destruct c; cbn; try discriminate.
  - destruct k; cbn; try discriminate; eauto.
  - destruct (as_key k) as [key |]; [eauto | discriminate].
Qed.

Lemma setitem2_hashable (c k1 k2 v c' : json) :
  setitem2 c k1 k2 v = Return c' -> exists key, as_key k2 = Some key.
Proof.
  unfold setitem2. destruct (getitem c k1) as [inner | x]; [| discriminate].
  destruct (setitem inner k2 v) as [inner' | x] eqn:Hinner; [| discriminate].
  intros _. exact (setitem_hashable inner k2 v inner' Hinner).
Qed.

Lemma save_json_unreadable `{Platform} (s : NeoService)
      (data_type data_key data_value : json) :
  (forall content, settings_json s <> Holds content) ->
  exists x,
    save_json data_type data_key data_value s = (Raise x, s, []).
Proof.
  intros Hfile. unfold save_json, try_except. rewrite bind_get.
  destruct (settings_json s) as [| | content |];
    [| | exfalso; exact (Hfile content eq_refl) |];
    rewrite bind_raise; eexists; reflexivity.
Qed.

Lemma update_settings_all_or_nothing `{Platform} (body : string)
      (s : NeoService) :
  result_of (WriteChrc.update_settings body s) = Return tt \/
  exists x, WriteChrc.update_settings body s = (Raise x, s, []).
Proof.
  unfold WriteChrc.update_settings, try_except.
  destruct (json_loads body) as [d |];
    [rewrite bind_return | right; rewrite bind_raise; eexists; reflexivity].
  destruct (getitem d (JStr "type")) as [data_type | x];
    [rewrite bind_return
    | right; rewrite bind_raise; destruct x; eexists; reflexivity].
  destruct (getitem d (JStr "key")) as [data_key | x];
    [rewrite bind_return
    | right; rewrite bind_raise; destruct x; eexists; reflexivity].
  destruct (getitem d (JStr "value")) as [data_value | x];
    [rewrite bind_return
    | right; rewrite bind_raise; destruct x; eexists; reflexivity].
  destruct (settings_json s) as [| | content |] eqn:Hfile.
  - right. destruct (save_json_unreadable s data_type data_key data_value)
      as [x Hx]; [intros c; congruence |].
    unfold bind at 1. rewrite Hx. destruct x; eexists; reflexivity.
  - right. destruct (save_json_unreadable s data_type data_key data_value)
      as [x Hx]; [intros c; congruence |].
    unfold bind at 1. rewrite Hx. destruct x; eexists; reflexivity.
  - destruct (setitem2 content data_type data_key data_value)
      as [updated | x] eqn:Hset.
    + left. unfold bind at 1.
      rewrite (save_json_stored s content _ _ _ updated Hfile Hset).
      destruct (setitem2_hashable _ _ _ _ _ Hset) as [key ->].
      rewrite send_notification_run. reflexivity.
    + right. unfold bind at 1.
      rewrite (save_json_refused s content _ _ _ x Hfile Hset).
      eexists; reflexivity.
  - right. destruct (save_json_unreadable s data_type data_key data_value)
      as [x Hx]; [intros c; congruence |].
    unfold bind at 1. rewrite Hx. destruct x; eexists; reflexivity.
Qed.

(** X14.  An update is all or nothing.  Whatever follows [SETTINGS:] in the
    payload of an authenticated client, the command either succeeds, or it
    fails having changed no attribute, written no file and sent nothing. *)
Theorem update_is_all_or_nothing `{Platform} (s : NeoService)
        (body : string) :
  is_auth s = true ->
  result_of (WriteChrc.WriteValue ("SETTINGS:" ++ body) s) = Return tt \/
  exists x,
    WriteChrc.WriteValue ("SETTINGS:" ++ body) s = (Raise x, s, []).
Proof.
  intros Hauth.
  destruct (utf8_scan 0 128 191 body) eqn:Hwf.
  - rewrite (write_settings s body Hauth Hwf).
    unfold guarded, try_except.
    destruct (update_settings_all_or_nothing body s) as [Hdone | [x Hx]].
    + left. unfold result_of in *.
      destruct (WriteChrc.update_settings body s) as [[[[] | x] s1] t1];
        [reflexivity | discriminate Hdone].
    + right. rewrite Hx. eexists; reflexivity.
  - right. rewrite (write_undecodable s ("SETTINGS:" ++ body) Hauth Hwf).
    eexists; reflexivity.
Qed.

Lemma update_is_all_or_nothing_witness :
  result_of (WriteChrc.WriteValue "SETTINGS:{not json"
               (logged_in started)) = Return tt \/
  exists x,
    WriteChrc.WriteValue "SETTINGS:{not json" (logged_in started) =
      (Raise x, logged_in started, []).
Proof.
  apply (@update_is_all_or_nothing host (logged_in started) "{not json").
  reflexivity.
Defined.

(** X15.  An update shows in the next [GET_SETTINGS].  After an accepted
    update of [maxAngle] to a value [int] reads as [m], [GET_SETTINGS]
    reports [maxAngle] as [m], and [detectDistance] as the settings file
    held it.  The three notifications come in this order: the update's own,
    then the two of [GET_SETTINGS]. *)
Theorem update_then_get_settings `{Platform} (s : NeoService) (body : string)
        (d v : json) (m dd : Z) (top section : list (pykey * json)) :
  is_auth s = true -> well_formed body ->
  settings_json s = Holds (JDict top) ->
  dict_get (KStr "settings") top = Some (JDict section) ->
  json_loads body = Some d ->
  getitem d (JStr "type") = Return (JStr "settings") ->
  getitem d (JStr "key") = Return (JStr "maxAngle") ->
  getitem d (JStr "value") = Return v ->
  int_of int_str v = Return m ->
  int_lookup (JDict top) "detectDistance" = Return dd ->
  trace_of ((WriteChrc.WriteValue ("SETTINGS:" ++ body) ;;
             WriteChrc.WriteValue "GET_SETTINGS") s) =
    sent (notifying s) (JDict [(KStr "maxAngle", v)]) ++
    sent (notifying s) (JDict [(KStr "maxAngle", JInt m)]) ++
    sent (notifying s) (JDict [(KStr "detectDistance", JInt dd)]).
Proof.
  intros Hauth Hwf Hfile Hsection Hd Htype Hkey Hvalue Hint Hdd.
  unfold bind.
  rewrite (update_accepted s body "settings" "maxAngle" d v top section
             Hauth Hwf Hfile Hsection Hd Htype Hkey Hvalue).
  match goal with
  | |- context [WriteChrc.WriteValue "GET_SETTINGS" ?s1] =>
      set (after := s1)
  end.
  assert (Hmx : int_lookup (settings after) "maxAngle" = Return m).
  { unfold after, int_lookup, lookup_setting, getitem.
    cbn [settings with_settings as_key].
    rewrite dict_get_set_same. cbn [as_key].
    rewrite dict_get_set_same. exact Hint. }
  assert (Hdd' : int_lookup (settings after) "detectDistance" = Return dd).
  { rewrite <- Hdd.
    unfold after, int_lookup, lookup_setting, getitem.
    cbn [settings with_settings as_key].
    rewrite dict_get_set_same, Hsection. cbn [as_key].
    rewrite dict_get_set_other by reflexivity. reflexivity. }
  rewrite (write_get_settings after) by exact Hauth.
  unfold guarded, WriteChrc.get_settings, try_except.
  unfold bind at 1. rewrite int_setting_run, Hmx.
  unfold bind at 1. rewrite send_notification_run.
  unfold bind at 1. rewrite int_setting_run, Hdd'.
  rewrite send_notification_run.
  cbn [trace_of snd app]. rewrite ?app_nil_r. reflexivity.
Qed.

Lemma update_then_get_settings_witness :
  trace_of ((WriteChrc.WriteValue
               (wire "SETTINGS:{'type':'settings','key':'maxAngle','value':'90'}") ;;
             WriteChrc.WriteValue "GET_SETTINGS")
              (with_notifying true (logged_in started))) =
    [PropertiesChanged (JDict [(KStr "maxAngle", JStr "90")]);
     PropertiesChanged (JDict [(KStr "maxAngle", JInt 90)]);
     PropertiesChanged (JDict [(KStr "detectDistance", JInt 20)])].
Proof.
  refine (@update_then_get_settings host
            (with_notifying true (logged_in started))
            (wire "{'type':'settings','key':'maxAngle','value':'90'}")
            (JDict [(KStr "type", JStr "settings");
                    (KStr "key", JStr "maxAngle");
                    (KStr "value", JStr "90")])
            (JStr "90") 90 20
            [(KStr "settings",
              JDict [(KStr "minAngle", JInt 0); (KStr "maxAngle", JInt 180);
                     (KStr "detectDistance", JInt 20)])]
            [(KStr "minAngle", JInt 0); (KStr "maxAngle", JInt 180);
             (KStr "detectDistance", JInt 20)]
            _ _ _ _ _ _ _ _ _ _);
    reflexivity.
Defined.

(** ** Wi-Fi credentials *)

Lemma split_lacks (sep : ascii) (s : string) :
  lacks sep s = true -> split sep s = [s].
Proof.
  induction s as [| c r IH]; cbn [lacks split]; [reflexivity |].
  intros Hlacks. apply andb_true_iff in Hlacks. destruct Hlacks as [Hc Hr].
  apply negb_true_iff in Hc. rewrite Hc, (IH Hr). reflexivity.
Qed.

Lemma split_field (sep : ascii) (a b : string) :
  lacks sep a = true ->
  split sep (a ++ String sep b) = a :: split sep b.
Proof.
  induction a as [| c r IH]; cbn [lacks split String.append].
  - intros _. rewrite Ascii.eqb_refl. reflexivity.
  - intros Hlacks. apply andb_true_iff in Hlacks. destruct Hlacks as [Hc Hr].
    apply negb_true_iff in Hc. rewrite Hc, (IH Hr). reflexivity.
Qed.

Lemma utf8_scan_start (lo hi : N) (s : string) :
  utf8_scan 0 lo hi s = utf8_scan 0 128 191 s.
Proof. destruct s; reflexivity. Qed.

Lemma utf8_scan_app (a b : string) :
  forall pending lo hi,
    utf8_scan pending lo hi a = true ->
    utf8_scan pending lo hi (a ++ b) = utf8_scan 0 128 191 b.
Proof.
  induction a as [| c r IH]; intros pending lo hi.
  - destruct pending; [| discriminate]. intros _. apply utf8_scan_start.
  - cbn [utf8_scan String.append]. cbv zeta.
    destruct pending.
    + repeat match goal with
             | |- context [if ?c then _ else _] => destruct c
             end; try discriminate; apply IH.
    + destruct ((lo <=? N_of_ascii c) && (N_of_ascii c <=? hi))%N;
        [apply IH | discriminate].
Qed.

Lemma well_formed_app (a b : string) :
  well_formed a -> well_formed b -> well_formed (a ++ b).
Proof.
  unfold well_formed. intros Ha Hb.
  rewrite (utf8_scan_app a b 0 128 191 Ha). exact Hb.
Qed.

Lemma write_connect `{Platform} (s : NeoService) (rest : string) :
  is_auth s = true -> well_formed rest ->
  WriteChrc.WriteValue ("CONNECT:" ++ rest) s =
    guarded (WriteChrc.connect_to_wifi rest) s.
Proof.
  intros Hauth Hwf.
  rewrite (write_value_authenticated s _ Hauth) by exact Hwf.
  destruct (startswith_connect rest) as (-> & ->). reflexivity.
Qed.

Lemma connect_arguments (ssid password : string) :
  existsb has_nul ["sudo"; "nmcli"; "device"; "wifi"; "connect"; ssid;
                   "password"; password] =
    has_nul ssid || has_nul password.
Proof. cbn. rewrite orb_false_r. reflexivity. Qed.

Lemma connect_to_wifi_fields `{Platform} (s : NeoService)
      (command ssid password : string) (more : list string) :
  split ":" command = ssid :: password :: more ->
  has_nul ssid || has_nul password = false ->
  WriteChrc.connect_to_wifi command s =
    (Return tt, s,
     subprocess_run ["sudo"; "nmcli"; "device"; "wifi"; "connect"; ssid;
                     "password"; password] ::
     wifi_calls s ++
     sent (notifying s)
          (JDict [(KStr "WiFiConnectionData", wifi_report s)])).
Proof.
  intros Hsplit Hclean. unfold WriteChrc.connect_to_wifi.
  rewrite Hsplit. cbn [nth_error]. rewrite !bind_return.
  unfold bind at 1.
  rewrite run_process_clean by (rewrite connect_arguments; exact Hclean).
  destruct (nmcli_connect ssid password);
    rewrite report_wifi_run; reflexivity.
Qed.

Lemma connect_to_wifi_nul `{Platform} (s : NeoService)
      (command ssid password : string) (more : list string) :
  split ":" command = ssid :: password :: more ->
  has_nul ssid || has_nul password = true ->
  WriteChrc.connect_to_wifi command s = (Raise ValueError, s, []).
Proof.
  intros Hsplit Hnul. unfold WriteChrc.connect_to_wifi.
  rewrite Hsplit. cbn [nth_error]. rewrite !bind_return.
  unfold bind at 1.
  rewrite run_process_nul by (rewrite connect_arguments; exact Hnul).
  reflexivity.
Qed.

Lemma connect_to_wifi_two_fields `{Platform} (s : NeoService)
      (command command' ssid password : string) (more more' : list string) :
  split ":" command = ssid :: password :: more ->
  split ":" command' = ssid :: password :: more' ->
  WriteChrc.connect_to_wifi command s = WriteChrc.connect_to_wifi command' s.
Proof.
  intros Hsplit Hsplit'. unfold WriteChrc.connect_to_wifi.
  rewrite Hsplit, Hsplit'. reflexivity.
Qed.

(** X16.  What [CONNECT:] hands to [nmcli].  For an authenticated client
    and a name and a password without a colon: when neither holds a NUL
    character, [CONNECT:<ssid>:<password>] runs [nmcli device wifi connect]
    with exactly that name and password, then the commands of
    [get_wifi_status], and then reports the Wi-Fi status once, whether or
    not [nmcli] succeeded; when one of them holds a NUL character the write
    fails with the wrapped [ValueError] and nothing is run.  Anything after
    a further colon is dropped, so the command with [:<more>] appended does
    the same.  A payload without any colon after [CONNECT:] fails with the
    wrapped [IndexError], nothing having been run. *)
Theorem connect_reads_two_fields `{Platform} (s : NeoService)
        (ssid password more : string) :
  is_auth s = true ->
  well_formed ssid -> well_formed password -> well_formed more ->
  lacks ":" ssid = true -> lacks ":" password = true ->
  (has_nul ssid || has_nul password = false ->
   WriteChrc.WriteValue ("CONNECT:" ++ ssid ++ ":" ++ password) s =
     (Return tt, s,
      subprocess_run ["sudo"; "nmcli"; "device"; "wifi"; "connect"; ssid;
                      "password"; password] ::
      wifi_calls s ++
      sent (notifying s)
           (JDict [(KStr "WiFiConnectionData", wifi_report s)]))) /\
  (has_nul ssid || has_nul password = true ->
   WriteChrc.WriteValue ("CONNECT:" ++ ssid ++ ":" ++ password) s =
     (Raise (FailedException (Str ValueError)), s, [])) /\
  WriteChrc.WriteValue
    ("CONNECT:" ++ ssid ++ ":" ++ password ++ ":" ++ more) s =
    WriteChrc.WriteValue ("CONNECT:" ++ ssid ++ ":" ++ password) s /\
  WriteChrc.WriteValue ("CONNECT:" ++ ssid) s =
    (Raise (FailedException (Str IndexError)), s, []).
Proof.
  intros Hauth Hssid Hpassword Hmore Hs Hp.
  assert (Hcolon : forall text, well_formed text -> well_formed (":" ++ text))
    by (intros text Htext; exact Htext).
  assert (Hpair : split ":" (ssid ++ ":" ++ password) = [ssid; password]).
  { change (ssid ++ ":" ++ password)%string
      with (ssid ++ String ":" password)%string.
    rewrite (split_field ":" ssid password Hs), (split_lacks ":" password Hp).
    reflexivity. }
  assert (Hlonger : split ":" (ssid ++ ":" ++ password ++ ":" ++ more) =
                      ssid :: password :: split ":" more).
  { change (ssid ++ ":" ++ password ++ ":" ++ more)%string
      with (ssid ++ String ":" (password ++ String ":" more))%string.
    rewrite (split_field ":" ssid _ Hs), (split_field ":" password more Hp).
    reflexivity. }
  assert (Hwf : well_formed (ssid ++ ":" ++ password))
    by (apply well_formed_app; [exact Hssid | apply Hcolon; exact Hpassword]).
  repeat apply conj.
  - intros Hclean. rewrite (write_connect s _ Hauth Hwf).
    unfold guarded, try_except.
    rewrite (connect_to_wifi_fields s _ ssid password [] Hpair Hclean).
    reflexivity.
  - intros Hnul. rewrite (write_connect s _ Hauth Hwf).
    unfold guarded, try_except.
    rewrite (connect_to_wifi_nul s _ ssid password [] Hpair Hnul).
    reflexivity.
  - rewrite (write_connect s _ Hauth Hwf).
    rewrite (write_connect s _ Hauth)
      by (apply well_formed_app; [exact Hssid |];
          apply Hcolon, well_formed_app; [exact Hpassword |];
          apply Hcolon; exact Hmore).
    unfold guarded, try_except.
    rewrite (connect_to_wifi_two_fields s _ _ ssid password _ _
               Hlonger Hpair).
    reflexivity.
  - rewrite (write_connect s _ Hauth) by exact Hssid.
    unfold guarded, try_except, WriteChrc.connect_to_wifi.
    rewrite (split_lacks ":" ssid Hs). cbn [nth_error].
    rewrite bind_return, bind_raise. reflexivity.
Qed.

Lemma connect_reads_two_fields_witness :
  WriteChrc.WriteValue "CONNECT:home:secret" (logged_in started) =
    (Return tt, logged_in started,
     [subprocess_run ["sudo"; "nmcli"; "device"; "wifi"; "connect"; "home";
                      "password"; "secret"];
      subprocess_run ["nmcli"; "-t"; "-f"; "TYPE,NAME,DEVICE,STATE";
                      "connection"; "show"; "--active"]]) /\
  WriteChrc.WriteValue "CONNECT:home:secret:more" (logged_in started) =
    WriteChrc.WriteValue "CONNECT:home:secret" (logged_in started) /\
  WriteChrc.WriteValue "CONNECT:home" (logged_in started) =
    (Raise (FailedException (Str IndexError)), logged_in started, []).
Proof.
  destruct (@connect_reads_two_fields host (logged_in started)
              "home" "secret" "more" eq_refl eq_refl eq_refl eq_refl
              eq_refl eq_refl) as (Hclean & _ & Hmore & Hnone).
  split; [exact (Hclean eq_refl) | split; [exact Hmore | exact Hnone]].
Defined.

(** ** One command after another *)

Lemma write_apart_from_lid `{Platform} (s : NeoService) (value : string) :
  startswith value "SETTINGS:" = false -> value <> "STATUS" ->
  apart_from_lid s (state_of (WriteChrc.WriteValue value s)).
Proof.
  intros Hprefix Hstatus.
  apply (keeps_write_value (apart_from_lid s) (fun _ => True) value);
    try (intros; exact I).
  - intros a s' Hs a' o'. exact (Hs a' o').
  - intros o s' Hs a' o'. exact (Hs a' o').
  - intros data. apply keeps_send_notification. trivial.
  - intros a. apply keeps_set_servo_angle. trivial.
  - intros Hyes. congruence.
  - intros Hyes. apply String.eqb_eq in Hyes. contradiction.
  - intros a o. reflexivity.
Qed.

Lemma apart_from_lid_reads (s s' : NeoService) :
  apart_from_lid s s' ->
  is_auth s' = is_auth s /\ status s' = status s /\
  settings s' = settings s /\ notifying s' = notifying s.
Proof.
  intros Hs. specialize (Hs 0 false).
  repeat split.
  - exact (f_equal is_auth Hs).
  - exact (f_equal status Hs).
  - exact (f_equal settings Hs).
  - exact (f_equal notifying Hs).
Qed.

Lemma write_open_on `{Platform} (s : NeoService) (mn mx : Z) :
  is_auth s = true -> status s = true -> configured s mn mx ->
  WriteChrc.WriteValue "OPEN" s =
    (Return tt, moved mn mx mx s,
     pulse_for mn mx mx ++
     reports (notifying s) mx ((mx >=? mx) && (mx >? mn))).
Proof.
  intros Hauth Hon Hc.
  rewrite (write_value_authenticated s "OPEN" Hauth) by reflexivity.
  change (guarded WriteChrc.set_open s = (Return tt, moved mn mx mx s,
            pulse_for mn mx mx ++
            reports (notifying s) mx ((mx >=? mx) && (mx >? mn)))).
  unfold guarded, try_except. rewrite (set_open_on s mn mx Hon Hc).
  reflexivity.
Qed.

Lemma write_close_on `{Platform} (s : NeoService) (mn mx : Z) :
  is_auth s = true -> status s = true -> configured s mn mx ->
  WriteChrc.WriteValue "CLOSE" s =
    (Return tt, moved mn mx mn s,
     pulse_for mn mx mn ++
     reports (notifying s) mn ((mx >=? mn) && (mn >? mn))).
Proof.
  intros Hauth Hon Hc.
  rewrite (write_value_authenticated s "CLOSE" Hauth) by reflexivity.
  change (guarded WriteChrc.set_close s = (Return tt, moved mn mx mn s,
            pulse_for mn mx mn ++
            reports (notifying s) mn ((mx >=? mn) && (mn >? mn)))).
  unfold guarded, try_except. rewrite (set_close_on s mn mx Hon Hc).
  reflexivity.
Qed.

Lemma configured_same `{Platform} (s s' : NeoService) (mn mx : Z) :
  settings s' = settings s -> configured s mn mx -> configured s' mn mx.
Proof. unfold configured. intros ->. trivial. Qed.

(** X17.  The last move wins.  With the device on and integer limits in
    the settings, [OPEN] and [CLOSE] leave the service, and make the calls,
    that they would have without the write before them, whatever that write
    was and whether it succeeded or failed, as long as it was neither
    [STATUS] nor a [SETTINGS:] update. *)
Theorem last_move_wins `{Platform} (s : NeoService) (mn mx : Z)
        (earlier move : string) :
  is_auth s = true -> status s = true -> configured s mn mx ->
  startswith earlier "SETTINGS:" = false -> earlier <> "STATUS" ->
  move = "OPEN" \/ move = "CLOSE" ->
  WriteChrc.WriteValue move (state_of (WriteChrc.WriteValue earlier s)) =
    WriteChrc.WriteValue move s.
Proof.
  intros Hauth Hon Hc Hprefix Hstatus Hmove.
  pose proof (write_apart_from_lid s earlier Hprefix Hstatus) as Hapart.
  destruct (apart_from_lid_reads _ _ Hapart) as (Ha & Hs & Hcfg & Hn).
  set (s1 := state_of (WriteChrc.WriteValue earlier s)) in *.
  assert (Hauth1 : is_auth s1 = true) by congruence.
  assert (Hon1 : status s1 = true) by congruence.
  pose proof (configured_same s s1 mn mx Hcfg Hc) as Hc1.
  destruct Hmove as [-> | ->].
  - rewrite (write_open_on s1 mn mx Hauth1 Hon1 Hc1),
            (write_open_on s mn mx Hauth Hon Hc), Hn.
    unfold moved. rewrite (Hapart mx _). reflexivity.
  - rewrite (write_close_on s1 mn mx Hauth1 Hon1 Hc1),
            (write_close_on s mn mx Hauth Hon Hc), Hn.
    unfold moved. rewrite (Hapart mn _). reflexivity.
Qed.

Lemma last_move_wins_witness :
  WriteChrc.WriteValue "CLOSE"
    (state_of (WriteChrc.WriteValue "ANGLE:75" (logged_in started))) =
    WriteChrc.WriteValue "CLOSE" (logged_in started).
Proof.
  apply (@last_move_wins host (logged_in started) 0 180 "ANGLE:75" "CLOSE");
    first [reflexivity | split; reflexivity | discriminate
          | right; reflexivity].
Defined.

(** ** Without the password *)

Lemma read_not_authenticated (s : NeoService) (options : json) :
  is_auth s = false ->
  InformChrc.ReadValue options s =
    (Raise (FailedException (Text "Not authenticated")), s, []).
Proof.
  intros Hauth. unfold InformChrc.ReadValue. rewrite bind_get.
  unfold is_authenticated. rewrite Hauth. reflexivity.
Qed.

Lemma start_notify_locked (s : NeoService) :
  is_auth s = false ->
  state_of (InformChrc.StartNotify s) = s /\
  trace_of (InformChrc.StartNotify s) = [].
Proof.
  intros Hauth. unfold InformChrc.StartNotify. rewrite bind_get.
  unfold is_authenticated. rewrite Hauth.
  destruct (notifying s); split; reflexivity.
Qed.

Lemma stop_notify_run (s : NeoService) :
  InformChrc.StopNotify s = (Return tt, with_notifying false s, []).
Proof.
  unfold InformChrc.StopNotify. rewrite bind_get.
  destruct (notifying s) eqn:Hn; cbn.
  - reflexivity.
  - rewrite (with_notifying_already s false Hn). reflexivity.
Qed.

Lemma serve_locked `{Platform} (r : request) (s : NeoService) :
  is_auth s = false ->
  exists n,
    serve r s = (with_notifying n s, []) /\
    (n = true -> notifying s = true).
Proof.
  intros Hauth.
  destruct r as [value | options | |]; cbn [serve].
  - exists (notifying s).
    rewrite (write_not_authenticated s value Hauth), with_notifying_same.
    split; [reflexivity | trivial].
  - exists (notifying s).
    rewrite (read_not_authenticated s options Hauth), with_notifying_same.
    split; [reflexivity | trivial].
  - exists (notifying s).
    destruct (start_notify_locked s Hauth) as [-> ->].
    rewrite with_notifying_same. split; [reflexivity | trivial].
  - exists false. rewrite stop_notify_run.
    split; [reflexivity | discriminate].
Qed.

(** X18.  Without the password a client achieves nothing.  While [is_auth]
    is cleared, any sequence of writes to the command characteristic, reads,
    [StartNotify] and [StopNotify] makes no call at all (no servo movement,
    no notification, no subprocess), and leaves every attribute as it was
    except that the subscription may have been dropped; it is never
    gained. *)
Theorem locked_out `{Platform} (requests : list request) (s : NeoService) :
  is_auth s = false ->
  exists n,
    serve_all requests s = (with_notifying n s, []) /\
    (n = true -> notifying s = true).
Proof.
  revert s. induction requests as [| r rest IH]; intros s Hauth.
  - exists (notifying s). rewrite with_notifying_same.
    split; [reflexivity | trivial].
  - cbn [serve_all].
    destruct (serve_locked r s Hauth) as (n1 & -> & Hn1).
    destruct (IH (with_notifying n1 s) Hauth) as (n2 & -> & Hn2).
    exists n2. split; [reflexivity |].
    intros Hyes. apply Hn1. exact (Hn2 Hyes).
Qed.

Lemma locked_out_witness :
  exists n,
    serve_all [Write "OPEN"; Subscribe; Read (JStr "ANGLE"); Unsubscribe;
               Write "STATUS"] (with_notifying true started) =
      (with_notifying n (with_notifying true started), []) /\
    (n = true -> notifying (with_notifying true started) = true).
Proof.
  apply (@locked_out host
           [Write "OPEN"; Subscribe; Read (JStr "ANGLE"); Unsubscribe;
            Write "STATUS"] (with_notifying true started)).
  reflexivity.
Defined.

(** ** The settings file and its cached copy *)

Lemma json_nested_ind (P : json -> Prop) :
  P JNull -> (forall b, P (JBool b)) -> (forall z, P (JInt z)) ->
  (forall s, P (JStr s)) ->
  (forall l, Forall P l -> P (JList l)) ->
  (forall d, Forall (fun kv : pykey * json => P (snd kv)) d -> P (JDict d)) ->
  forall j, P j.
Proof.
  intros HN HB HI HS HL HD. fix IH 1. intros [| b | z | s | l | d].
  - exact HN.
  - apply HB.
  - apply HI.
  - apply HS.
  - apply HL. induction l as [| x l IHl]; constructor; [apply IH | exact IHl].
  - apply HD. induction d as [| [k v] d IHd]; constructor;
      [apply IH | exact IHd].
Qed.

Lemma key_eqb_sym (a b : pykey) : key_eqb a b = key_eqb b a.
Proof.
  destruct a, b; cbn; try reflexivity;
    first [apply String.eqb_sym | apply Z.eqb_sym].
Qed.

Lemma dict_set_absent (k : pykey) (v : json) (d : list (pykey * json)) :
  absent k d = true -> dict_set k v d = d ++ [(k, v)].
Proof.
  induction d as [| [k' v'] rest IH]; cbn [absent dict_set app];
    [reflexivity |].
  intros Habsent. apply andb_true_iff in Habsent.
  destruct Habsent as [Hk Hrest]. apply negb_true_iff in Hk.
  rewrite Hk, (IH Hrest). reflexivity.
Qed.

Lemma absent_app (k : pykey) (d e : list (pykey * json)) :
  absent k (d ++ e) = absent k d && absent k e.
Proof.
  induction d as [| [k' v'] rest IH]; cbn [absent app]; [reflexivity |].
  rewrite IH, andb_assoc. reflexivity.
Qed.

Lemma absent_in (k : pykey) (d : list (pykey * json)) (kv : pykey * json) :
  absent k d = true -> In kv d -> key_eqb k (fst kv) = false.
Proof.
  induction d as [| [k' v'] rest IH]; cbn [absent In]; [contradiction |].
  intros Habsent. apply andb_true_iff in Habsent.
  destruct Habsent as [Hk Hrest]. apply negb_true_iff in Hk.
  intros [<- | Hin]; [exact Hk | exact (IH Hrest Hin)].
Qed.

Lemma dict_get_present (k : pykey) (d : list (pykey * json)) (x : json) :
  dict_get k d = Some x -> absent k d = false.
Proof.
  induction d as [| [k' v'] rest IH]; cbn [absent dict_get]; [discriminate |].
  destruct (key_eqb k k'); [reflexivity |].
  intros Hget. exact (IH Hget).
Qed.

Lemma absent_dict_set (k1 k : pykey) (v : json) (d : list (pykey * json)) :
  absent k1 d = true -> key_eqb k1 k = false ->
  absent k1 (dict_set k v d) = true.
Proof.
  intros Habsent Hne.
  induction d as [| [k2 v2] rest IH]; cbn [absent dict_set] in *.
  - rewrite Hne. reflexivity.
  - apply andb_true_iff in Habsent. destruct Habsent as [Hk Hrest].
    destruct (key_eqb k k2); cbn [absent]; rewrite Hk; cbn [andb];
      [exact Hrest | exact (IH Hrest)].
Qed.

Lemma distinct_dict_set (k : pykey) (v : json) (d : list (pykey * json)) :
  distinct d = true -> distinct (dict_set k v d) = true.
Proof.
  induction d as [| [k1 v1] rest IH]; cbn [distinct dict_set];
    [reflexivity |].
  intros Hd. apply andb_true_iff in Hd. destruct Hd as [Hk Hrest].
  destruct (key_eqb k k1) eqn:Hsame; cbn [distinct].
  - rewrite Hk, Hrest. reflexivity.
  - rewrite (IH Hrest), andb_true_r.
    apply absent_dict_set; [exact Hk |].
    rewrite key_eqb_sym. exact Hsame.
Qed.

Lemma fields_dict_set (k : pykey) (v : json) (d : list (pykey * json)) :
  forallb (fun kv : pykey * json => let (k, v) := kv in
                                    is_text k && plain v) d = true ->
  plain v = true ->
  is_text k = true \/ absent k d = false ->
  forallb (fun kv : pykey * json => let (k, v) := kv in
                                    is_text k && plain v)
          (dict_set k v d) = true.
Proof.
  intros Hd Hv.
  induction d as [| [k1 v1] rest IH]; cbn [forallb dict_set absent] in *.
  - intros [Htext | Hpresent]; [| discriminate].
    rewrite Htext, Hv. reflexivity.
  - apply andb_true_iff in Hd. destruct Hd as [Hfield Hrest].
    apply andb_true_iff in Hfield. destruct Hfield as [Htext1 Hplain1].
    intros Hkey. destruct (key_eqb k k1); cbn [forallb negb andb] in *.
    + rewrite Htext1, Hv, Hrest. reflexivity.
    + rewrite Htext1, Hplain1. cbn [andb]. apply (IH Hrest). exact Hkey.
Qed.

Lemma plain_dict_set (k : pykey) (v : json) (d : list (pykey * json)) :
  plain (JDict d) = true -> plain v = true ->
  is_text k = true \/ absent k d = false ->
  plain (JDict (dict_set k v d)) = true.
Proof.
  cbn [plain]. intros Hd Hv Hkey.
  apply andb_true_iff in Hd. destruct Hd as [Hfields Hdistinct].
  rewrite (fields_dict_set k v d Hfields Hv Hkey).
  rewrite (distinct_dict_set k v d Hdistinct). reflexivity.
Qed.

Lemma plain_dict_get (k : pykey) (d : list (pykey * json)) (x : json) :
  plain (JDict d) = true -> dict_get k d = Some x -> plain x = true.
Proof.
  cbn [plain]. intros Hd. apply andb_true_iff in Hd.
  destruct Hd as [Hfields _].
  induction d as [| [k1 v1] rest IH]; cbn [forallb dict_get] in *;
    [discriminate |].
  apply andb_true_iff in Hfields. destruct Hfields as [Hfield Hrest].
  apply andb_true_iff in Hfield. destruct Hfield as [_ Hplain1].
  destruct (key_eqb k k1); [| exact (IH Hrest)].
  intros Hget. injection Hget as <-. exact Hplain1.
Qed.

Lemma plain_nth (l : list json) (n : nat) (x : json) :
  forallb plain l = true -> nth_error l n = Some x -> plain x = true.
Proof.
  revert n. induction l as [| y r IH]; intros [| n]; cbn [forallb nth_error];
    try discriminate.
  - intros Hl Hn. injection Hn as <-.
    apply andb_true_iff in Hl. exact (proj1 Hl).
  - intros Hl. apply andb_true_iff in Hl. exact (IH n (proj2 Hl)).
Qed.

Lemma plain_list_set (l : list json) (n : nat) (x : json) :
  forallb plain l = true -> plain x = true ->
  forallb plain (list_set n x l) = true.
Proof.
  intros Hl Hx. revert n.
  induction l as [| y r IH]; intros [| n]; cbn [forallb list_set] in *;
    try reflexivity.
  - apply andb_true_iff in Hl. rewrite Hx, (proj2 Hl). reflexivity.
  - apply andb_true_iff in Hl. rewrite (proj1 Hl), (IH (proj2 Hl) n).
    reflexivity.
Qed.

Lemma getitem_plain (c k x : json) :
  plain c = true -> getitem c k = Return x -> plain x = true.
Proof.
  intros Hc. destruct c as [| b | z | s | l | d]; cbn [getitem];
    try discriminate.
  - destruct (as_index k) as [i |]; [| discriminate].
    destruct (norm_index _ i) as [n |]; [| discriminate].
    destruct (nth_error _ n) as [ch |]; [| discriminate].
    intros Hx. injection Hx as <-. reflexivity.
  - destruct (as_index k) as [i |]; [| discriminate].
    destruct (norm_index _ i) as [n |]; [| discriminate].
    destruct (nth_error l n) as [y |] eqn:Hn; [| discriminate].
    intros Hx. injection Hx as <-. exact (plain_nth l n y Hc Hn).
  - destruct (as_key k) as [key |]; [| discriminate].
    destruct (dict_get key d) as [y |] eqn:Hget; [| discriminate].
    intros Hx. injection Hx as <-. exact (plain_dict_get key d y Hc Hget).
Qed.

(** Storing a plain value under a text key, or at a place that is there
    already, keeps a document plain. *)
Lemma setitem_plain (c k v c' : json) :
  plain c = true -> plain v = true ->
  (exists name, k = JStr name) \/ (exists x, getitem c k = Return x) ->
  setitem c k v = Return c' -> plain c' = true.
Proof.
  intros Hc Hv Hkey. destruct c as [| b | z | s | l | d]; cbn [setitem];
    try discriminate.
  - destruct (as_index k) as [i |]; [| discriminate].
    destruct (norm_index _ i) as [n |]; [| discriminate].
    intros Hset. injection Hset as <-.
    exact (plain_list_set l n v Hc Hv).
  - destruct (as_key k) as [key |] eqn:Hk; [| discriminate].
    intros Hset. injection Hset as <-.
    apply (plain_dict_set key v d Hc Hv).
    destruct Hkey as [[name ->] | [x Hget]].
    + left. injection Hk as <-. reflexivity.
    + right. cbn [getitem] in Hget. rewrite Hk in Hget.
      destruct (dict_get key d) as [y |] eqn:Hfound; [| discriminate].
      exact (dict_get_present key d y Hfound).
Qed.

Lemma setitem2_plain (c k1 v updated : json) (name : string) :
  plain c = true -> plain v = true ->
  setitem2 c k1 (JStr name) v = Return updated -> plain updated = true.
Proof.
  intros Hc Hv. unfold setitem2.
  destruct (getitem c k1) as [inner | x] eqn:Hget; [| discriminate].
  destruct (setitem inner (JStr name) v) as [inner' | x] eqn:Hinner;
    [| discriminate].
  intros Houter.
  apply (setitem_plain c k1 inner' updated Hc); [| eauto | exact Houter].
  apply (setitem_plain inner (JStr name) v inner'
           (getitem_plain c k1 inner Hc Hget) Hv); [eauto | exact Hinner].
Qed.

Lemma reload_fields (d : list (pykey * json)) :
  forall acc,
    forallb (fun kv : pykey * json => is_text (fst kv)) d = true ->
    distinct d = true ->
    (forall kv, In kv d -> absent (fst kv) acc = true) ->
    fold_left
      (fun acc (kv : pykey * json) =>
         dict_set (KStr (dumped_key (fst kv))) (snd kv) acc) d acc =
      acc ++ d.
Proof.
  induction d as [| [k v] rest IH]; intros acc Htext Hdistinct Hfree;
    cbn [fold_left forallb distinct fst snd] in *.
  - rewrite app_nil_r. reflexivity.
  - apply andb_true_iff in Htext. destruct Htext as [Hk Hrest].
    apply andb_true_iff in Hdistinct. destruct Hdistinct as [Hfirst Hothers].
    destruct k as [name | | |]; try discriminate. cbn [dumped_key].
    rewrite (dict_set_absent (KStr name) v acc
               (Hfree (KStr name, v) (or_introl eq_refl))).
    rewrite (IH (acc ++ [(KStr name, v)]) Hrest Hothers).
    + rewrite <- app_assoc. reflexivity.
    + intros kv Hin. rewrite absent_app.
      rewrite (Hfree kv (or_intror Hin)). cbn [absent andb].
      rewrite key_eqb_sym, (absent_in (KStr name) rest kv Hfirst Hin).
      reflexivity.
Qed.

(** Dumping a plain document and loading it again gives it back. *)
Lemma reload_plain : forall j, plain j = true -> reload j = j.
Proof.
  apply (json_nested_ind (fun j => plain j = true -> reload j = j));
    try reflexivity.
  - intros l IH. cbn [plain reload]. intros Hl. f_equal.
    induction IH as [| x r Hx _ IHr]; cbn [map forallb] in *; [reflexivity |].
    apply andb_true_iff in Hl. destruct Hl as [Hplain Hrest].
    rewrite (Hx Hplain), (IHr Hrest). reflexivity.
  - intros d IH. cbn [plain reload]. intros Hd.
    apply andb_true_iff in Hd. destruct Hd as [Hfields Hdistinct].
    assert (Hmap : map (fun kv : pykey * json =>
                          let (k, v) := kv in (k, reload v)) d = d).
    { clear Hdistinct.
      induction IH as [| [k v] r Hx _ IHr]; cbn [map forallb snd] in *;
        [reflexivity |].
      apply andb_true_iff in Hfields. destruct Hfields as [Hfield Hrest].
      apply andb_true_iff in Hfield. destruct Hfield as [_ Hplain].
      rewrite (Hx Hplain), (IHr Hrest). reflexivity. }
    rewrite Hmap. f_equal.
    apply (reload_fields d []); [| exact Hdistinct | reflexivity].
    clear - Hfields.
    induction d as [| [k v] r IHr]; cbn [forallb fst] in *; [reflexivity |].
    apply andb_true_iff in Hfields. destruct Hfields as [Hfield Hrest].
    apply andb_true_iff in Hfield. destruct Hfield as [Htext _].
    rewrite Htext, (IHr Hrest). reflexivity.
Qed.

(** X19.  The file and its cached copy agree after a save.  When the
    settings file holds a document as [json.load] returns one, and the
    value stored is such a document too, a successful [save_json] under a
    text key leaves [self.settings] equal to what the file now holds, so
    what the device acts on until the next restart is what it will load
    then. *)
Theorem save_json_cache_matches_file `{Platform} (s : NeoService)
        (content data_type data_value updated : json) (name : string) :
  settings_json s = Holds content ->
  plain content = true -> plain data_value = true ->
  setitem2 content data_type (JStr name) data_value = Return updated ->
  save_json data_type (JStr name) data_value s =
    (Return true,
     with_settings updated (with_settings_json (Holds updated) s), []) /\
  settings_json (state_of (save_json data_type (JStr name) data_value s)) =
    Holds (settings (state_of (save_json data_type (JStr name) data_value s))).
Proof.
  intros Hfile Hcontent Hvalue Hset.
  rewrite (save_json_stored s content _ _ _ updated Hfile Hset).
  rewrite (reload_plain updated
             (setitem2_plain content data_type data_value updated name
                Hcontent Hvalue Hset)).
  split; reflexivity.
Qed.

Lemma save_json_cache_matches_file_witness :
  settings_json
    (state_of (save_json (JStr "settings") (JStr "maxAngle") (JInt 90)
                 started)) =
    Holds (settings
             (state_of (save_json (JStr "settings") (JStr "maxAngle") (JInt 90)
                          started))).
Proof.
  refine (proj2 (@save_json_cache_matches_file host started
                   default_settings (JStr "settings") (JInt 90)
                   (JDict [(KStr "settings",
                            JDict [(KStr "minAngle", JInt 0);
                                   (KStr "maxAngle", JInt 90);
                                   (KStr "detectDistance", JInt 20)])])
                   "maxAngle" _ _ _ _));
    reflexivity.
Defined.

(** ** The settings files at start-up *)

(** X20.  A first start creates the settings.  When [settings.json] is
    missing and [default.json] is missing too or holds a document,
    [read_json] returns that document (the built-in defaults when
    [default.json] was missing), leaves both files holding it, and a
    second [read_json] returns the same document and writes nothing. *)
Theorem read_json_creates (d : disk) :
  settings_file d = Missing ->
  default_file d <> Corrupt -> default_file d <> NotText ->
  (forall content, default_file d = Holds content -> plain content = true) ->
  exists v,
    read_json d =
      (Return v, {| settings_file := Holds v; default_file := Holds v |}) /\
    (default_file d = Missing -> v = default_settings) /\
    (forall content, default_file d = Holds content -> v = content) /\
    read_json {| settings_file := Holds v; default_file := Holds v |} =
      (Return v, {| settings_file := Holds v; default_file := Holds v |}).
Proof.
  intros Hsettings Hdefault Htext Hplain. unfold read_json. rewrite Hsettings.
  unfold return_default. cbn [default_file settings_file].
  destruct (default_file d) as [| | content |] eqn:Hfile.
  - exists default_settings. cbn [default_file settings_file].
    repeat split; intros; discriminate.
  - contradiction.
  - exists content. cbn [default_file settings_file].
    rewrite (reload_plain content (Hplain content eq_refl)).
    repeat split; [discriminate | intros c Hc; congruence].
  - contradiction.
Qed.

Lemma read_json_creates_witness :
  exists v,
    read_json {| settings_file := Missing; default_file := Missing |} =
      (Return v, {| settings_file := Holds v; default_file := Holds v |}) /\
    (default_file {| settings_file := Missing; default_file := Missing |} =
       Missing -> v = default_settings) /\
    (forall content,
       default_file {| settings_file := Missing; default_file := Missing |} =
         Holds content -> v = content) /\
    read_json {| settings_file := Holds v; default_file := Holds v |} =
      (Return v, {| settings_file := Holds v; default_file := Holds v |}).
Proof.
  apply (read_json_creates
           {| settings_file := Missing; default_file := Missing |}).
  - reflexivity.
  - discriminate.
  - discriminate.
  - intros content Hcontent. discriminate Hcontent.
Defined.

(** X21.  A failed start is not repaired by fixing [default.json].
    [read_json] fails exactly when [json.load] fails on [settings.json], or
    [settings.json] is missing and [json.load] fails on [default.json].
    The exception is the one [json.load] raised, [JSONDecodeError] for text
    that is no document and [UnicodeDecodeError] for bytes that are no
    text, never [FileNotFoundError].  [default.json] is left as it was.
    [settings.json] is left as it was, and empty when it was missing, so
    [read_json] fails again whatever [default.json] holds by then. *)
Theorem read_json_failure (d : disk) :
  (forall e,
     decode_error (settings_file d) = Some e \/
     settings_file d = Missing /\ decode_error (default_file d) = Some e ->
     e <> FileNotFoundError /\
     exists left_behind,
       read_json d =
         (Raise e, {| settings_file := left_behind;
                      default_file := default_file d |}) /\
       (settings_file d = Missing -> left_behind = Corrupt) /\
       (settings_file d <> Missing -> left_behind = settings_file d) /\
       forall f,
       exists e',
         decode_error left_behind = Some e' /\
         read_json {| settings_file := left_behind; default_file := f |} =
           (Raise e', {| settings_file := left_behind; default_file := f |})) /\
  (decode_error (settings_file d) = None ->
   (settings_file d = Missing -> decode_error (default_file d) = None) ->
   exists v, result_of_read (read_json d) = Return v).
Proof.
  destruct d as [sf df]. cbn [settings_file default_file]. split.
  - intros e Hbad.
    assert (Hcases :
              sf = Corrupt /\ e = JSONDecodeError \/
              sf = NotText /\ e = UnicodeDecodeError \/
              sf = Missing /\ df = Corrupt /\ e = JSONDecodeError \/
              sf = Missing /\ df = NotText /\ e = UnicodeDecodeError).
    { destruct Hbad as [Hsf | [-> Hdf]].
      - destruct sf; cbn in Hsf; try discriminate;
          injection Hsf as <-; tauto.
      - destruct df; cbn in Hdf; try discriminate;
          injection Hdf as <-; tauto. }
    destruct Hcases as [[-> ->] | [[-> ->] | [(-> & -> & ->) | (-> & -> & ->)]]];
      (split; [discriminate |]).
    + exists Corrupt. repeat split; try discriminate.
      intros f. exists JSONDecodeError. split; reflexivity.
    + exists NotText. repeat split; try discriminate.
      intros f. exists UnicodeDecodeError. split; reflexivity.
    + exists Corrupt. repeat split; try congruence.
      intros f. exists JSONDecodeError. split; reflexivity.
    + exists Corrupt. repeat split; try congruence.
      intros f. exists JSONDecodeError. split; reflexivity.
  - intros Hsf Hdf. unfold read_json, return_default, result_of_read.
    cbn [settings_file default_file].
    destruct sf as [| | content |]; cbn in Hsf; try discriminate.
    + specialize (Hdf eq_refl).
      destruct df as [| | content |]; cbn in Hdf; try discriminate;
        eexists; reflexivity.
    + eexists; reflexivity.
Qed.

Lemma read_json_failure_witness :
  read_json {| settings_file := Missing; default_file := NotText |} =
    (Raise UnicodeDecodeError,
     {| settings_file := Corrupt; default_file := NotText |}) /\
  exists e',
    decode_error Corrupt = Some e' /\
    read_json {| settings_file := Corrupt;
                 default_file := Holds default_settings |} =
      (Raise e', {| settings_file := Corrupt;
                    default_file := Holds default_settings |}).
Proof.
  destruct (proj1 (read_json_failure
                     {| settings_file := Missing; default_file := NotText |})
                  UnicodeDecodeError)
    as (_ & left_behind & Hfirst & Hempty & _ & Hagain).
  - right. split; reflexivity.
  - rewrite (Hempty eq_refl) in *.
    split; [exact Hfirst | exact (Hagain (Holds default_settings))].
Defined.

(** ** The GATT object tree *)

Lemma fold_left_mapped {A B C} (f : A -> C -> A) (g : B -> C) (l : list B) :
  forall a, fold_left (fun a x => f a (g x)) l a = fold_left f (map g l) a.
Proof. induction l as [| x r IH]; intros a; cbn; [reflexivity | apply IH]. Qed.

Lemma fold_left_flat {A B C} (f : A -> C -> A) (g : B -> list C)
      (l : list B) :
  forall a,
    fold_left (fun a x => fold_left f (g x) a) l a =
      fold_left f (flat_map g l) a.
Proof.
  induction l as [| x r IH]; intros a; cbn [fold_left flat_map];
    [reflexivity |].
  rewrite fold_left_app. apply IH.
Qed.

(** [GetManagedObjects] assigns the objects one by one, in the order of
    [objects]. *)
Lemma managed_objects_assigned (app : BluetoothManager.Application) :
  BluetoothManager.Application.GetManagedObjects app =
    fold_left (fun response (kv : string * json) =>
                 dict_set (KStr (fst kv)) (snd kv) response)
              (objects app) [].
Proof.
  unfold BluetoothManager.Application.GetManagedObjects, objects.
  rewrite <- fold_left_flat.
  generalize (@nil (pykey * json)) as response.
  induction (BluetoothManager.services app) as [| s rest IH];
    intros response; cbn [fold_left]; [reflexivity |].
  rewrite <- IH. f_equal.
  unfold service_objects. cbn [fold_left fst snd].
  rewrite <- fold_left_flat.
  unfold BluetoothManager.Service.get_characteristics.
  generalize (dict_set (KStr (BluetoothManager.Service.get_path s))
                       (BluetoothManager.Service.get_properties s) response)
    as response'.
  induction (BluetoothManager.characteristics s) as [| c cs IHc];
    intros response'; cbn [fold_left]; [reflexivity |].
  rewrite <- IHc. f_equal.
  unfold chrc_objects. cbn [fold_left fst snd].
  rewrite <- fold_left_mapped. reflexivity.
Qed.

Lemma text_key_eqb (p q : string) :
  key_eqb (KStr p) (KStr q) = String.eqb p q.
Proof. reflexivity. Qed.

Lemma assigned_elsewhere (l : list (string * json)) (p : string) :
  forall response,
    ~ In p (map fst l) ->
    dict_get (KStr p)
      (fold_left (fun response (kv : string * json) =>
                    dict_set (KStr (fst kv)) (snd kv) response) l response) =
      dict_get (KStr p) response.
Proof.
  induction l as [| [q v] rest IH]; intros response Hout;
    cbn [fold_left fst snd map In] in *; [reflexivity |].
  rewrite IH by tauto.
  apply dict_get_set_other. rewrite text_key_eqb.
  apply String.eqb_neq. intros ->. apply Hout. left. reflexivity.
Qed.

Lemma assigned_last (before after : list (string * json)) (p : string)
      (props : json) (response : list (pykey * json)) :
  ~ In p (map fst after) ->
  dict_get (KStr p)
    (fold_left (fun response (kv : string * json) =>
                  dict_set (KStr (fst kv)) (snd kv) response)
               (before ++ (p, props) :: after) response) = Some props.
Proof.
  intros Hout. rewrite fold_left_app. cbn [fold_left fst snd].
  rewrite (assigned_elsewhere after p _ Hout).
  apply dict_get_set_same.
Qed.

Lemma assigned_fresh (l : list (string * json)) :
  forall response,
    NoDup (map fst l) ->
    (forall p, In p (map fst l) -> absent (KStr p) response = true) ->
    fold_left (fun response (kv : string * json) =>
                 dict_set (KStr (fst kv)) (snd kv) response) l response =
      response ++ map (fun kv : string * json => (KStr (fst kv), snd kv)) l.
Proof.
  induction l as [| [q v] rest IH]; intros response Hnodup Hfree;
    cbn [fold_left fst snd map] in *.
  - rewrite app_nil_r. reflexivity.
  - inversion Hnodup as [| x xs Hq Hrest]; subst.
    rewrite (dict_set_absent (KStr q) v response (Hfree q (or_introl eq_refl))).
    rewrite (IH (response ++ [(KStr q, v)]) Hrest).
    + rewrite <- app_assoc. reflexivity.
    + intros p Hin. rewrite absent_app, (Hfree p (or_intror Hin)).
      cbn [absent andb]. rewrite text_key_eqb, andb_true_r.
      apply negb_true_iff, String.eqb_neq. intros ->. contradiction.
Qed.

Lemma in_paths (l : list (string * json)) (p : string) :
  In p (map fst l) -> exists props, In (p, props) l.
Proof.
  intros Hin. apply in_map_iff in Hin. destruct Hin as ([q props] & Hq & Hin).
  cbn in Hq. subst q. exists props. exact Hin.
Qed.

Lemma nodup_after (before after : list (string * json)) (p : string)
      (props : json) :
  NoDup (map fst (before ++ (p, props) :: after)) -> ~ In p (map fst after).
Proof.
  rewrite map_app. cbn [map fst]. intros Hnodup.
  apply NoDup_remove_2 in Hnodup. intros Hin. apply Hnodup.
  apply in_or_app. right. exact Hin.
Qed.

Lemma assigned_present (l : list (string * json)) (q : string) :
  forall response,
    In q (map fst l) \/ dict_get (KStr q) response <> None ->
    dict_get (KStr q)
      (fold_left (fun response (kv : string * json) =>
                    dict_set (KStr (fst kv)) (snd kv) response) l response) <>
      None.
Proof.
  induction l as [| [r v] rest IH]; intros response Hq;
    cbn [fold_left fst snd map In] in *.
  - destruct Hq as [[] | Hq]. exact Hq.
  - apply IH. destruct (String.eqb_spec q r) as [-> | Hne].
    + right. rewrite dict_get_set_same. discriminate.
    + destruct Hq as [[Hr | Hin] | Hq].
      * congruence.
      * left. exact Hin.
      * right. rewrite dict_get_set_other
          by (rewrite text_key_eqb; apply String.eqb_neq; exact Hne).
        exact Hq.
Qed.

(** X22.  When two objects share a path, the reply of [GetManagedObjects]
    holds the one visited last.  An object is reported under its path with
    its own properties whenever no object visited after it has the same
    path, and the reply has an entry for a path exactly when some object
    has that path. *)
Theorem managed_objects_last_wins (app : BluetoothManager.Application)
        (before after : list (string * json)) (p : string) (props : json) :
  objects app = before ++ (p, props) :: after ->
  ~ In p (map fst after) ->
  dict_get (KStr p) (BluetoothManager.Application.GetManagedObjects app) =
    Some props /\
  forall q,
    dict_get (KStr q) (BluetoothManager.Application.GetManagedObjects app) =
      None <-> ~ In q (map fst (objects app)).
Proof.
  intros Hsplit Hout. rewrite managed_objects_assigned. split.
  - rewrite Hsplit. apply assigned_last. exact Hout.
  - intros q. split.
    + intros Hnone Hin.
      apply (assigned_present (objects app) q [] (or_introl Hin)).
      exact Hnone.
    + intros Hout'. rewrite (assigned_elsewhere _ q [] Hout'). reflexivity.
Qed.

Lemma managed_objects_last_wins_witness :
  dict_get (KStr "/com/example/neobin0/char1")
    (BluetoothManager.Application.GetManagedObjects
       (BluetoothManager.Application.new (neo_tree 0))) =
    Some (JDict [(KStr "org.bluez.GattCharacteristic1",
                  JDict [(KStr "Service", JStr "/com/example/neobin0");
                         (KStr "UUID",
                          JStr "00002a38-0000-1000-8000-00805f9b34fb");
                         (KStr "Flags", JList [JStr "write"]);
                         (KStr "Descriptors", JList [])])]).
Proof.
  refine (proj1 (managed_objects_last_wins
                   (BluetoothManager.Application.new (neo_tree 0))
                   (firstn 2 (objects
                                (BluetoothManager.Application.new
                                   (neo_tree 0))))
                   (skipn 3 (objects
                               (BluetoothManager.Application.new
                                  (neo_tree 0))))
                   "/com/example/neobin0/char1" _ _ _)).
  - reflexivity.
  - cbn. intros [Hsame | []]. discriminate Hsame.
Defined.

Lemma reply_lookup (app : BluetoothManager.Application) (p : string)
      (props : json) :
  NoDup (map fst (objects app)) ->
  In (p, props) (objects app) ->
  dict_get (KStr p) (BluetoothManager.Application.GetManagedObjects app) =
    Some props.
Proof.
  intros Hnodup Hin. rewrite managed_objects_assigned.
  apply in_split in Hin. destruct Hin as (before & after & Hsplit).
  rewrite Hsplit. apply assigned_last.
  rewrite Hsplit in Hnodup. exact (nodup_after _ _ _ _ Hnodup).
Qed.

(** X23.  When no two objects of the application share a path, the reply
    of [GetManagedObjects] has exactly one entry for each service,
    characteristic and descriptor, in the order visited, and a path maps to
    given properties exactly when they are those of the object at that
    path. *)
Theorem managed_objects_exact (app : BluetoothManager.Application) :
  NoDup (map fst (objects app)) ->
  BluetoothManager.Application.GetManagedObjects app =
    map (fun kv : string * json => (KStr (fst kv), snd kv)) (objects app) /\
  forall p props,
    In (p, props) (objects app) <->
    dict_get (KStr p) (BluetoothManager.Application.GetManagedObjects app) =
      Some props.
Proof.
  intros Hnodup. split.
  - rewrite managed_objects_assigned.
    rewrite (assigned_fresh (objects app) [] Hnodup); reflexivity.
  - intros p props. split; [apply reply_lookup; exact Hnodup |].
    intros Hget.
    destruct (in_dec string_dec p (map fst (objects app))) as [Hin | Hout].
    + destruct (in_paths _ p Hin) as [props' Hin'].
      rewrite (reply_lookup app p props' Hnodup Hin') in Hget.
      injection Hget as <-. exact Hin'.
    + rewrite managed_objects_assigned,
              (assigned_elsewhere _ p [] Hout) in Hget.
      discriminate Hget.
Qed.

Lemma managed_objects_exact_witness :
  map fst (BluetoothManager.Application.GetManagedObjects
             (BluetoothManager.Application.new (neo_tree 0))) =
    [KStr "/com/example/neobin0"; KStr "/com/example/neobin0/char0";
     KStr "/com/example/neobin0/char1"; KStr "/com/example/neobin0/char2"].
Proof.
  rewrite (proj1 (managed_objects_exact
                    (BluetoothManager.Application.new (neo_tree 0))
                    ltac:(repeat constructor; cbn;
                          intuition discriminate))).
  reflexivity.
Defined.

Lemma collected {A} (g : A -> string) (l : list A) :
  forall result,
    fold_left (fun result x => result ++ [g x]) l result =
      result ++ map g l.
Proof.
  induction l as [| x r IH]; intros result; cbn [fold_left map].
  - rewrite app_nil_r. reflexivity.
  - rewrite IH, <- app_assoc. reflexivity.
Qed.

Lemma listed_characteristics (s : BluetoothManager.Service) :
  listed BluetoothManager.GATT_SERVICE_IFACE "Characteristics"
         (BluetoothManager.Service.get_properties s) =
    map (fun c => JStr (BluetoothManager.chrc_path c))
        (BluetoothManager.characteristics s).
Proof.
  unfold listed, BluetoothManager.Service.get_properties,
         BluetoothManager.Service.get_characteristic_paths.
  rewrite collected. cbn. rewrite map_map. reflexivity.
Qed.

Lemma listed_descriptors (c : BluetoothManager.Characteristic) :
  listed BluetoothManager.GATT_CHRC_IFACE "Descriptors"
         (BluetoothManager.Characteristic.get_properties c) =
    map (fun d => JStr (BluetoothManager.desc_path d))
        (BluetoothManager.descriptors c).
Proof.
  unfold listed, BluetoothManager.Characteristic.get_properties,
         BluetoothManager.Characteristic.get_descriptor_paths.
  rewrite collected. cbn. rewrite map_map. reflexivity.
Qed.

Lemma service_is_object (app : BluetoothManager.Application)
      (s : BluetoothManager.Service) :
  In s (BluetoothManager.services app) ->
  In (BluetoothManager.path s, BluetoothManager.Service.get_properties s)
     (objects app).
Proof.
  intros Hs. unfold objects. apply in_flat_map. exists s.
  split; [exact Hs | left; reflexivity].
Qed.

Lemma characteristic_is_object (app : BluetoothManager.Application)
      (s : BluetoothManager.Service) (c : BluetoothManager.Characteristic) :
  In s (BluetoothManager.services app) ->
  In c (BluetoothManager.characteristics s) ->
  In (BluetoothManager.chrc_path c,
      BluetoothManager.Characteristic.get_properties c) (objects app).
Proof.
  intros Hs Hc. unfold objects. apply in_flat_map. exists s.
  split; [exact Hs | right]. apply in_flat_map. exists c.
  split; [exact Hc | left; reflexivity].
Qed.

Lemma descriptor_is_object (app : BluetoothManager.Application)
      (s : BluetoothManager.Service) (c : BluetoothManager.Characteristic)
      (d : BluetoothManager.Descriptor) :
  In s (BluetoothManager.services app) ->
  In c (BluetoothManager.characteristics s) ->
  In d (BluetoothManager.descriptors c) ->
  In (BluetoothManager.desc_path d,
      BluetoothManager.Descriptor.get_properties d) (objects app).
Proof.
  intros Hs Hc Hd. unfold objects. apply in_flat_map. exists s.
  split; [exact Hs | right]. apply in_flat_map. exists c.
  split; [exact Hc | right].
  apply in_map_iff. exists d. split; [reflexivity | exact Hd].
Qed.

Lemma Forall2_mapped {A B} (f : A -> B) (P : B -> A -> Prop) (l : list A) :
  (forall x, In x l -> P (f x) x) -> Forall2 P (map f l) l.
Proof.
  induction l as [| x r IH]; intros HP; cbn [map]; constructor.
  - apply HP. left. reflexivity.
  - apply IH. intros y Hy. apply HP. right. exact Hy.
Qed.

(** X24.  The children a parent lists are the children reported.  When no
    two objects share a path, the [Characteristics] array in the
    properties of a service of the application names its characteristics
    one by one, in order, each by the path under which the reply of
    [GetManagedObjects] holds the properties of that characteristic; and
    likewise the [Descriptors] array of each of these characteristics. *)
Theorem listed_children_resolve (app : BluetoothManager.Application)
        (s : BluetoothManager.Service) :
  NoDup (map fst (objects app)) ->
  In s (BluetoothManager.services app) ->
  dict_get (KStr (BluetoothManager.path s))
           (BluetoothManager.Application.GetManagedObjects app) =
    Some (BluetoothManager.Service.get_properties s) /\
  Forall2
    (fun listed_path c =>
       listed_path = JStr (BluetoothManager.chrc_path c) /\
       dict_get (KStr (BluetoothManager.chrc_path c))
                (BluetoothManager.Application.GetManagedObjects app) =
         Some (BluetoothManager.Characteristic.get_properties c) /\
       Forall2
         (fun listed_path d =>
            listed_path = JStr (BluetoothManager.desc_path d) /\
            dict_get (KStr (BluetoothManager.desc_path d))
                     (BluetoothManager.Application.GetManagedObjects app) =
              Some (BluetoothManager.Descriptor.get_properties d))
         (listed BluetoothManager.GATT_CHRC_IFACE "Descriptors"
                 (BluetoothManager.Characteristic.get_properties c))
         (BluetoothManager.descriptors c))
    (listed BluetoothManager.GATT_SERVICE_IFACE "Characteristics"
            (BluetoothManager.Service.get_properties s))
    (BluetoothManager.characteristics s).
Proof.
  intros Hnodup Hs.
  split; [apply (reply_lookup app _ _ Hnodup), service_is_object; exact Hs |].
  rewrite listed_characteristics. apply Forall2_mapped.
  intros c Hc. split; [reflexivity | split].
  - apply (reply_lookup app _ _ Hnodup),
          (characteristic_is_object app s c Hs Hc).
  - rewrite listed_descriptors. apply Forall2_mapped.
    intros d Hd. split; [reflexivity |].
    apply (reply_lookup app _ _ Hnodup),
          (descriptor_is_object app s c d Hs Hc Hd).
Qed.

Lemma listed_children_resolve_witness :
  dict_get (KStr "/com/example/neobin0")
           (BluetoothManager.Application.GetManagedObjects
              (BluetoothManager.Application.new (neo_tree 0))) =
    Some (BluetoothManager.Service.get_properties (neo_tree 0)).
Proof.
  apply (listed_children_resolve
           (BluetoothManager.Application.new (neo_tree 0)) (neo_tree 0)).
  - repeat constructor; cbn; intuition discriminate.
  - left. reflexivity.
Defined.

(** ** Paths from indices *)

Lemma to_int_proper (z : Z) :
  Z.to_int z <> Decimal.Pos Decimal.Nil /\
  Z.to_int z <> Decimal.Neg Decimal.Nil.
Proof.
  destruct z as [| p | p]; cbn; split; try discriminate;
    intros [= Hnil]; exact (DecimalPos.Unsigned.to_uint_nonnil p Hnil).
Qed.

Lemma str_inj (i j : Z) :
  BluetoothManager.str i = BluetoothManager.str j -> i = j.
Proof.
  unfold BluetoothManager.str. intros Hsame.
  apply DecimalZ.to_int_inj.
  destruct (to_int_proper i) as [Hi1 Hi2], (to_int_proper j) as [Hj1 Hj2].
  pose proof (NilZero.isi (Z.to_int i) Hi1 Hi2) as Hi.
  pose proof (NilZero.isi (Z.to_int j) Hj1 Hj2) as Hj.
  rewrite Hsame in Hi. congruence.
Qed.

Lemma append_inj (a b c : string) : (a ++ b = a ++ c)%string -> b = c.
Proof.
  induction a as [| x r IH]; cbn [String.append]; [trivial |].
  intros [= Hrest]. exact (IH Hrest).
Qed.

Lemma append_longer (a b : string) :
  b <> EmptyString -> (a ++ b)%string <> a.
Proof.
  intros Hb. induction a as [| x r IH]; cbn [String.append]; [exact Hb |].
  intros [= Hrest]. exact (IH Hrest).
Qed.

Lemma nodup_mapped {A B C} (f : A -> B) (g : A -> C) (l : list A) :
  (forall x y, g x = g y -> f x = f y) ->
  NoDup (map f l) -> NoDup (map g l).
Proof.
  intros Hfg. induction l as [| x r IH]; cbn [map]; intros Hnodup;
    [constructor |].
  inversion Hnodup as [| y ys Hx Hrest]; subst. constructor.
  - intros Hin. apply Hx. apply in_map_iff in Hin.
    destruct Hin as (z & Hz & Hin). apply in_map_iff.
    exists z. split; [apply Hfg; exact Hz | exact Hin].
  - exact (IH Hrest).
Qed.

Lemma populate_next (index : Z) (uuid : string) (flags : list string)
      (rest : list (Z * string * list string)) (s : BluetoothManager.Service) :
  populate ((index, uuid, flags) :: rest) s =
    populate rest
      (BluetoothManager.Service.add_characteristic
         (BluetoothManager.Characteristic.new index uuid flags s) s).
Proof. reflexivity. Qed.

Lemma populate_path (classes : list (Z * string * list string)) :
  forall s, BluetoothManager.path (populate classes s) = BluetoothManager.path s.
Proof.
  induction classes as [| [[index uuid] flags] rest IH]; intros s;
    [reflexivity |].
  rewrite populate_next, IH. reflexivity.
Qed.

Lemma populate_characteristics (classes : list (Z * string * list string)) :
  forall s,
    BluetoothManager.characteristics (populate classes s) =
      BluetoothManager.characteristics s ++
      map (fun spec : Z * string * list string =>
             let '(index, uuid, flags) := spec in
             BluetoothManager.Characteristic.new index uuid flags s)
          classes.
Proof.
  induction classes as [| [[index uuid] flags] rest IH]; intros s.
  - cbn [populate fold_left map]. rewrite app_nil_r. reflexivity.
  - rewrite populate_next, IH. cbn [map].
    cbn [BluetoothManager.Service.add_characteristic
           BluetoothManager.characteristics].
    rewrite <- app_assoc. reflexivity.
Qed.

Lemma populated_objects (classes : list (Z * string * list string))
      (s : BluetoothManager.Service) :
  BluetoothManager.characteristics s = [] ->
  objects (BluetoothManager.Application.new (populate classes s)) =
    (BluetoothManager.path s,
     BluetoothManager.Service.get_properties (populate classes s)) ::
    map (fun spec : Z * string * list string =>
           let '(index, uuid, flags) := spec in
           (BluetoothManager.Characteristic.get_path
              (BluetoothManager.Characteristic.new index uuid flags s),
            BluetoothManager.Characteristic.get_properties
              (BluetoothManager.Characteristic.new index uuid flags s)))
        classes.
Proof.
  intros Hempty. unfold objects, BluetoothManager.Application.new,
    BluetoothManager.Application.add_service.
  cbn [BluetoothManager.services app flat_map]. rewrite app_nil_r.
  unfold service_objects, BluetoothManager.Service.get_path.
  rewrite populate_path, populate_characteristics, Hempty. cbn [app].
  f_equal.
  induction classes as [| [[index uuid] flags] rest IH]; cbn [map flat_map];
    [reflexivity |].
  rewrite IH. reflexivity.
Qed.

Lemma populated_distinct (classes : list (Z * string * list string))
      (s : BluetoothManager.Service) :
  BluetoothManager.characteristics s = [] ->
  NoDup (map (fun spec : Z * string * list string => fst (fst spec)) classes) ->
  NoDup (map fst
           (objects (BluetoothManager.Application.new (populate classes s)))).
Proof.
  intros Hempty Hnodup. rewrite (populated_objects classes s Hempty).
  cbn [map fst]. rewrite map_map. constructor.
  - intros Hin. apply in_map_iff in Hin.
    destruct Hin as ([[index uuid] flags] & Hsame & _). cbn in Hsame.
    revert Hsame. apply append_longer. discriminate.
  - apply (nodup_mapped _ _ classes) with (2 := Hnodup).
    intros [[i u] f] [[j v] g] Hsame. cbn in *.
    apply append_inj in Hsame. injection Hsame as Hsame.
    repeat (apply append_inj with (a := String _ EmptyString) in Hsame
            || injection Hsame as Hsame).
    exact (str_inj i j Hsame).
Qed.

(** X25.  Distinct indices are enough.  A service constructed with any
    index and given characteristics of classes with pairwise distinct
    indices, the way [NeoService.__init__] does it, is reported in full:
    the reply of [GetManagedObjects] is the entry of the service followed
    by one entry per characteristic, in the order added, each under its own
    path with its own properties, and each characteristic names as its
    [Service] the path of the service that lists it. *)
Theorem distinct_indices_suffice (index : Z) (uuid : string) (primary : bool)
        (classes : list (Z * string * list string)) :
  NoDup (map (fun spec : Z * string * list string => fst (fst spec)) classes) ->
  BluetoothManager.Application.GetManagedObjects
    (BluetoothManager.Application.new
       (populate classes (BluetoothManager.Service.new index uuid primary))) =
    (KStr (BluetoothManager.path
             (populate classes
                (BluetoothManager.Service.new index uuid primary))),
     BluetoothManager.Service.get_properties
       (populate classes (BluetoothManager.Service.new index uuid primary))) ::
    map (fun c => (KStr (BluetoothManager.chrc_path c),
                   BluetoothManager.Characteristic.get_properties c))
        (BluetoothManager.characteristics
           (populate classes
              (BluetoothManager.Service.new index uuid primary))) /\
  Forall
    (fun c =>
       BluetoothManager.service c =
         BluetoothManager.path
           (populate classes
              (BluetoothManager.Service.new index uuid primary)))
    (BluetoothManager.characteristics
       (populate classes (BluetoothManager.Service.new index uuid primary))).
Proof.
  intros Hnodup.
  set (s0 := BluetoothManager.Service.new index uuid primary).
  assert (Hempty : BluetoothManager.characteristics s0 = []) by reflexivity.
  split.
  - rewrite managed_objects_assigned.
    rewrite (assigned_fresh _ [] (populated_distinct classes s0 Hempty Hnodup))
      by reflexivity.
    rewrite (populated_objects classes s0 Hempty).
    rewrite populate_path, populate_characteristics, Hempty.
    cbn [map fst snd app]. f_equal. rewrite !map_map.
    apply map_ext. intros [[i u] f]. reflexivity.
  - rewrite populate_path, populate_characteristics, Hempty. cbn [app].
    apply Forall_forall. intros c Hin. apply in_map_iff in Hin.
    destruct Hin as ([[i u] f] & <- & _). reflexivity.
Qed.

Lemma distinct_indices_suffice_witness :
  map fst (BluetoothManager.Application.GetManagedObjects
             (BluetoothManager.Application.new (neo_tree 7))) =
    [KStr "/com/example/neobin7"; KStr "/com/example/neobin7/char0";
     KStr "/com/example/neobin7/char1"; KStr "/com/example/neobin7/char2"].
Proof.
  change (neo_tree 7)
    with (populate
            [(0, "00002a37-0000-1000-8000-00805f9b34fb", ["write"]);
             (1, "00002a38-0000-1000-8000-00805f9b34fb", ["write"]);
             (2, "00002a39-0000-1000-8000-00805f9b34fb", ["notify"; "read"])]
            (BluetoothManager.Service.new
               7 "0000180d-0000-1000-8000-00805f9b34fb" true)).
  rewrite (proj1 (distinct_indices_suffice
                    7 "0000180d-0000-1000-8000-00805f9b34fb" true
                    [(0, "00002a37-0000-1000-8000-00805f9b34fb", ["write"]);
                     (1, "00002a38-0000-1000-8000-00805f9b34fb", ["write"]);
                     (2, "00002a39-0000-1000-8000-00805f9b34fb",
                      ["notify"; "read"])]
                    ltac:(repeat constructor; cbn; intuition discriminate))).
  reflexivity.
Defined.

(** ** The state of the network, as reported *)

Lemma run_capturing_run `{Platform} (argv : list string) (s : NeoService) :
  run_capturing argv s =
    if existsb has_nul argv then (Raise ValueError, s, [])
    else (capture argv, s, [subprocess_run argv]).
Proof.
  unfold run_capturing, run_process, bind, call, raise, lift.
  destruct (existsb has_nul argv); [reflexivity |].
  destruct (capture argv); reflexivity.
Qed.

Lemma query_run `{Platform} {A} (argv : list string) (k : string -> M A)
      (s : NeoService) :
  (forall out, exists r, k out s = (r, s, [])) ->
  exists r calls,
    (out <- run_capturing argv ;; k out) s =
      (r, s, map subprocess_run calls) /\
    (List.length calls <= 1)%nat.
Proof.
  intros Hk. unfold bind. rewrite run_capturing_run.
  destruct (existsb has_nul argv).
  - exists (Raise ValueError), []. split; [reflexivity | cbn; lia].
  - destruct (capture argv) as [out | x].
    + destruct (Hk out) as [r ->]. exists r, [argv].
      split; [reflexivity | cbn; lia].
    + exists (Raise x), [argv]. split; [reflexivity | cbn; lia].
Qed.

Lemma attempt_run {A} (m : M A) (d : A) (s : NeoService) (r : outcome A)
      (t : list event) :
  m s = (r, s, t) ->
  try_except m (fun _ => ret d) s =
    (Return (match r with Return v => v | Raise _ => d end), s, t).
Proof.
  intros Hm. unfold try_except, ret. rewrite Hm.
  destruct r; [reflexivity | rewrite app_nil_r; reflexivity].
Qed.

(** X26.  [get_wifi_status] never raises and changes no attribute.  It
    always asks [nmcli] for the active connections first and runs at most
    three more commands, and it makes no other call.  Its answer is a
    dictionary with the keys [connected], [ssid] and [ip_address], and when
    it says [connected] is false, [ssid] and [ip_address] are [None]. *)
Theorem get_wifi_status_answers `{Platform} (s : NeoService) :
  exists connected ssid ip_address calls,
    InformChrc.get_wifi_status s =
      (Return (InformChrc.wifi_info connected ssid ip_address), s,
       subprocess_run ["nmcli"; "-t"; "-f"; "TYPE,NAME,DEVICE,STATE";
                       "connection"; "show"; "--active"] ::
       map subprocess_run calls) /\
    (List.length calls <= 3)%nat /\
    (connected = false -> ssid = None /\ ip_address = None).
Proof.
  unfold InformChrc.get_wifi_status.
  unfold try_except at 1. unfold bind at 1. rewrite run_capturing_run.
  replace (existsb has_nul _) with false by reflexivity.
  destruct (capture _) as [active | x];
    [| exists false, None, None, []; repeat split; cbn; lia].
  destruct (InformChrc.active_wifi_device (lines active))
    as [[| c device] |];
    [exists true, None, None, []; repeat split; try discriminate; cbn; lia
    | | exists false, None, None, []; repeat split; cbn; lia].
  set (wifi_device := String c device).
  destruct (query_run ["iw"; "dev"; wifi_device; "link"]
              (fun link => lift (InformChrc.link_ssid (lines link))) s)
    as (r1 & calls1 & Hlink & Hcalls1);
    [intros out; eexists; reflexivity |].
  unfold bind at 1.
  rewrite (attempt_run _ None s r1 _ Hlink).
  set (ssid1 := match r1 with Return v => v | Raise _ => None end).
  assert (Hsecond : exists ssid2 calls2,
             (if InformChrc.no_ssid ssid1
              then
                try_except
                  (networks <- run_capturing
                                 ["nmcli"; "-t"; "-f"; "active,ssid";
                                  "dev"; "wifi"] ;;
                   found <- lift (InformChrc.listed_ssid (lines networks)) ;;
                   match found with
                   | Some name => ret (Some name)
                   | None => ret ssid1
                   end)
                  (fun _ => ret ssid1)
              else ret ssid1) s =
               (Return ssid2, s, map subprocess_run calls2) /\
             (List.length calls2 <= 1)%nat).
  { destruct (InformChrc.no_ssid ssid1).
    - destruct (query_run ["nmcli"; "-t"; "-f"; "active,ssid"; "dev"; "wifi"]
                  (fun networks =>
                     found <- lift (InformChrc.listed_ssid (lines networks)) ;;
                     match found with
                     | Some name => ret (Some name)
                     | None => ret ssid1
                     end) s)
        as (r2 & calls2 & Hlisted & Hcalls2).
      + intros out. unfold bind, lift.
        destruct (InformChrc.listed_ssid (lines out)) as [[name |] |];
          eexists; reflexivity.
      + rewrite (attempt_run _ ssid1 s r2 _ Hlisted).
        eexists. exists calls2. split; [reflexivity | exact Hcalls2].
    - exists ssid1, []. split; [reflexivity | cbn; lia]. }
  destruct Hsecond as (ssid2 & calls2 & Hsecond & Hcalls2).
  unfold bind at 1. rewrite Hsecond.
  unfold bind at 1. rewrite run_capturing_run.
  destruct (existsb has_nul _).
  - exists false, None, None, (calls1 ++ calls2).
    cbn. rewrite ?app_nil_r, ?map_app, ?length_app.
    repeat split; first [reflexivity | lia].
  - destruct (capture _) as [addresses | x].
    + unfold bind, lift, ret.
      destruct (InformChrc.inet_address (lines addresses)) as [ip_address | x].
      * exists true, ssid2, ip_address,
          (calls1 ++ calls2 ++ [["ip"; "-f"; "inet"; "addr"; "show";
                                 wifi_device]]).
        cbn. rewrite ?app_nil_r, ?map_app, ?length_app. cbn.
        repeat split; first [reflexivity | discriminate | lia].
      * exists false, None, None,
          (calls1 ++ calls2 ++ [["ip"; "-f"; "inet"; "addr"; "show";
                                 wifi_device]]).
        cbn. rewrite ?app_nil_r, ?map_app, ?length_app. cbn.
        repeat split; first [reflexivity | lia].
    + exists false, None, None,
        (calls1 ++ calls2 ++ [["ip"; "-f"; "inet"; "addr"; "show";
                               wifi_device]]).
      cbn. rewrite ?app_nil_r, ?map_app, ?length_app. cbn.
      repeat split; first [reflexivity | lia].
Qed.
